(** * Verification of the page interaction layer (script.js)

    A shallow embedding of [src/script.js]: the contact form validator and
    submit flow, the business-type selector, the mobile navigation menu and
    the scheduling modal with its focus trap, over a small model of the
    document the script runs against.

    Conventions of the model.
    - A JavaScript string is a [string]; each character stands for one code
      unit below 256.  The ECMAScript white space class is restricted to
      that range.
    - The document is a flat store of elements in document order; an element
      is named by its index in the store, so two references to one element
      are one index (aliasing is kept).
    - [null] and [undefined] are [None]; a property access through a
      variable that may hold [null] goes through [deref], which raises
      [TypeError].
    - Effects that leave the page (network, alert, console) are appended to
      a log.
    - The submit listener is asynchronous: it is split at its [await] into
      the part that runs at once and the part that runs when the request
      settles, so that other listeners may run in between.
    - Timers (throttle, debounce, the delayed removal of the preloader),
      smooth scrolling and the callbacks of the intersection observer are
      left out; [preventDefault] is recorded where a statement needs it. *)

From stdpp Require Import base option list strings gmap.
From Stdlib Require Import ZArith Bool Lia Ascii.
From Stdlib Require String.

Local Open Scope string_scope.
Local Open Scope list_scope.

(** ** Strings: white space, trim and truthiness *)

Module Str.

(** ECMAScript [WhiteSpace] and [LineTerminator] code units below 256:
    TAB, LF, VT, FF, CR, SP and NBSP.  Both [String.prototype.trim] and the
    regular expression class [\s] use this set. *)
Definition is_space (c : ascii) : bool :=
  let n := nat_of_ascii c in
  (n =? 9)%nat || (n =? 10)%nat || (n =? 11)%nat || (n =? 12)%nat ||
  (n =? 13)%nat || (n =? 32)%nat || (n =? 160)%nat.

Definition chars (s : string) : list ascii := String.list_ascii_of_string s.

Fixpoint trimStart (s : string) : string :=
  match s with
  | EmptyString => EmptyString
  | String c s' => if is_space c then trimStart s' else s
  end.

Fixpoint rev_chars (acc : string) (s : string) : string :=
  match s with
  | EmptyString => acc
  | String c s' => rev_chars (String c acc) s'
  end.

Definition reverse (s : string) : string := rev_chars EmptyString s.

Definition trimEnd (s : string) : string := reverse (trimStart (reverse s)).

(** [s.trim()] *)
Definition trim (s : string) : string := trimEnd (trimStart s).

(** JavaScript truthiness of a string: the empty string is falsy. *)
Definition truthy (s : string) : bool :=
  match s with EmptyString => false | String _ _ => true end.

(** [s.startsWith(p)], used by the attribute selector [[a^="p"]]. *)
Fixpoint startsWith (p s : string) : bool :=
  match p, s with
  | EmptyString, _ => true
  | String a p', String b s' => Ascii.eqb a b && startsWith p' s'
  | String _ _, EmptyString => false
  end.

Definition blank (s : string) : bool := forallb is_space (chars s).

End Str.

(** ** Regular expressions

    The fragment of the ECMAScript pattern language that the script uses,
    with the constructors needed to take derivatives.  A pattern anchored
    with [^] and [$] is tested against the whole subject. *)

Module Regex.

Inductive class_item :=
| ClsSpace              (* \s *)
| ClsChar (c : ascii).  (* a literal character inside [...] *)

Inductive regex :=
| RVoid
| REps
| RChar (c : ascii)
| RNotIn (items : list class_item)   (* [^...] *)
| RAlt (r1 r2 : regex)
| RCat (r1 r2 : regex)
| RStar (r : regex).

(** [r+] *)
Definition RPlus (r : regex) : regex := RCat r (RStar r).

Definition item_has (c : ascii) (it : class_item) : bool :=
  match it with
  | ClsSpace => Str.is_space c
  | ClsChar d => Ascii.eqb c d
  end.

Definition not_in (items : list class_item) (c : ascii) : bool :=
  negb (existsb (item_has c) items).

Fixpoint nullable (r : regex) : bool :=
  match r with
  | RVoid => false
  | REps => true
  | RChar _ => false
  | RNotIn _ => false
  | RAlt r1 r2 => nullable r1 || nullable r2
  | RCat r1 r2 => nullable r1 && nullable r2
  | RStar _ => true
  end.

Fixpoint deriv (c : ascii) (r : regex) : regex :=
  match r with
  | RVoid => RVoid
  | REps => RVoid
  | RChar d => if Ascii.eqb c d then REps else RVoid
  | RNotIn items => if not_in items c then REps else RVoid
  | RAlt r1 r2 => RAlt (deriv c r1) (deriv c r2)
  | RCat r1 r2 =>
      if nullable r1
      then RAlt (RCat (deriv c r1) r2) (deriv c r2)
      else RCat (deriv c r1) r2
  | RStar r1 => RCat (deriv c r1) (RStar r1)
  end.

Fixpoint matches (r : regex) (w : list ascii) : bool :=
  match w with
  | [] => nullable r
  | c :: w' => matches (deriv c r) w'
  end.

(** [/^r$/.test(s)] *)
Definition test (r : regex) (s : string) : bool := matches r (Str.chars s).

(** The words of a pattern. *)
Inductive lang : regex -> list ascii -> Prop :=
| lang_eps : lang REps []
| lang_char c : lang (RChar c) [c]
| lang_notin items c : not_in items c = true -> lang (RNotIn items) [c]
| lang_alt_l r1 r2 w : lang r1 w -> lang (RAlt r1 r2) w
| lang_alt_r r1 r2 w : lang r2 w -> lang (RAlt r1 r2) w
| lang_cat r1 r2 w1 w2 : lang r1 w1 -> lang r2 w2 -> lang (RCat r1 r2) (w1 ++ w2)
| lang_star_nil r : lang (RStar r) []
| lang_star_app r w1 w2 :
    lang r w1 -> lang (RStar r) w2 -> lang (RStar r) (w1 ++ w2).

End Regex.

(** ** The document

    Elements live in a flat store in document order.  The tree shape is
    kept by parent pointers; queries walk them with the store's length as
    fuel. *)

Module Dom.

Record Element := mkElement {
  tagName : string;                  (* lower-case local name *)
  parentNode : option nat;
  attributes : gmap string string;   (* content attributes *)
  classList : list string;
  value : string;                    (* value of a form control *)
  defaultValue : string;             (* what form.reset() restores *)
  disabled : bool;
  innerHTML : string;
  borderColor : string;              (* style.borderColor *)
  offsetHeight : Z;
}.

Definition set_attributes (a : gmap string string) (e : Element) : Element :=
  mkElement (tagName e) (parentNode e) a (classList e) (value e)
            (defaultValue e) (disabled e) (innerHTML e) (borderColor e)
            (offsetHeight e).

Definition set_classList (c : list string) (e : Element) : Element :=
  mkElement (tagName e) (parentNode e) (attributes e) c (value e)
            (defaultValue e) (disabled e) (innerHTML e) (borderColor e)
            (offsetHeight e).

Definition set_value (v : string) (e : Element) : Element :=
  mkElement (tagName e) (parentNode e) (attributes e) (classList e) v
            (defaultValue e) (disabled e) (innerHTML e) (borderColor e)
            (offsetHeight e).

Definition set_disabled (v : bool) (e : Element) : Element :=
  mkElement (tagName e) (parentNode e) (attributes e) (classList e) (value e)
            (defaultValue e) v (innerHTML e) (borderColor e)
            (offsetHeight e).

Definition set_innerHTML (v : string) (e : Element) : Element :=
  mkElement (tagName e) (parentNode e) (attributes e) (classList e) (value e)
            (defaultValue e) (disabled e) v (borderColor e)
            (offsetHeight e).

Definition set_borderColor (v : string) (e : Element) : Element :=
  mkElement (tagName e) (parentNode e) (attributes e) (classList e) (value e)
            (defaultValue e) (disabled e) (innerHTML e) v
            (offsetHeight e).

(** What the page does to the world outside the document. *)
Inductive Effect :=
| Fetch (url : string) (body : list (string * string))   (* POST, Accept: application/json *)
| Alert (msg : string)
| ConsoleError (msg : string)
| LoadFrame (frame : nat) (src : string).                (* iframe.src = src *)

(** Which elements can take focus is decided by the browser from the
    markup and the style sheet, neither of which the script reads: an
    anchor without [href], a hidden input, a disabled control and an
    element that is not rendered cannot.  [focusableArea] is the browser's
    answer for the element at an index, given the elements, the classes of
    the body and the width of the window. *)
Record Browser := mkBrowserWith {
  nodes : list Element;
  bodyClassList : list string;       (* document.body.classList *)
  activeElement : option nat;        (* document.activeElement; None is null *)
  innerWidth : Z;                    (* window.innerWidth *)
  scrollY : Z;                       (* window.scrollY *)
  log : list Effect;                 (* oldest first *)
  focusableArea : list Element -> list string -> Z -> nat -> bool;
}.

Definition set_nodes (n : list Element) (b : Browser) : Browser :=
  mkBrowserWith n (bodyClassList b) (activeElement b) (innerWidth b) (scrollY b)
                (log b) (focusableArea b).

Definition set_bodyClassList (c : list string) (b : Browser) : Browser :=
  mkBrowserWith (nodes b) c (activeElement b) (innerWidth b) (scrollY b)
                (log b) (focusableArea b).

Definition set_activeElement (a : option nat) (b : Browser) : Browser :=
  mkBrowserWith (nodes b) (bodyClassList b) a (innerWidth b) (scrollY b)
                (log b) (focusableArea b).

Definition set_innerWidth (w : Z) (b : Browser) : Browser :=
  mkBrowserWith (nodes b) (bodyClassList b) (activeElement b) w (scrollY b)
                (log b) (focusableArea b).

Definition set_scrollY (y : Z) (b : Browser) : Browser :=
  mkBrowserWith (nodes b) (bodyClassList b) (activeElement b) (innerWidth b) y
                (log b) (focusableArea b).

Definition emit (e : Effect) (b : Browser) : Browser :=
  mkBrowserWith (nodes b) (bodyClassList b) (activeElement b) (innerWidth b)
                (scrollY b) (log b ++ [e]) (focusableArea b).

(** In-place update of the element at index [i]. *)
Definition update (i : nat) (f : Element -> Element) (b : Browser) : Browser :=
  set_nodes (alter f i (nodes b)) b.

(** *** Reading properties *)

Definition getAttribute (b : Browser) (i : nat) (a : string) : option string :=
  e ← nodes b !! i; attributes e !! a.

Definition valueOf (b : Browser) (i : nat) : string :=
  from_option value EmptyString (nodes b !! i).

Definition classesOf (b : Browser) (i : nat) : list string :=
  from_option classList [] (nodes b !! i).

Definition borderColorOf (b : Browser) (i : nat) : string :=
  from_option borderColor EmptyString (nodes b !! i).

Definition offsetHeightOf (b : Browser) (i : nat) : Z :=
  from_option offsetHeight 0%Z (nodes b !! i).

Definition defaultValueOf (b : Browser) (i : nat) : string :=
  from_option defaultValue EmptyString (nodes b !! i).

Definition disabledOf (b : Browser) (i : nat) : bool :=
  from_option disabled false (nodes b !! i).

Definition innerHTMLOf (b : Browser) (i : nat) : string :=
  from_option innerHTML EmptyString (nodes b !! i).

Definition hasClass (b : Browser) (i : nat) (c : string) : bool :=
  bool_decide (c ∈ classesOf b i).

(** *** classList and attribute writes *)

Definition tokens_add (c : string) (l : list string) : list string :=
  if bool_decide (c ∈ l) then l else l ++ [c].

Definition tokens_remove (c : string) (l : list string) : list string :=
  List.filter (fun x => negb (String.eqb x c)) l.

Definition classList_add (i : nat) (c : string) : Browser -> Browser :=
  update i (fun e => set_classList (tokens_add c (classList e)) e).

Definition classList_remove (i : nat) (c : string) : Browser -> Browser :=
  update i (fun e => set_classList (tokens_remove c (classList e)) e).

Definition body_add (c : string) (b : Browser) : Browser :=
  set_bodyClassList (tokens_add c (bodyClassList b)) b.

Definition body_remove (c : string) (b : Browser) : Browser :=
  set_bodyClassList (tokens_remove c (bodyClassList b)) b.

Definition setAttribute (i : nat) (a v : string) : Browser -> Browser :=
  update i (fun e => set_attributes (<[a := v]> (attributes e)) e).

Definition setValue (i : nat) (v : string) : Browser -> Browser :=
  update i (set_value v).

Definition setBorderColor (i : nat) (v : string) : Browser -> Browser :=
  update i (set_borderColor v).

Definition setDisabled (i : nat) (v : bool) : Browser -> Browser :=
  update i (set_disabled v).

Definition setInnerHTML (i : nat) (v : string) : Browser -> Browser :=
  update i (set_innerHTML v).

(** The element [i] can take focus in the document as it is now. *)
Definition canFocus (b : Browser) (i : nat) : bool :=
  focusableArea b (nodes b) (bodyClassList b) (innerWidth b) i.

(** [el.focus()]: the element becomes the active one when it can take
    focus; otherwise the call does nothing. *)
Definition focus (i : nat) (b : Browser) : Browser :=
  if canFocus b i then set_activeElement (Some i) b else b.

(** *** The tree *)

Definition parentOf (b : Browser) (i : nat) : option nat :=
  e ← nodes b !! i; parentNode e.

(** The chain of ancestors of [i], nearest first. *)
Fixpoint ancestors_fuel (fuel : nat) (b : Browser) (i : nat) : list nat :=
  match fuel with
  | O => []
  | S fuel' =>
      match parentOf b i with
      | Some p => p :: ancestors_fuel fuel' b p
      | None => []
      end
  end.

Definition ancestors (b : Browser) (i : nat) : list nat :=
  ancestors_fuel (length (nodes b)) b i.

Definition isDescendant (b : Browser) (root i : nat) : bool :=
  bool_decide (root ∈ ancestors b i).

(** [root.contains(i)]: a node contains itself. *)
Definition contains (b : Browser) (root i : nat) : bool :=
  bool_decide (root = i) || isDescendant b root i.

(** *** Selectors *)

Inductive selector :=
| STag (t : string)                  (* t *)
| SClass (c : string)                (* .c *)
| SHas (a : string)                  (* [a] *)
| SAttr (a v : string)               (* [a="v"] *)
| SAttrPrefix (a v : string)         (* [a^="v"] *)
| SNot (s : selector)                (* :not(s) *)
| SAnd (s1 s2 : selector)            (* s1s2 *)
| SOr (s1 s2 : selector).            (* s1, s2 *)

Fixpoint sel_matches (s : selector) (e : Element) : bool :=
  match s with
  | STag t => String.eqb (tagName e) t
  | SClass c => bool_decide (c ∈ classList e)
  | SHas a => bool_decide (is_Some (attributes e !! a))
  | SAttr a v => bool_decide (attributes e !! a = Some v)
  | SAttrPrefix a v =>
      match attributes e !! a with
      | Some x => Str.startsWith v x
      | None => false
      end
  | SNot s1 => negb (sel_matches s1 e)
  | SAnd s1 s2 => sel_matches s1 e && sel_matches s2 e
  | SOr s1 s2 => sel_matches s1 e || sel_matches s2 e
  end.

Definition matchesAt (b : Browser) (s : selector) (i : nat) : bool :=
  from_option (sel_matches s) false (nodes b !! i).

Definition indices (b : Browser) : list nat := seq 0 (length (nodes b)).

(** [document.querySelectorAll(s)] *)
Definition querySelectorAll (b : Browser) (s : selector) : list nat :=
  List.filter (matchesAt b s) (indices b).

(** [root.querySelectorAll(s)]: descendants of [root] only. *)
Definition querySelectorAllIn (b : Browser) (root : nat) (s : selector) : list nat :=
  List.filter (fun i => isDescendant b root i && matchesAt b s i) (indices b).

(** [document.querySelector(s)] *)
Definition querySelector (b : Browser) (s : selector) : option nat :=
  head (querySelectorAll b s).

(** [root.querySelector(s)] *)
Definition querySelectorIn (b : Browser) (root : nat) (s : selector) : option nat :=
  head (querySelectorAllIn b root s).

(** [document.getElementById(id)] *)
Definition getElementById (b : Browser) (id : string) : option nat :=
  querySelector b (SAttr "id" id).

(** *** Forms *)

(** [form.reset()]: every control of the form gets its default value back. *)
Definition reset_control (b : Browser) (i : nat) : Browser :=
  update i (fun e => set_value (defaultValue e) e) b.

Definition controls (b : Browser) (form : nat) : list nat :=
  List.filter (isDescendant b form) (indices b).

Definition formReset (form : nat) (b : Browser) : Browser :=
  fold_left reset_control (controls b form) b.

(** [new FormData(form)]: the named controls of the form with their values. *)
Definition formData (b : Browser) (form : nat) : list (string * string) :=
  omap (fun i => n ← getAttribute b i "name"; Some (n, valueOf b i))
       (controls b form).

(** [form.action] *)
Definition formAction (b : Browser) (form : nat) : string :=
  default EmptyString (getAttribute b form "action").

(** *** Exceptions *)

Inductive Exn := TypeError.

Inductive Res (A : Type) :=
| Ok (a : A)
| Throw (e : Exn).
Arguments Ok {A} a.
Arguments Throw {A} e.

Definition bind {A B} (m : Res A) (k : A -> Res B) : Res B :=
  match m with
  | Ok a => k a
  | Throw e => Throw e
  end.

(** Member access through a variable that may hold [null] or [undefined]. *)
Definition deref {A} (o : option A) : Res A :=
  match o with
  | Some a => Ok a
  | None => Throw TypeError
  end.

(** [!x] for an element reference. *)
Definition absent {A} (o : option A) : bool :=
  match o with Some _ => false | None => true end.

(** [a === x] between [document.activeElement] (an element or [null]) and a
    variable holding an element or [undefined]: [null === undefined] is
    false. *)
Definition sameNode (a x : option nat) : bool :=
  match a, x with
  | Some i, Some j => bool_decide (i = j)
  | _, _ => false
  end.

End Dom.

Notation "'let*' x := m 'in' k" := (Dom.bind m (fun x => k))
  (at level 10, x pattern, m at level 100, k at level 200, only parsing).

(** ** The script *)

Module Script.
Import Dom.

(** *** 1. Preloader *)

Module Preloader.

(** The element captured by the [load] listener, when one is installed. *)
Definition initPreloader (b : Browser) : Res (option nat) :=
  let preloader := getElementById b "preloader" in
  if absent preloader then Ok None else
  let* p := deref preloader in
  Ok (Some p).

(** The [load] listener (the delayed removal of the overlay is a timer and
    is left out). *)
Definition onLoad (preloader : nat) (b : Browser) : Browser :=
  classList_add preloader "fade-out" b.

End Preloader.

(** *** 2. Sticky navbar *)

Module StickyNavbar.

Definition initStickyNavbar (b : Browser) : Res (option nat) :=
  let navbar := getElementById b "navbar" in
  if absent navbar then Ok None else
  let* n := deref navbar in
  Ok (Some n).

(** The body of the throttled scroll listener. *)
Definition handleScroll (navbar : nat) (b : Browser) : Browser :=
  if (50 <? scrollY b)%Z
  then classList_add navbar "scrolled" b
  else classList_remove navbar "scrolled" b.

End StickyNavbar.

(** *** 3. Mobile navigation *)

Module MobileNav.

Record State := mkState {
  navToggle : nat;
  navMenu : nat;
  navLinks : list nat;
  isOpen : bool;
}.

Definition set_isOpen (v : bool) (s : State) : State :=
  mkState (navToggle s) (navMenu s) (navLinks s) v.

Definition openMenu (st : State * Browser) : State * Browser :=
  let '(s, b) := st in
  let s := set_isOpen true s in
  let b := setAttribute (navToggle s) "aria-expanded" "true" b in
  let b := classList_add (navMenu s) "active" b in
  let b := body_add "modal-open" b in
  (s, b).

Definition closeMenu (st : State * Browser) : State * Browser :=
  let '(s, b) := st in
  let s := set_isOpen false s in
  let b := setAttribute (navToggle s) "aria-expanded" "false" b in
  let b := classList_remove (navMenu s) "active" b in
  let b := body_remove "modal-open" b in
  let b := focus (navToggle s) b in
  (s, b).

(** Click listener of the toggle. *)
Definition onToggleClick (st : State * Browser) : State * Browser :=
  if isOpen (fst st) then closeMenu st else openMenu st.

(** Click listener of the document: close on a click outside. *)
Definition onDocumentClick (target : nat) (st : State * Browser) : State * Browser :=
  let '(s, b) := st in
  if isOpen s && negb (contains b (navMenu s) target)
              && negb (contains b (navToggle s) target)
  then closeMenu st else st.

(** Keydown listener of the document: close on Escape. *)
Definition onDocumentKeydown (key : string) (st : State * Browser) : State * Browser :=
  if String.eqb key "Escape" && isOpen (fst st) then closeMenu st else st.

(** Click listener of each link of the menu. *)
Definition onNavLinkClick (st : State * Browser) : State * Browser :=
  if (innerWidth (snd st) <=? 767)%Z then closeMenu st else st.

Definition initMobileNav (b : Browser) : Res (option State) :=
  let navToggle := getElementById b "nav-toggle" in
  let navMenu := getElementById b "nav-menu" in
  if absent navToggle || absent navMenu then Ok None else
  let* t := deref navToggle in
  let* m := deref navMenu in
  let navLinks := querySelectorAllIn b m (STag "a") in
  Ok (Some (mkState t m navLinks false)).

(** The listeners of this component that one node of the propagation path
    carries, in the order they were added: the toggle's, then a link's. *)
Definition clickAt (st : State * Browser) (node : nat) : State * Browser :=
  let st := if bool_decide (node = navToggle (fst st)) then onToggleClick st else st in
  if bool_decide (node ∈ navLinks (fst st)) then onNavLinkClick st else st.

(** A click on [target]: the event bubbles from the target through its
    ancestors and reaches the document last. *)
Definition click (target : nat) (st : State * Browser) : State * Browser :=
  let path := target :: ancestors (snd st) target in
  onDocumentClick target (fold_left clickAt path st).

End MobileNav.

(** *** 4. Smooth navigation (installation only) *)

Module SmoothNavigation.

Record State := mkState {
  navLinks : list nat;       (* anchors with a click listener *)
  navbarHeight : Z;
  observed : list nat;       (* sections handed to the observer *)
}.

Definition initSmoothNavigation (b : Browser) : Res State :=
  let navLinks := querySelectorAll b (SAnd (STag "a") (SAttrPrefix "href" "#")) in
  let navbar := getElementById b "navbar" in
  let navbarHeight :=
    match navbar with Some n => offsetHeightOf b n | None => 80%Z end in
  let sections := querySelectorAll b (SAnd (STag "section") (SHas "id")) in
  if (length sections =? 0)%nat
  then Ok (mkState navLinks navbarHeight [])
  else Ok (mkState navLinks navbarHeight sections).

End SmoothNavigation.

(** *** 5. Business type selector *)

Module BusinessTypeSelector.

Record State := mkState {
  businessTypeCards : list nat;
  businessTypeInput : nat;
}.

(** [x || 'dental'] for the result of [getAttribute]. *)
Definition orDental (x : option string) : string :=
  match x with
  | Some v => if Str.truthy v then v else "dental"
  | None => "dental"
  end.

(** Click listener of a card. *)
Definition onCardClick (s : State) (card : nat) (b : Browser) : Browser :=
  let b := fold_left (fun b c => classList_remove c "active" b) (businessTypeCards s) b in
  let b := classList_add card "active" b in
  let businessType := getAttribute b card "data-type" in
  setValue (businessTypeInput s) (orDental businessType) b.

(** A sequence of clicks on cards, first to last. *)
Definition selectAll (s : State) (cards : list nat) (b : Browser) : Browser :=
  fold_left (fun b card => onCardClick s card b) cards b.

Definition initBusinessTypeSelector (b : Browser) : Res (option State) :=
  let businessTypeCards := querySelectorAll b (SClass "business-type-card") in
  let businessTypeInput := getElementById b "business-type" in
  if absent businessTypeInput || (length businessTypeCards =? 0)%nat then Ok None else
  let* i := deref businessTypeInput in
  Ok (Some (mkState businessTypeCards i)).

End BusinessTypeSelector.

(** *** 6. Contact form *)

Module ContactForm.

Record State := mkState {
  form : nat;
  submitButton : option nat;
  successMessage : option nat;
  inputs : list nat;
}.

Definition errorColor : string := "var(--color-error)".

(** [/^[^\s@]+@[^\s@]+\.[^\s@]+$/] *)
Definition emailRegex : Regex.regex :=
  let part := Regex.RPlus (Regex.RNotIn [Regex.ClsSpace; Regex.ClsChar "@"]) in
  Regex.RCat part
    (Regex.RCat (Regex.RChar "@")
       (Regex.RCat part
          (Regex.RCat (Regex.RChar ".") part))).

(** One turn of [requiredFields.forEach]. *)
Definition checkRequired (st : bool * Browser) (field : nat) : bool * Browser :=
  let '(isValid, b) := st in
  if negb (Str.truthy (Str.trim (valueOf b field)))
  then (false, setBorderColor field errorColor b)
  else (isValid, setBorderColor field EmptyString b).

Definition requiredFields (s : State) (b : Browser) : list nat :=
  querySelectorAllIn b (form s) (SHas "required").

Definition emailField (s : State) (b : Browser) : option nat :=
  querySelectorIn b (form s) (SAnd (STag "input") (SAttr "type" "email")).

Definition validateForm (s : State) (b : Browser) : bool * Browser :=
  let '(isValid, b) := fold_left checkRequired (requiredFields s b) (true, b) in
  match emailField s b with
  | Some e =>
      if Str.truthy (valueOf b e)
      then if negb (Regex.test emailRegex (valueOf b e))
           then (false, setBorderColor e errorColor b)
           else (isValid, b)
      else (isValid, b)
  | None => (isValid, b)
  end.

Definition honeypot (s : State) (b : Browser) : option nat :=
  querySelectorIn b (form s) (SAnd (STag "input") (SAttr "name" "website_url")).

(** The double quote character, for the markup of the button labels. *)
Definition dq : string := String (ascii_of_nat 34) EmptyString.

Definition sendingLabel : string :=
  "<i class=" +:+ dq +:+ "fas fa-spinner fa-spin" +:+ dq +:+ "></i> Sending...".

Definition idleLabel : string :=
  "<i class=" +:+ dq +:+ "fas fa-paper-plane" +:+ dq +:+ "></i> Send My Free Audit".

(** How the awaited [fetch] settles. *)
Inductive FetchOutcome :=
| Response (status : Z)
| NetworkFailure.

(** [response.ok] *)
Definition response_ok (status : Z) : bool :=
  (200 <=? status)%Z && (status <=? 299)%Z.

(** The submit listener up to its [await]; the flag tells whether the
    listener is now suspended on the request. *)
Definition onSubmit_begin (s : State) (b : Browser) : Browser * bool :=
  let '(valid, b) := validateForm s b in
  if negb valid then (b, false) else
  let present :=
    match honeypot s b with
    | Some h => Str.truthy (valueOf b h)
    | None => false
    end in
  if present then (b, false) else
  let b :=
    match submitButton s with
    | Some btn => setInnerHTML btn sendingLabel (setDisabled btn true b)
    | None => b
    end in
  (emit (Fetch (formAction b (form s)) (formData b (form s))) b, true).

(** One turn of [businessTypeCards.forEach] in the success branch. *)
Definition resetCard (b : Browser) (card : nat) : Browser :=
  let b := classList_remove card "active" b in
  if bool_decide (getAttribute b card "data-type" = Some "dental")
  then classList_add card "active" b
  else b.

(** The [if (response.ok)] branch. *)
Definition onSuccess (s : State) (b : Browser) : Browser :=
  let b :=
    match successMessage s with
    | Some m => classList_add m "show" b
    | None => b
    end in
  let b := formReset (form s) b in
  let b :=
    match getElementById b "business-type" with
    | Some i => setValue i "dental" b
    | None => b
    end in
  fold_left resetCard (querySelectorAll b (SClass "business-type-card")) b.

Definition errorNotice : string :=
  "There was an error sending your message. Please try again or contact us directly.".

(** The [catch] block. *)
Definition onFailure (b : Browser) : Browser :=
  let b := emit (ConsoleError "Form submission error:") b in
  emit (Alert errorNotice) b.

(** The [finally] block. *)
Definition onSettled (s : State) (b : Browser) : Browser :=
  match submitButton s with
  | Some btn => setInnerHTML btn idleLabel (setDisabled btn false b)
  | None => b
  end.

(** The submit listener from the point where the request settles. *)
Definition onSubmit_resume (s : State) (r : FetchOutcome) (b : Browser) : Browser :=
  let b :=
    match r with
    | Response status => if response_ok status then onSuccess s b else onFailure b
    | NetworkFailure => onFailure b
    end in
  onSettled s b.

(** A whole submit attempt with nothing happening while the request is in
    flight. *)
Definition onSubmit (s : State) (r : FetchOutcome) (b : Browser) : Browser :=
  let '(b, pending) := onSubmit_begin s b in
  if pending then onSubmit_resume s r b else b.

(** Input listener of each field. *)
Definition onInput (input : nat) (b : Browser) : Browser :=
  setBorderColor input EmptyString b.

Definition initContactForm (b : Browser) : Res (option State) :=
  let form := getElementById b "contact-form" in
  let submitButton :=
    match form with
    | Some f => querySelectorIn b f (SClass "btn-submit")
    | None => None
    end in
  let successMessage := getElementById b "form-success" in
  if absent form then Ok None else
  let* f := deref form in
  let inputs := querySelectorAllIn b f (SOr (STag "input") (STag "textarea")) in
  Ok (Some (mkState f submitButton successMessage inputs)).

Definition is_fetch (e : Effect) : bool :=
  match e with Fetch _ _ => true | _ => false end.

(** Number of network calls recorded in a log. *)
Definition networkCalls (l : list Effect) : nat :=
  length (List.filter is_fetch l).

End ContactForm.

(** *** 7. Calendly modal *)

Module CalendlyModal.

Record State := mkState {
  trigger : nat;
  modal : nat;
  iframe : option nat;
  closeButtons : list nat;
  isModalOpen : bool;
  focusableElements : list nat;
  firstFocusableElement : option nat;
  lastFocusableElement : option nat;
  iframeSrcSet : bool;
}.

Definition set_isModalOpen (v : bool) (s : State) : State :=
  mkState (trigger s) (modal s) (iframe s) (closeButtons s) v
          (focusableElements s) (firstFocusableElement s)
          (lastFocusableElement s) (iframeSrcSet s).

Definition set_iframeSrcSet (v : bool) (s : State) : State :=
  mkState (trigger s) (modal s) (iframe s) (closeButtons s) (isModalOpen s)
          (focusableElements s) (firstFocusableElement s)
          (lastFocusableElement s) v.

Definition set_focusable (l : list nat) (s : State) : State :=
  mkState (trigger s) (modal s) (iframe s) (closeButtons s) (isModalOpen s)
          l (head l) (last l) (iframeSrcSet s).

Definition calendlyUrl : string := "https://calendly.com/vrmvn0/meeting".

(** 'button, [href], input, select, textarea, [tabindex]:not([tabindex="-1"])' *)
Definition focusableSelector : selector :=
  SOr (STag "button")
    (SOr (SHas "href")
       (SOr (STag "input")
          (SOr (STag "select")
             (SOr (STag "textarea")
                (SAnd (SHas "tabindex") (SNot (SAttr "tabindex" "-1"))))))).

Definition updateFocusableElements (st : State * Browser) : State * Browser :=
  let '(s, b) := st in
  (set_focusable (querySelectorAllIn b (modal s) focusableSelector) s, b).

Definition openModal (st : State * Browser) : State * Browser :=
  let '(s, b) := st in
  let s := set_isModalOpen true s in
  let b := classList_add (modal s) "active" b in
  let b := body_add "modal-open" b in
  let b := setAttribute (modal s) "aria-hidden" "false" b in
  let '(s, b) :=
    match iframe s with
    | Some f =>
        if negb (iframeSrcSet s)
        then (set_iframeSrcSet true s,
              emit (LoadFrame f calendlyUrl) (setAttribute f "src" calendlyUrl b))
        else (s, b)
    | None => (s, b)
    end in
  let '(s, b) := updateFocusableElements (s, b) in
  match firstFocusableElement s with
  | Some f => (s, focus f b)
  | None => (s, b)
  end.

Definition closeModal (st : State * Browser) : State * Browser :=
  let '(s, b) := st in
  let s := set_isModalOpen false s in
  let b := classList_remove (modal s) "active" b in
  let b := body_remove "modal-open" b in
  let b := setAttribute (modal s) "aria-hidden" "true" b in
  let b := focus (trigger s) b in
  (s, b).

(** Click listener of the trigger. *)
Definition onTriggerClick (st : State * Browser) : State * Browser :=
  openModal st.

(** Keydown listener of the document.  The third component tells whether
    the listener called [preventDefault]. *)
Definition onKeydown (key : string) (shiftKey : bool) (st : State * Browser)
  : State * Browser * bool :=
  if negb (isModalOpen (fst st)) then (st, false) else
  let st := if String.eqb key "Escape" then closeModal st else st in
  let '(s, b) := st in
  if String.eqb key "Tab" then
    if shiftKey then
      if sameNode (activeElement b) (firstFocusableElement s) then
        match lastFocusableElement s with
        | Some l => (s, focus l b, true)
        | None => (s, b, true)
        end
      else (s, b, false)
    else
      if sameNode (activeElement b) (lastFocusableElement s) then
        match firstFocusableElement s with
        | Some f => (s, focus f b, true)
        | None => (s, b, true)
        end
      else (s, b, false)
  else (s, b, false).

Definition initCalendlyModal (b : Browser) : Res (Browser * option State) :=
  let trigger := getElementById b "calendly-trigger" in
  let modal := getElementById b "calendly-modal" in
  let iframe := getElementById b "calendly-iframe" in
  let closeButtons :=
    match modal with
    | Some m => Some (querySelectorAllIn b m (SHas "data-close-modal"))
    | None => None
    end in
  if absent trigger || absent modal then Ok (b, None) else
  let* t := deref trigger in
  let* m := deref modal in
  let buttons := default [] closeButtons in
  let b := setAttribute m "aria-hidden" "true" b in
  Ok (b, Some (mkState t m iframe buttons false [] None None false)).

(** The operations a user can drive the modal with. *)
Inductive Action :=
| Open                                   (* click on the trigger *)
| Close                                  (* click on a close control *)
| Key (key : string) (shiftKey : bool)   (* keydown *)
| MoveFocus (to : option nat).           (* the user moves focus *)

Definition step (st : State * Browser) (a : Action) : State * Browser :=
  match a with
  | Open => onTriggerClick st
  | Close => closeModal st
  | Key k sh => fst (onKeydown k sh st)
  | MoveFocus to => (fst st, set_activeElement to (snd st))
  end.

Definition run (acts : list Action) (st : State * Browser) : State * Browser :=
  fold_left step acts st.

Definition is_open (a : Action) : bool :=
  match a with Open => true | _ => false end.

Definition hasFrame (s : State) : bool :=
  match iframe s with Some _ => true | None => false end.

Definition is_load (e : Effect) : bool :=
  match e with LoadFrame _ _ => true | _ => false end.

(** Number of times the frame's source was assigned. *)
Definition srcAssignments (l : list Effect) : nat :=
  length (List.filter is_load l).

End CalendlyModal.

(** *** Initialization *)

Record Page := mkPage {
  browser : Browser;
  preloader : option nat;
  stickyNavbar : option nat;
  mobileNav : option MobileNav.State;
  smoothNavigation : SmoothNavigation.State;
  businessTypeSelector : option BusinessTypeSelector.State;
  contactForm : option ContactForm.State;
  calendlyModal : option CalendlyModal.State;
}.

Definition init (b : Browser) : Res Page :=
  let* p := Preloader.initPreloader b in
  let* n := StickyNavbar.initStickyNavbar b in
  let* m := MobileNav.initMobileNav b in
  let* s := SmoothNavigation.initSmoothNavigation b in
  let* t := BusinessTypeSelector.initBusinessTypeSelector b in
  let* f := ContactForm.initContactForm b in
  let* r := CalendlyModal.initCalendlyModal b in
  Ok (mkPage (fst r) p n m s t f (snd r)).

End Script.

(** ** Vocabulary of the statements *)

Module Spec.
Import Dom Script.

(** Two stores agree on a projection of their elements. *)
Definition agree {A} (p : Element -> A) (b b' : Browser) : Prop :=
  p <$> nodes b = p <$> nodes b'.

(** A character that may occur in a part of an address: neither white
    space nor an at sign. *)
Definition plain (c : ascii) : Prop :=
  Str.is_space c = false /\ c <> "@"%char.

(** The shape [local@domain.tld]: no white space, one at sign, and a dot
    after it that has something on both sides. *)
Definition local_at_domain_tld (s : string) : Prop :=
  exists local domain tld : list ascii,
    Str.chars s = local ++ "@"%char :: domain ++ "."%char :: tld /\
    local <> [] /\ domain <> [] /\ tld <> [] /\
    Forall plain local /\ Forall plain domain /\ Forall plain tld.

(** Erasing the validation flag of an element. *)
Definition unflag (e : Element) : Element := set_borderColor EmptyString e.

(** Two browser states that differ at most in the validation flags of
    their elements. *)
Definition same_but_flags (b b' : Browser) : Prop :=
  agree unflag b b' /\ bodyClassList b = bodyClassList b' /\
  activeElement b = activeElement b' /\ innerWidth b = innerWidth b' /\
  scrollY b = scrollY b' /\ log b = log b' /\
  focusableArea b = focusableArea b'.

(** The field holds something else than white space. *)
Definition nonblank (b : Browser) (i : nat) : bool :=
  negb (Str.blank (valueOf b i)).

(** The verdict of the address check of [validateForm]. *)
Definition email_ok (s : ContactForm.State) (b : Browser) : bool :=
  match ContactForm.emailField s b with
  | Some e =>
      if Str.truthy (valueOf b e)
      then Regex.test ContactForm.emailRegex (valueOf b e)
      else true
  | None => true
  end.

(** The address check rejects the address field [i]. *)
Definition email_rejected (s : ContactForm.State) (b : Browser) (i : nat) : bool :=
  match ContactForm.emailField s b with
  | Some e =>
      bool_decide (e = i) && Str.truthy (valueOf b e)
      && negb (Regex.test ContactForm.emailRegex (valueOf b e))
  | None => false
  end.

(** Nothing of a submit shows: the elements and the log are as before. *)
Definition no_feedback (b b' : Browser) : Prop :=
  nodes b' = nodes b /\ log b' = log b.

(** The first three steps of the success branch: the success message, the
    reset and the hidden field. *)
Definition beforeCards (s : ContactForm.State) (b : Browser) : Browser :=
  let b :=
    match ContactForm.successMessage s with
    | Some m => classList_add m "show" b
    | None => b
    end in
  let b := formReset (ContactForm.form s) b in
  match getElementById b "business-type" with
  | Some i => setValue i "dental" b
  | None => b
  end.

(** The menu is closed: the flag is down and the panel is not active. *)
Definition closed (st : MobileNav.State * Browser) : Prop :=
  MobileNav.isOpen (fst st) = false /\
  hasClass (snd st) (MobileNav.navMenu (fst st)) "active" = false.

(** The honeypot field is present and filled. *)
Definition honeypot_filled (s : ContactForm.State) (b : Browser) : bool :=
  match ContactForm.honeypot s b with
  | Some h => Str.truthy (valueOf b h)
  | None => false
  end.

End Spec.

(** ** Sample documents *)

Module Samples.
Import Dom Script.

Definition element (tag : string) (parent : option nat)
    (attrs : list (string * string)) (classes : list string) (v : string) : Element :=
  mkElement tag parent (list_to_map attrs) classes v EmptyString false
            EmptyString EmptyString 0.

(** A browser that applies no style sheet: whether an element can take
    focus is read off its markup.  Buttons, form controls, frames, anchors
    with [href] and elements with [tabindex] can, unless disabled or a
    hidden input. *)
Definition takesFocus (nodes : list Element) (bodyClasses : list string)
    (width : Z) (i : nat) : bool :=
  match nodes !! i with
  | Some e =>
      negb (disabled e)
      && negb (String.eqb (tagName e) "input"
               && bool_decide (attributes e !! "type" = Some "hidden"))
      && (bool_decide (tagName e ∈ ["button"; "input"; "select"; "textarea"; "iframe"])
          || (String.eqb (tagName e) "a" && bool_decide (is_Some (attributes e !! "href")))
          || bool_decide (is_Some (attributes e !! "tabindex")))
  | None => false
  end.

Definition mkBrowser (nodes : list Element) (bodyClasses : list string)
    (active : option nat) (width scroll : Z) (log : list Effect) : Browser :=
  mkBrowserWith nodes bodyClasses active width scroll log takesFocus.

(** A page with every mount point.  The three arguments are the values of
    the name field, of the address field and of the honeypot field. *)
Definition page (name email website : string) : Browser :=
  mkBrowser
    [ element "form" None [("id", "contact-form"); ("action", "/send")] [] EmptyString;
      element "input" (Some 0) [("name", "name"); ("required", EmptyString)] [] name;
      element "input" (Some 0) [("name", "email"); ("type", "email")] [] email;
      element "input" (Some 0) [("name", "website_url")] [] website;
      element "button" (Some 0) [("type", "submit")] ["btn-submit"] EmptyString;
      element "div" None [("id", "form-success")] [] EmptyString;
      element "input" (Some 0) [("id", "business-type"); ("type", "hidden"); ("name", "business_type")] [] "medical";
      element "div" None [("data-type", "dental")] ["business-type-card"] EmptyString;
      element "div" None [("data-type", "medical")] ["business-type-card"; "active"] EmptyString;
      element "button" None [("id", "nav-toggle")] [] EmptyString;
      element "ul" None [("id", "nav-menu")] [] EmptyString;
      element "a" (Some 10) [("href", "#contact")] ["nav-link"] EmptyString;
      element "a" None [("id", "calendly-trigger"); ("href", "#")] [] EmptyString;
      element "div" None [("id", "calendly-modal")] [] EmptyString;
      element "button" (Some 13) [("data-close-modal", EmptyString)] [] EmptyString;
      element "iframe" (Some 13) [("id", "calendly-iframe")] [] EmptyString;
      element "a" (Some 13) [("href", "https://calendly.com")] [] EmptyString ]
    [] None 1024 0 [].

Definition contactState : ContactForm.State :=
  ContactForm.mkState 0 (Some 4) (Some 5) [1; 2; 3; 6].

Definition navState (isOpen : bool) : MobileNav.State :=
  MobileNav.mkState 9 10 [11] isOpen.

Definition selectorState : BusinessTypeSelector.State :=
  BusinessTypeSelector.mkState [7; 8] 6.

Definition modalState : CalendlyModal.State :=
  CalendlyModal.mkState 12 13 (Some 15) [14] false [] None None false.



(** A third page: a form and two business-type cards, neither of them
    for "dental". *)
Definition noDental : Browser :=
  mkBrowser
    [ element "form" None [("id", "contact-form"); ("action", "/send")] [] EmptyString;
      element "input" (Some 0) [("name", "name"); ("required", EmptyString)] [] "Bob";
      element "button" (Some 0) [("type", "submit")] ["btn-submit"] EmptyString;
      element "div" None [("id", "form-success")] [] EmptyString;
      element "input" (Some 0) [("id", "business-type"); ("type", "hidden"); ("name", "business_type")] [] "medical";
      element "div" None [] ["business-type-card"] EmptyString;
      element "div" None [("data-type", "medical")] ["business-type-card"; "active"] EmptyString ]
    [] None 1024 0 [].

Definition noDentalForm : ContactForm.State :=
  ContactForm.mkState 0 (Some 2) (Some 3) [1; 4].

(** The sample page as initialization leaves it. *)
Definition initialized : Page :=
  mkPage (setAttribute 13 "aria-hidden" "true" (page "Bob" "a@b.c" EmptyString))
         None None (Some (navState false))
         (SmoothNavigation.mkState [11; 12] 80 [])
         (Some selectorState) (Some contactState) (Some modalState).

(** The same page at another viewport width. *)
Definition resized (w : Z) (b : Browser) : Browser :=
  mkBrowser (nodes b) (bodyClassList b) (activeElement b) w (scrollY b) (log b).

End Samples.

(** ** Further parts of the script *)

(** *** The rate limiters

    [setTimeout] and [clearTimeout] are modelled by the set of timers that
    are pending; the passing of time is the event that one of them fires.
    [A] stands for the arguments of the wrapped function, and the list of
    the arguments it was applied to stands for its effect. *)

Module Throttle.
Section WithArgs.
Context {A : Type}.

Record State := mkState {
  inThrottle : bool;     (* [undefined] at first, which is falsy *)
  timers : nat;          (* pending timers, each clearing the flag *)
  applied : list A;      (* what [func] was applied to, oldest first *)
}.

Definition initial : State := mkState false 0 [].

(** The function [throttle] returns. *)
Definition call (a : A) (s : State) : State :=
  if negb (inThrottle s)
  then mkState true (S (timers s)) (applied s ++ [a])
  else s.

(** A pending timer fires: [inThrottle = false]. *)
Definition elapse (s : State) : State :=
  match timers s with
  | O => s
  | S n => mkState false n (applied s)
  end.

Inductive Event :=
| Call (a : A)
| Elapse.

Definition step (s : State) (e : Event) : State :=
  match e with
  | Call a => call a s
  | Elapse => elapse s
  end.

Definition run (evs : list Event) (s : State) : State := fold_left step evs s.

(** A timer is pending exactly while the flag is up. *)
Definition armed (s : State) : Prop :=
  timers s = if inThrottle s then 1 else 0.

Definition is_elapse (e : Event) : bool :=
  match e with Elapse => true | Call _ => false end.

(** The arguments of the calls of a sequence of events, in order. *)
Definition callArgs (evs : list Event) : list A :=
  omap (fun e => match e with Call a => Some a | Elapse => None end) evs.

End WithArgs.
Arguments State A : clear implicits.
Arguments Event A : clear implicits.
End Throttle.

Module Debounce.
Section WithArgs.
Context {A : Type}.

Record State := mkState {
  timeout : option nat;         (* the variable [timeout]; None is undefined *)
  pending : list (nat * A);     (* timers set, not fired and not cleared *)
  nextId : nat;                 (* the identifier [setTimeout] returns next *)
  applied : list A;             (* what [func] was applied to, oldest first *)
}.

Definition initial : State := mkState None [] 1 [].

(** [clearTimeout(id)]; clearing [undefined] or a timer that is not pending
    does nothing. *)
Definition clearTimeout (id : option nat) (p : list (nat * A)) : list (nat * A) :=
  match id with
  | Some i => List.filter (fun t => negb (fst t =? i)%nat) p
  | None => p
  end.

(** The function [debounce] returns. *)
Definition executedFunction (a : A) (s : State) : State :=
  let p := clearTimeout (timeout s) (pending s) in
  mkState (Some (nextId s)) (p ++ [(nextId s, a)]) (S (nextId s)) (applied s).

Definition timerArgs (id : nat) (p : list (nat * A)) : option A :=
  snd <$> List.find (fun t => (fst t =? id)%nat) p.

(** The timer [id] fires and runs [later]; a timer that is not pending
    cannot fire. *)
Definition later (id : nat) (s : State) : State :=
  match timerArgs id (pending s) with
  | Some a =>
      let p := clearTimeout (Some id) (pending s) in
      let p := clearTimeout (timeout s) p in
      mkState (timeout s) p (nextId s) (applied s ++ [a])
  | None => s
  end.

Inductive Event :=
| Call (a : A)
| Fire (id : nat).

Definition step (s : State) (e : Event) : State :=
  match e with
  | Call a => executedFunction a s
  | Fire id => later id s
  end.

Definition run (evs : list Event) (s : State) : State := fold_left step evs s.

Definition callArgs (evs : list Event) : list A :=
  omap (fun e => match e with Call a => Some a | Fire _ => None end) evs.

(** At most one timer is pending, and [timeout] names it. *)
Definition single (s : State) : Prop :=
  match pending s with
  | [] => True
  | [(id, _)] => timeout s = Some id /\ id < nextId s
  | _ => False
  end.

End WithArgs.
Arguments State A : clear implicits.
Arguments Event A : clear implicits.
End Debounce.

(** *** The mobile menu's writes *)

Module NavSync.
Import Dom Script.

(** What the menu writes mirrors [isOpen]: the toggle's attribute, the
    panel's class and the scroll lock on the body. *)
Definition settled (st : MobileNav.State * Browser) : Prop :=
  getAttribute (snd st) (MobileNav.navToggle (fst st)) "aria-expanded"
  = Some (if MobileNav.isOpen (fst st) then "true" else "false") /\
  hasClass (snd st) (MobileNav.navMenu (fst st)) "active" = MobileNav.isOpen (fst st) /\
  bool_decide ("modal-open" ∈ bodyClassList (snd st)) = MobileNav.isOpen (fst st).

(** The toggle and the panel are elements of the store. *)
Definition mounted (st : MobileNav.State * Browser) : Prop :=
  MobileNav.navToggle (fst st) < length (nodes (snd st)) /\
  MobileNav.navMenu (fst st) < length (nodes (snd st)).

End NavSync.

(** *** The modal's attribute *)

Module ModalEvents.
Import Dom Script.

(** The modal's aria-hidden attribute mirrors [isModalOpen]. *)
Definition synced (st : CalendlyModal.State * Browser) : Prop :=
  getAttribute (snd st) (CalendlyModal.modal (fst st)) "aria-hidden"
  = Some (if CalendlyModal.isModalOpen (fst st) then "false" else "true").

(** The bound of the trap that a Tab press is checked against. *)
Definition bound (s : CalendlyModal.State) (shiftKey : bool) : option nat :=
  if shiftKey
  then CalendlyModal.firstFocusableElement s
  else CalendlyModal.lastFocusableElement s.

End ModalEvents.

(** *** Classes that stay *)

Module Classes.
Import Dom.

(** Every element that carries the class [c] in [b] carries it in [b']. *)
Definition keeps (c : string) (b b' : Browser) : Prop :=
  forall j, hasClass b j c = true -> hasClass b' j c = true.

(** Membership of the class [c], as a projection of an element. *)
Definition carries (c : string) (e : Element) : bool :=
  bool_decide (c ∈ classList e).

End Classes.

(** *** The section highlighter *)

Module ScrollSpy.
Import Dom.

(** An entry handed to the observer's callback. *)
Record Entry := mkEntry {
  target : nat;
  isIntersecting : bool;
}.

(** The characters a double-quoted string of a selector cannot hold as
    they are: the quote, the backslash, the line breaks and the null
    character. *)
Definition special (c : ascii) : bool :=
  let n := nat_of_ascii c in
  (n =? 34)%nat || (n =? 92)%nat || (n =? 10)%nat || (n =? 12)%nat || (n =? 13)%nat
  || (n =? 0)%nat.

Definition plain (v : string) : bool :=
  forallb (fun c => negb (special c)) (Str.chars v).

(** The selector text [.nav-link[href="#${id}"]], where a [null] id prints
    as "null".  Outside the plain identifiers the text is not this
    selector, and the model gives no answer. *)
Definition navLinkSelector (id : option string) : option selector :=
  let v := default "null" id in
  if plain v
  then Some (SAnd (SClass "nav-link") (SAttr "href" ("#" +:+ v)))
  else None.

Definition clearActive (b : Browser) : Browser :=
  fold_left (fun b link => classList_remove link "active" b)
            (querySelectorAll b (SClass "nav-link")) b.

(** One turn of [entries.forEach]. *)
Definition observeEntry (b : Browser) (e : Entry) : option Browser :=
  sel ← navLinkSelector (getAttribute b (target e) "id");
  let navLink := querySelector b sel in
  if isIntersecting e then
    let b := clearActive b in
    match navLink with
    | Some l => Some (classList_add l "active" b)
    | None => Some b
    end
  else Some b.

(** The callback of the observer. *)
Fixpoint observerCallback (entries : list Entry) (b : Browser) : option Browser :=
  match entries with
  | [] => Some b
  | e :: rest => b' ← observeEntry b e; observerCallback rest b'
  end.

(** The link that the last intersecting entry of a batch selects. *)
Definition lastIntersecting (entries : list Entry) : option Entry :=
  last (List.filter isIntersecting entries).

End ScrollSpy.

(** *** The page driven by events

    An event is one run of one listener of the script, the rest of the
    submit listener once its request settles, one turn of the observer's
    callback, or something the user does.  The browser turns a click into
    the runs of the listeners on its path, from the target up to the
    document, and a key press into the runs of the two keydown listeners
    of the document: each is a sequence of events here, and so is every
    run of the page.  The sequences are not restricted to those a browser
    can produce, so what holds over all of them holds over every run of
    the page.  A listener that was not installed has no run, and its
    event changes nothing.  Two things are left out: the click listener
    of the in-page anchors, which only asks the window to scroll (the
    scrolling shows as later [UserScroll] and [Scrolled] events), and the
    timer that takes the preloader out of the document, which writes no
    attribute and no class. *)

Module PageEvents.
Import Dom Spec Script.

Definition set_browser (b : Browser) (p : Page) : Page :=
  mkPage b (preloader p) (stickyNavbar p) (mobileNav p) (smoothNavigation p)
         (businessTypeSelector p) (contactForm p) (calendlyModal p).

Definition set_mobileNav (s : option MobileNav.State) (p : Page) : Page :=
  mkPage (browser p) (preloader p) (stickyNavbar p) s (smoothNavigation p)
         (businessTypeSelector p) (contactForm p) (calendlyModal p).

Definition set_calendlyModal (s : option CalendlyModal.State) (p : Page) : Page :=
  mkPage (browser p) (preloader p) (stickyNavbar p) (mobileNav p)
         (smoothNavigation p) (businessTypeSelector p) (contactForm p) s.

Inductive Event :=
| Load                                        (* the window's load listener *)
| Scrolled                                    (* the body of the scroll listener *)
| ToggleClick                                 (* click listener of the toggle *)
| NavLinkClick                                (* click listener of a menu link *)
| DocumentClick (target : nat)                (* the menu's click listener of the document *)
| MenuKeydown (key : string)                  (* the menu's keydown listener *)
| CardClick (card : nat)                      (* click listener of a card *)
| SubmitBegin                                 (* the submit listener up to its await *)
| SubmitSettle (r : ContactForm.FetchOutcome) (* the submit listener from there *)
| Input (input : nat)                         (* input listener of a field *)
| TriggerClick                                (* click listener of the modal's trigger *)
| CloseClick                                  (* click listener of a close control *)
| ModalKeydown (key : string) (shiftKey : bool) (* the modal's keydown listener *)
| Observed (e : ScrollSpy.Entry)              (* one turn of the observer's callback *)
| UserFocus (to : option nat)                 (* the user moves focus *)
| UserResize (width : Z)                      (* the user resizes the window *)
| UserScroll (y : Z)                          (* the window scrolls *)
| UserType (input : nat) (v : string).        (* the user edits a field *)

Definition onBrowser (f : Browser -> Browser) (p : Page) : Page :=
  set_browser (f (browser p)) p.

Definition withNav (f : MobileNav.State * Browser -> MobileNav.State * Browser)
    (p : Page) : Page :=
  match mobileNav p with
  | Some s =>
      set_mobileNav (Some (fst (f (s, browser p))))
                    (set_browser (snd (f (s, browser p))) p)
  | None => p
  end.

Definition withModal
    (f : CalendlyModal.State * Browser -> CalendlyModal.State * Browser)
    (p : Page) : Page :=
  match calendlyModal p with
  | Some s =>
      set_calendlyModal (Some (fst (f (s, browser p))))
                        (set_browser (snd (f (s, browser p))) p)
  | None => p
  end.

Definition step (p : Page) (e : Event) : Page :=
  match e with
  | Load =>
      match preloader p with
      | Some x => onBrowser (Preloader.onLoad x) p
      | None => p
      end
  | Scrolled =>
      match stickyNavbar p with
      | Some n => onBrowser (StickyNavbar.handleScroll n) p
      | None => p
      end
  | ToggleClick => withNav MobileNav.onToggleClick p
  | NavLinkClick =>
      match mobileNav p with
      | Some s =>
          match MobileNav.navLinks s with
          | [] => p
          | _ => withNav MobileNav.onNavLinkClick p
          end
      | None => p
      end
  | DocumentClick target => withNav (MobileNav.onDocumentClick target) p
  | MenuKeydown key => withNav (MobileNav.onDocumentKeydown key) p
  | CardClick card =>
      match businessTypeSelector p with
      | Some t =>
          if bool_decide (card ∈ BusinessTypeSelector.businessTypeCards t)
          then onBrowser (BusinessTypeSelector.onCardClick t card) p
          else p
      | None => p
      end
  | SubmitBegin =>
      match contactForm p with
      | Some f => onBrowser (fun b => fst (ContactForm.onSubmit_begin f b)) p
      | None => p
      end
  | SubmitSettle r =>
      match contactForm p with
      | Some f => onBrowser (ContactForm.onSubmit_resume f r) p
      | None => p
      end
  | Input input =>
      match contactForm p with
      | Some f =>
          if bool_decide (input ∈ ContactForm.inputs f)
          then onBrowser (ContactForm.onInput input) p
          else p
      | None => p
      end
  | TriggerClick => withModal CalendlyModal.onTriggerClick p
  | CloseClick =>
      match calendlyModal p with
      | Some s =>
          match CalendlyModal.closeButtons s with
          | [] => p
          | _ => withModal CalendlyModal.closeModal p
          end
      | None => p
      end
  | ModalKeydown key shiftKey =>
      withModal (fun st => fst (CalendlyModal.onKeydown key shiftKey st)) p
  | Observed e =>
      if bool_decide (ScrollSpy.target e ∈ SmoothNavigation.observed (smoothNavigation p))
      then match ScrollSpy.observeEntry (browser p) e with
           | Some b => set_browser b p
           | None => p
           end
      else p
  | UserFocus to => onBrowser (set_activeElement to) p
  | UserResize width => onBrowser (set_innerWidth width) p
  | UserScroll y => onBrowser (set_scrollY y) p
  | UserType input v => onBrowser (setValue input v) p
  end.

Definition run (evs : list Event) (p : Page) : Page := fold_left step evs p.

(** The attribute and the class that the menu alone writes mirror
    [isOpen]. *)
Definition synced (p : Page) : Prop :=
  match mobileNav p with
  | Some s =>
      getAttribute (browser p) (MobileNav.navToggle s) "aria-expanded"
      = Some (if MobileNav.isOpen s then "true" else "false") /\
      hasClass (browser p) (MobileNav.navMenu s) "active" = MobileNav.isOpen s
  | None => True
  end.

(** The panel of the menu is an element that no other part of the script
    takes for one of its own: it is in the store with the toggle, it is
    neither a business-type card nor a navigation link, and it is not the
    modal. *)
Definition apart (p : Page) : Prop :=
  match mobileNav p with
  | Some s =>
      MobileNav.navToggle s < length (nodes (browser p)) /\
      MobileNav.navMenu s < length (nodes (browser p)) /\
      hasClass (browser p) (MobileNav.navMenu s) "business-type-card" = false /\
      hasClass (browser p) (MobileNav.navMenu s) "nav-link" = false /\
      (forall t, businessTypeSelector p = Some t ->
         MobileNav.navMenu s ∉ BusinessTypeSelector.businessTypeCards t) /\
      (forall m, calendlyModal p = Some m ->
         CalendlyModal.modal m <> MobileNav.navMenu s)
  | None => True
  end.

(** What the listeners of the other parts of the script leave alone, seen
    from the panel [m] of the menu. *)
Definition quiet (m : nat) (b b' : Browser) : Prop :=
  agree (fun e => attributes e !! "aria-expanded") b b' /\
  agree (Classes.carries "nav-link") b b' /\
  agree (Classes.carries "business-type-card") b b' /\
  hasClass b' m "active" = hasClass b m "active".

End PageEvents.
(** ** Facts about strings *)

Section StrFacts.
Import Str.

Lemma trimStart_empty_blank s : trimStart s = EmptyString <-> blank s = true.
Proof.
  unfold blank, chars. induction s as [|c s IH]; simpl.
  - tauto.
  - destruct (is_space c); simpl; [exact IH | split; discriminate].
Qed.

Lemma rev_chars_empty acc s : rev_chars acc s = EmptyString -> acc = EmptyString /\ s = EmptyString.
Proof.
  revert acc. induction s as [|c s IH]; intros acc H; simpl in H.
  - auto.
  - apply IH in H as [H _]. discriminate.
Qed.

Lemma reverse_empty s : reverse s = EmptyString <-> s = EmptyString.
Proof.
  split.
  - intros H. apply rev_chars_empty in H. tauto.
  - intros ->. reflexivity.
Qed.

(** [!s.trim()] holds exactly for the strings made of white space only. *)
Lemma trim_empty_blank s : trim s = EmptyString <-> blank s = true.
Proof.
  unfold trim, trimEnd. rewrite reverse_empty. split.
  - intros H. apply trimStart_empty_blank.
    destruct (trimStart s) as [|c t] eqn:E; [reflexivity|].
    exfalso. assert (Hne : reverse (String c t) <> EmptyString).
    { intros Hr. apply rev_chars_empty in Hr as [_ Hr]. inversion Hr. }
    destruct (reverse (String c t)) as [|d u] eqn:Er; [congruence|].
    (* the last character of a start-trimmed, non-empty string would have
       to be white space all the way down *)
    apply trimStart_empty_blank in H.
    assert (Hall : forall a x, blank (rev_chars a x) = true ->
                               blank x = true /\ blank a = true).
    { clear. intros a x. revert a. unfold blank, chars.
      induction x as [|c x IH]; intros a Hx; simpl in *.
      - auto.
      - apply IH in Hx as [Hx Ha]. simpl in Ha.
        apply andb_true_iff in Ha as [Hc Ha]. rewrite Hc, Hx. auto. }
    rewrite <- Er in H. apply Hall in H as [H _].
    assert (Hs : forall x, trimStart x = String c t -> is_space c = false).
    { clear. induction x as [|a x IH]; simpl; [discriminate|].
      destruct (is_space a) eqn:Ea; [exact IH|].
      intros H. inversion H; subst. exact Ea. }
    apply Hs in E. unfold blank, chars in H. simpl in H. rewrite E in H.
    discriminate.
  - intros H. apply trimStart_empty_blank in H. rewrite H. reflexivity.
Qed.

Lemma truthy_false s : truthy s = false <-> s = EmptyString.
Proof. destruct s; simpl; split; congruence. Qed.

Lemma truthy_true s : truthy s = true <-> s <> EmptyString.
Proof. destruct s; simpl; split; congruence. Qed.

End StrFacts.

(** ** Correctness of matching by derivatives *)

Section RegexFacts.
Import Regex.

Lemma lang_cat_inv r1 r2 w :
  lang (RCat r1 r2) w -> exists w1 w2, w = w1 ++ w2 /\ lang r1 w1 /\ lang r2 w2.
Proof. inversion 1; subst; eauto. Qed.

Lemma lang_alt_inv r1 r2 w : lang (RAlt r1 r2) w -> lang r1 w \/ lang r2 w.
Proof. inversion 1; subst; auto. Qed.

Lemma nullable_lang r : nullable r = true <-> lang r [].
Proof.
  induction r; simpl.
  - split; [discriminate | inversion 1].
  - split; [constructor | reflexivity].
  - split; [discriminate | inversion 1].
  - split; [discriminate | inversion 1].
  - rewrite orb_true_iff, IHr1, IHr2. split.
    + intros [H|H]; [apply lang_alt_l | apply lang_alt_r]; exact H.
    + apply lang_alt_inv.
  - rewrite andb_true_iff, IHr1, IHr2. split.
    + intros [H1 H2]. apply (lang_cat _ _ [] []); assumption.
    + intros H. apply lang_cat_inv in H as (w1 & w2 & Hw & H1 & H2).
      symmetry in Hw. apply app_eq_nil in Hw as [-> ->]. auto.
  - split; [constructor | reflexivity].
Qed.

Lemma lang_star_cons r c w :
  lang (RStar r) (c :: w) ->
  exists w1 w2, w = w1 ++ w2 /\ lang r (c :: w1) /\ lang (RStar r) w2.
Proof.
  intros H. remember (RStar r) as s eqn:Es. remember (c :: w) as v eqn:Ev.
  revert c w Ev. induction H as [| | | | | | |r' w1 w2 H1 _ H2 IH2];
    intros c' w' Ev; try discriminate.
  injection Es as ->. destruct w1 as [|a w1]; simpl in Ev.
  - apply IH2; auto.
  - injection Ev as -> <-. exists w1, w2. auto.
Qed.

Lemma deriv_lang c r w : lang (deriv c r) w <-> lang r (c :: w).
Proof.
  revert w. induction r; intros w; simpl.
  - split; inversion 1.
  - split; inversion 1.
  - destruct (Ascii.eqb c c0) eqn:E.
    + apply Ascii.eqb_eq in E as ->. split.
      * inversion 1. constructor.
      * inversion 1. constructor.
    + split; [inversion 1|]. inversion 1; subst.
      rewrite Ascii.eqb_refl in E. discriminate.
  - destruct (not_in items c) eqn:E.
    + split; inversion 1; subst; constructor; assumption.
    + split; [inversion 1|]. inversion 1; subst. congruence.
  - split; intros H; apply lang_alt_inv in H as [H|H];
      [apply lang_alt_l; apply IHr1 | apply lang_alt_r; apply IHr2
      |apply lang_alt_l; apply IHr1 | apply lang_alt_r; apply IHr2]; assumption.
  - assert (Hcat : forall v, lang (RCat (deriv c r1) r2) v -> lang (RCat r1 r2) (c :: v)).
    { intros v Hv. apply lang_cat_inv in Hv as (w1 & w2 & -> & H1 & H2).
      apply IHr1 in H1. apply (lang_cat _ _ (c :: w1) w2); assumption. }
    assert (Hinv : lang (RCat r1 r2) (c :: w) ->
                   lang (RCat (deriv c r1) r2) w \/ (lang r1 [] /\ lang r2 (c :: w))).
    { intros Hv. apply lang_cat_inv in Hv as (w1 & w2 & Hw & H1 & H2).
      destruct w1 as [|a w1]; simpl in Hw.
      - subst. right; auto.
      - injection Hw as <- ->. left. constructor; [apply IHr1|]; assumption. }
    destruct (nullable r1) eqn:En.
    + split.
      * intros H. apply lang_alt_inv in H as [H|H]; [apply Hcat; assumption|].
        apply (lang_cat _ _ [] (c :: w)); [apply nullable_lang; assumption|].
        apply IHr2; assumption.
      * intros Hv. apply Hinv in Hv as [Hv|[_ Hv]];
          [apply lang_alt_l | apply lang_alt_r; apply IHr2]; assumption.
    + split; [apply Hcat|]. intros Hv. apply Hinv in Hv as [Hv|[Hv _]]; [assumption|].
      apply nullable_lang in Hv. congruence.
  - split.
    + intros H. apply lang_cat_inv in H as (w1 & w2 & -> & H1 & H2).
      apply IHr in H1. apply (lang_star_app _ (c :: w1) w2); assumption.
    + intros Hv. apply lang_star_cons in Hv as (w1 & w2 & -> & H1 & H2).
      constructor; [apply IHr|]; assumption.
Qed.

Lemma matches_lang r w : matches r w = true <-> lang r w.
Proof.
  revert r. induction w as [|c w IH]; intros r; simpl.
  - apply nullable_lang.
  - rewrite IH. apply deriv_lang.
Qed.

End RegexFacts.

(** ** Facts about the document *)

Section DomFacts.
Import Dom.

Import Spec.

Lemma agree_refl {A} (p : Element -> A) b : agree p b b.
Proof. reflexivity. Qed.

Lemma agree_sym {A} (p : Element -> A) b b' : agree p b b' -> agree p b' b.
Proof. unfold agree. congruence. Qed.

Lemma agree_trans {A} (p : Element -> A) b1 b2 b3 :
  agree p b1 b2 -> agree p b2 b3 -> agree p b1 b3.
Proof. unfold agree. congruence. Qed.

Lemma agree_nodes {A} (p : Element -> A) b b' : nodes b = nodes b' -> agree p b b'.
Proof. unfold agree. congruence. Qed.

Lemma agree_lookup {A} (p : Element -> A) b b' i :
  agree p b b' -> p <$> nodes b !! i = p <$> nodes b' !! i.
Proof. unfold agree. intros H. rewrite <- !list_lookup_fmap, H. reflexivity. Qed.

Lemma agree_length {A} (p : Element -> A) b b' :
  agree p b b' -> length (nodes b) = length (nodes b').
Proof.
  unfold agree. intros H. apply (f_equal length) in H.
  rewrite !length_fmap in H. exact H.
Qed.

Lemma agree_from_option {A} (p : Element -> A) d b b' i :
  agree p b b' -> from_option p d (nodes b !! i) = from_option p d (nodes b' !! i).
Proof.
  intros H. apply (agree_lookup _ _ _ i) in H.
  destruct (nodes b !! i), (nodes b' !! i); simpl in *; congruence.
Qed.

Lemma update_lookup i f b j :
  nodes (update i f b) !! j =
  if decide (i = j) then f <$> nodes b !! j else nodes b !! j.
Proof.
  unfold update. simpl. rewrite list_lookup_alter.
  destruct (decide (i = j)); subst; reflexivity.
Qed.

Lemma update_length i f b : length (nodes (update i f b)) = length (nodes b).
Proof. unfold update. simpl. apply length_alter. Qed.

Lemma agree_update {A} (p : Element -> A) i f b :
  (forall e, p (f e) = p e) -> agree p b (update i f b).
Proof.
  intros Hp. unfold agree. apply list_eq. intros j.
  rewrite !list_lookup_fmap, update_lookup.
  destruct (decide (i = j)); [|reflexivity].
  destruct (nodes b !! j); simpl; [|reflexivity]. rewrite Hp. reflexivity.
Qed.

Lemma agree_fold {A B} (p : Element -> A) (g : Browser -> B -> Browser) l b :
  (forall b x, agree p b (g b x)) -> agree p b (fold_left g l b).
Proof.
  intros Hg. revert b. induction l as [|x l IH]; intros b; simpl.
  - apply agree_refl.
  - eapply agree_trans; [apply Hg | apply IH].
Qed.

(** *** The tree depends on the parent pointers only *)

Lemma parentOf_agree b b' i :
  agree parentNode b b' -> parentOf b i = parentOf b' i.
Proof.
  intros H. apply (agree_lookup _ _ _ i) in H. unfold parentOf.
  destruct (nodes b !! i), (nodes b' !! i); simpl in *; congruence.
Qed.

Lemma ancestors_agree b b' i :
  agree parentNode b b' -> ancestors b i = ancestors b' i.
Proof.
  intros H. unfold ancestors. rewrite <- (agree_length _ _ _ H).
  generalize (length (nodes b)). intros n. revert i.
  induction n as [|n IH]; intros i; simpl; [reflexivity|].
  rewrite <- (parentOf_agree _ _ _ H).
  destruct (parentOf b i); [|reflexivity]. rewrite IH. reflexivity.
Qed.

Lemma isDescendant_agree b b' r i :
  agree parentNode b b' -> isDescendant b r i = isDescendant b' r i.
Proof. intros H. unfold isDescendant. rewrite (ancestors_agree _ _ _ H). reflexivity. Qed.

Lemma contains_agree b b' r i :
  agree parentNode b b' -> contains b r i = contains b' r i.
Proof. intros H. unfold contains. rewrite (isDescendant_agree _ _ _ _ H). reflexivity. Qed.

Lemma indices_agree {A} (p : Element -> A) b b' :
  agree p b b' -> indices b = indices b'.
Proof. intros H. unfold indices. rewrite (agree_length _ _ _ H). reflexivity. Qed.

Lemma controls_agree b b' f :
  agree parentNode b b' -> controls b f = controls b' f.
Proof.
  intros H. unfold controls. rewrite (indices_agree _ _ _ H).
  apply List.filter_ext. intros i. apply isDescendant_agree, H.
Qed.

(** *** Selectors read the tag, the classes and the attributes only *)

Lemma sel_matches_ext s e e' :
  tagName e = tagName e' -> classList e = classList e' ->
  attributes e = attributes e' -> sel_matches s e = sel_matches s e'.
Proof.
  intros Ht Hc Ha. induction s; simpl; rewrite ?Ht, ?Hc, ?Ha; congruence.
Qed.

Lemma matchesAt_agree b b' s i :
  agree (sel_matches s) b b' -> matchesAt b s i = matchesAt b' s i.
Proof. intros H. unfold matchesAt. apply agree_from_option, H. Qed.

Lemma querySelectorAll_agree b b' s :
  agree (sel_matches s) b b' -> querySelectorAll b s = querySelectorAll b' s.
Proof.
  intros H. unfold querySelectorAll. rewrite (indices_agree _ _ _ H).
  apply List.filter_ext. intros i. apply matchesAt_agree, H.
Qed.

Lemma querySelectorAllIn_agree b b' r s :
  agree parentNode b b' -> agree (sel_matches s) b b' ->
  querySelectorAllIn b r s = querySelectorAllIn b' r s.
Proof.
  intros Hp H. unfold querySelectorAllIn. rewrite (indices_agree _ _ _ H).
  apply List.filter_ext. intros i.
  rewrite (isDescendant_agree _ _ _ _ Hp), (matchesAt_agree _ _ _ _ H). reflexivity.
Qed.

Lemma querySelectorIn_agree b b' r s :
  agree parentNode b b' -> agree (sel_matches s) b b' ->
  querySelectorIn b r s = querySelectorIn b' r s.
Proof.
  intros Hp H. unfold querySelectorIn.
  rewrite (querySelectorAllIn_agree _ _ _ _ Hp H). reflexivity.
Qed.

Lemma getElementById_agree b b' id :
  agree attributes b b' -> getElementById b id = getElementById b' id.
Proof.
  intros H. unfold getElementById, querySelector.
  rewrite (querySelectorAll_agree b b'); [reflexivity|].
  unfold agree in *. simpl.
  change (fun e => bool_decide (attributes e !! "id" = Some id))
    with ((fun a : gmap string string => bool_decide (a !! "id" = Some id)) ∘ attributes).
  rewrite !list_fmap_compose, H. reflexivity.
Qed.

Lemma getAttribute_agree b b' i a :
  agree attributes b b' -> getAttribute b i a = getAttribute b' i a.
Proof.
  intros H. apply (agree_lookup _ _ _ i) in H. unfold getAttribute.
  destruct (nodes b !! i), (nodes b' !! i); simpl in *; congruence.
Qed.

Lemma valueOf_agree b b' i : agree value b b' -> valueOf b i = valueOf b' i.
Proof. apply agree_from_option. Qed.

Lemma classesOf_agree b b' i : agree classList b b' -> classesOf b i = classesOf b' i.
Proof. apply agree_from_option. Qed.

Lemma borderColorOf_agree b b' i :
  agree borderColor b b' -> borderColorOf b i = borderColorOf b' i.
Proof. apply agree_from_option. Qed.

(** *** Queries return indices of the store, in order and without repeats *)

Lemma indices_elem b i : i ∈ indices b <-> i < length (nodes b).
Proof. unfold indices. rewrite elem_of_seq. lia. Qed.

Lemma querySelectorAll_elem b s i :
  i ∈ querySelectorAll b s <-> i < length (nodes b) /\ matchesAt b s i = true.
Proof.
  unfold querySelectorAll. rewrite list_elem_of_In, filter_In, <- list_elem_of_In.
  rewrite indices_elem. reflexivity.
Qed.

Lemma querySelectorAllIn_elem b r s i :
  i ∈ querySelectorAllIn b r s <->
  i < length (nodes b) /\ isDescendant b r i = true /\ matchesAt b s i = true.
Proof.
  unfold querySelectorAllIn. rewrite list_elem_of_In, filter_In, <- list_elem_of_In.
  rewrite indices_elem, andb_true_iff. reflexivity.
Qed.

Lemma head_elem {A} (l : list A) x : head l = Some x -> x ∈ l.
Proof. destruct l; simpl; [discriminate|]. intros [= ->]. left. Qed.

Lemma querySelectorIn_elem b r s i :
  querySelectorIn b r s = Some i ->
  i < length (nodes b) /\ isDescendant b r i = true /\ matchesAt b s i = true.
Proof. intros H. apply querySelectorAllIn_elem, head_elem, H. Qed.

Lemma getElementById_lt b id i : getElementById b id = Some i -> i < length (nodes b).
Proof.
  intros H. apply head_elem in H. apply querySelectorAll_elem in H. tauto.
Qed.

Lemma controls_elem b f i :
  i ∈ controls b f <-> i < length (nodes b) /\ isDescendant b f i = true.
Proof.
  unfold controls. rewrite list_elem_of_In, filter_In, <- list_elem_of_In.
  rewrite indices_elem. reflexivity.
Qed.

(** *** Class tokens *)

Lemma tokens_add_elem c l x : x ∈ tokens_add c l <-> x = c \/ x ∈ l.
Proof.
  unfold tokens_add. destruct (bool_decide (c ∈ l)) eqn:E.
  - apply bool_decide_eq_true in E. split; [auto|]. intros [->|H]; assumption.
  - rewrite elem_of_app, list_elem_of_singleton. tauto.
Qed.

Lemma tokens_remove_elem c l x : x ∈ tokens_remove c l <-> x <> c /\ x ∈ l.
Proof.
  unfold tokens_remove. rewrite list_elem_of_In, filter_In, <- list_elem_of_In.
  rewrite negb_true_iff, String.eqb_neq. tauto.
Qed.

(** [focus] writes the active element and nothing else. *)

Lemma focus_nodes i b : nodes (focus i b) = nodes b.
Proof. unfold focus. destruct (canFocus b i); reflexivity. Qed.


Lemma focus_body i b : bodyClassList (focus i b) = bodyClassList b.
Proof. unfold focus. destruct (canFocus b i); reflexivity. Qed.

Lemma focus_area i b : focusableArea (focus i b) = focusableArea b.
Proof. unfold focus. destruct (canFocus b i); reflexivity. Qed.

Lemma focus_width i b : innerWidth (focus i b) = innerWidth b.
Proof. unfold focus. destruct (canFocus b i); reflexivity. Qed.

Lemma agree_focus {A} (p : Element -> A) i b : agree p b (focus i b).
Proof. apply agree_nodes. symmetry. apply focus_nodes. Qed.

Lemma canFocus_focus i j b : canFocus (focus i b) j = canFocus b j.
Proof. unfold focus. destruct (canFocus b i); reflexivity. Qed.

Lemma focus_active i b :
  activeElement (focus i b)
  = if canFocus (focus i b) i then Some i else activeElement b.
Proof.
  rewrite canFocus_focus. unfold focus. destruct (canFocus b i); reflexivity.
Qed.

End DomFacts.

(** ** The address pattern *)

Section EmailFacts.
Import Regex Spec Script.ContactForm.

Lemma lang_char_inv c w : lang (RChar c) w <-> w = [c].
Proof. split; [inversion 1; reflexivity | intros ->; constructor]. Qed.

Lemma lang_cat_iff r1 r2 w :
  lang (RCat r1 r2) w <-> exists w1 w2, w = w1 ++ w2 /\ lang r1 w1 /\ lang r2 w2.
Proof.
  split; [apply lang_cat_inv|]. intros (w1 & w2 & -> & H1 & H2).
  constructor; assumption.
Qed.

Lemma not_in_plain c : not_in [ClsSpace; ClsChar "@"] c = true <-> plain c.
Proof.
  unfold not_in, plain. simpl. rewrite orb_false_r, negb_true_iff, orb_false_iff.
  rewrite Ascii.eqb_neq. reflexivity.
Qed.

Lemma lang_notin_inv items w :
  lang (RNotIn items) w <-> exists c, w = [c] /\ not_in items c = true.
Proof.
  split.
  - inversion 1; subst. eauto.
  - intros (c & -> & H). constructor. exact H.
Qed.

Lemma lang_star_notin items w :
  lang (RStar (RNotIn items)) w <-> Forall (fun c => not_in items c = true) w.
Proof.
  split.
  - intros H. remember (RStar (RNotIn items)) as r eqn:Er.
    induction H as [| | | | | | |r' w1 w2 H1 _ H2 IH2]; try discriminate.
    + constructor.
    + injection Er as ->. apply lang_notin_inv in H1 as (c & -> & Hc).
      simpl. constructor; [exact Hc | apply IH2; reflexivity].
  - induction 1 as [|c w Hc _ IH].
    + constructor.
    + apply (lang_star_app _ [c] w); [constructor; exact Hc | exact IH].
Qed.

Lemma lang_part w :
  lang (RPlus (RNotIn [ClsSpace; ClsChar "@"])) w <-> w <> [] /\ Forall plain w.
Proof.
  unfold RPlus. rewrite lang_cat_iff. split.
  - intros (w1 & w2 & -> & H1 & H2).
    apply lang_notin_inv in H1 as (c & -> & Hc). apply lang_star_notin in H2.
    split; [discriminate|]. constructor.
    + apply not_in_plain, Hc.
    + eapply Forall_impl; [exact H2|]. intros x. apply not_in_plain.
  - intros [Hne Hall]. destruct w as [|c w]; [congruence|].
    apply Forall_cons in Hall as [Hc Hall]. exists [c], w. split; [reflexivity|]. split.
    + constructor. apply not_in_plain, Hc.
    + apply lang_star_notin. eapply Forall_impl; [exact Hall|].
      intros x. apply not_in_plain.
Qed.

(** The pattern of the script accepts exactly the strings of the shape
    [local@domain.tld]. *)
Lemma emailRegex_shape s :
  Regex.test emailRegex s = true <-> local_at_domain_tld s.
Proof.
  unfold Regex.test, local_at_domain_tld. rewrite matches_lang. unfold emailRegex.
  generalize (Str.chars s). intros w. split.
  - intros H.
    apply lang_cat_inv in H as (l & w1 & -> & Hl & H).
    apply lang_cat_inv in H as (a & w2 & -> & Ha & H).
    apply lang_cat_inv in H as (d & w3 & -> & Hd & H).
    apply lang_cat_inv in H as (p & t & -> & Hp & Ht).
    apply lang_char_inv in Ha as ->. apply lang_char_inv in Hp as ->.
    apply lang_part in Hl as [? ?], Hd as [? ?], Ht as [? ?].
    exists l, d, t. simpl. auto 10.
  - intros (l & d & t & -> & Hl & Hd & Ht & Al & Ad & At).
    apply (lang_cat _ _ l); [apply lang_part; auto|].
    apply (lang_cat _ _ ["@"%char]); [constructor|].
    apply (lang_cat _ _ d); [apply lang_part; auto|].
    apply (lang_cat _ _ ["."%char]); [constructor|].
    apply lang_part; auto.
Qed.

End EmailFacts.

(** ** Validation *)

Section ValidateFacts.
Import Dom Spec Script.ContactForm.

Lemma agree_unflag {A} (p : Element -> A) b b' :
  (forall e, p (unflag e) = p e) -> agree unflag b b' -> agree p b b'.
Proof.
  intros Hp H. unfold agree in *.
  rewrite <- (list_fmap_ext (p ∘ unflag) p (nodes b)) by (intros; apply Hp).
  rewrite <- (list_fmap_ext (p ∘ unflag) p (nodes b')) by (intros; apply Hp).
  rewrite !list_fmap_compose, H. reflexivity.
Qed.

Lemma same_but_flags_refl b : same_but_flags b b.
Proof. unfold same_but_flags. auto 10 using agree_refl. Qed.

Lemma same_but_flags_trans b1 b2 b3 :
  same_but_flags b1 b2 -> same_but_flags b2 b3 -> same_but_flags b1 b3.
Proof.
  unfold same_but_flags. intros (?&?&?&?&?&?&?) (?&?&?&?&?&?&?).
  repeat split; first [congruence | eapply agree_trans; eassumption].
Qed.

Lemma same_but_flags_setBorderColor i c b : same_but_flags b (setBorderColor i c b).
Proof.
  unfold same_but_flags, setBorderColor. repeat split.
  apply agree_update. reflexivity.
Qed.

Lemma same_but_flags_value b b' : same_but_flags b b' -> agree value b b'.
Proof. intros [H _]. revert H. apply agree_unflag. reflexivity. Qed.

Lemma same_but_flags_parent b b' : same_but_flags b b' -> agree parentNode b b'.
Proof. intros [H _]. revert H. apply agree_unflag. reflexivity. Qed.

Lemma same_but_flags_sel s b b' : same_but_flags b b' -> agree (sel_matches s) b b'.
Proof.
  intros [H _]. revert H. apply agree_unflag. intros e.
  apply sel_matches_ext; reflexivity.
Qed.

Lemma same_but_flags_nonblank b b' i :
  same_but_flags b b' -> nonblank b i = nonblank b' i.
Proof.
  intros H. unfold nonblank. rewrite (valueOf_agree b b'); [reflexivity|].
  apply same_but_flags_value, H.
Qed.

Lemma truthy_trim v : Str.truthy (Str.trim v) = negb (Str.blank v).
Proof.
  destruct (Str.blank v) eqn:E; simpl.
  - apply trim_empty_blank in E. rewrite E. reflexivity.
  - destruct (Str.trim v) eqn:Et; [|reflexivity].
    apply trim_empty_blank in Et. congruence.
Qed.

Lemma checkRequired_eq v b i :
  checkRequired (v, b) i =
  (v && nonblank b i,
   setBorderColor i (if nonblank b i then EmptyString else errorColor) b).
Proof.
  unfold checkRequired, nonblank. rewrite truthy_trim.
  destruct (Str.blank (valueOf b i)); simpl; rewrite ?andb_false_r, ?andb_true_r;
    reflexivity.
Qed.

Lemma borderColorOf_set i c b j :
  borderColorOf (setBorderColor i c b) j =
  if decide (i = j)
  then (if decide (j < length (nodes b)) then c else EmptyString)
  else borderColorOf b j.
Proof.
  unfold borderColorOf, setBorderColor. rewrite update_lookup.
  destruct (decide (i = j)); [|reflexivity].
  destruct (decide (j < length (nodes b))) as [Hlt|Hge].
  - apply lookup_lt_is_Some in Hlt as [x ->]. reflexivity.
  - rewrite lookup_ge_None_2 by lia. reflexivity.
Qed.

Lemma forallb_pointwise {A} (f g : A -> bool) l :
  (forall x, f x = g x) -> forallb f l = forallb g l.
Proof. intros H. induction l as [|x l IH]; simpl; [reflexivity|]. rewrite H, IH. reflexivity. Qed.

(** The loop over the required fields. *)
Lemma fold_checkRequired l : forall v b,
  let r := fold_left checkRequired l (v, b) in
  fst r = v && forallb (nonblank b) l /\
  same_but_flags b (snd r) /\
  (forall i, i ∈ l -> i < length (nodes b) ->
     borderColorOf (snd r) i = if nonblank b i then EmptyString else errorColor) /\
  (forall i, i ∉ l -> borderColorOf (snd r) i = borderColorOf b i).
Proof.
  induction l as [|a l IH]; intros v b; cbn [fold_left forallb].
  - simpl. rewrite andb_true_r. split; [reflexivity|].
    split; [apply same_but_flags_refl|].
    split; [|reflexivity]. intros i Hi. inversion Hi.
  - rewrite checkRequired_eq.
    set (b1 := setBorderColor a (if nonblank b a then EmptyString else errorColor) b).
    assert (Hsb : same_but_flags b b1) by apply same_but_flags_setBorderColor.
    destruct (IH (v && nonblank b a) b1) as (Hv & Hs & Hin & Hout).
    assert (Hnb : forallb (nonblank b1) l = forallb (nonblank b) l).
    { apply forallb_pointwise. intros i. symmetry. apply same_but_flags_nonblank, Hsb. }
    assert (Hlen : length (nodes b1) = length (nodes b)) by apply update_length.
    split; [rewrite Hv, Hnb, andb_assoc; reflexivity|].
    split; [eapply same_but_flags_trans; eassumption|]. split.
    + intros i Hi Hlt. destruct (decide (i ∈ l)) as [Hil|Hil].
      * rewrite Hin by (rewrite ?Hlen; assumption).
        rewrite <- (same_but_flags_nonblank b b1 i Hsb). reflexivity.
      * apply elem_of_cons in Hi as [->|Hi]; [|contradiction].
        rewrite Hout by assumption. unfold b1. rewrite borderColorOf_set.
        rewrite decide_True by reflexivity. rewrite decide_True by assumption.
        reflexivity.
    + intros i Hi. apply not_elem_of_cons in Hi as [Hne Hi].
      rewrite Hout by assumption. unfold b1. rewrite borderColorOf_set.
      rewrite decide_False by congruence. reflexivity.
Qed.

Lemma requiredFields_same s b b' :
  same_but_flags b b' -> requiredFields s b = requiredFields s b'.
Proof.
  intros H. apply querySelectorAllIn_agree;
    [apply same_but_flags_parent | apply same_but_flags_sel]; exact H.
Qed.

Lemma emailField_same s b b' :
  same_but_flags b b' -> emailField s b = emailField s b'.
Proof.
  intros H. apply querySelectorIn_agree;
    [apply same_but_flags_parent | apply same_but_flags_sel]; exact H.
Qed.

Lemma honeypot_same s b b' :
  same_but_flags b b' -> honeypot s b = honeypot s b'.
Proof.
  intros H. apply querySelectorIn_agree;
    [apply same_but_flags_parent | apply same_but_flags_sel]; exact H.
Qed.

Lemma email_ok_same s b b' : same_but_flags b b' -> email_ok s b = email_ok s b'.
Proof.
  intros H. unfold email_ok. rewrite <- (emailField_same s b b' H).
  destruct (emailField s b) as [e|]; [|reflexivity].
  rewrite <- (valueOf_agree b b' e (same_but_flags_value _ _ H)). reflexivity.
Qed.

Lemma honeypot_filled_same s b b' :
  same_but_flags b b' -> honeypot_filled s b = honeypot_filled s b'.
Proof.
  intros H. unfold honeypot_filled. rewrite <- (honeypot_same s b b' H).
  destruct (honeypot s b) as [h|]; [|reflexivity].
  rewrite <- (valueOf_agree b b' h (same_but_flags_value _ _ H)). reflexivity.
Qed.

(** The verdict of [validateForm]. *)
Lemma validateForm_verdict s b :
  fst (validateForm s b) = forallb (nonblank b) (requiredFields s b) && email_ok s b.
Proof.
  unfold validateForm.
  destruct (fold_checkRequired (requiredFields s b) true b) as (Hv & Hs & _).
  destruct (fold_left checkRequired (requiredFields s b) (true, b)) as [v b1].
  simpl in Hv, Hs. subst v. rewrite (email_ok_same s b b1 Hs). unfold email_ok.
  destruct (emailField s b1) as [e|]; simpl; [|rewrite andb_true_r; reflexivity].
  destruct (Str.truthy (valueOf b1 e)); simpl; [|rewrite andb_true_r; reflexivity].
  destruct (Regex.test emailRegex (valueOf b1 e)); simpl;
    rewrite ?andb_true_r, ?andb_false_r; reflexivity.
Qed.

(** [validateForm] touches nothing but validation flags. *)
Lemma validateForm_same s b : same_but_flags b (snd (validateForm s b)).
Proof.
  unfold validateForm.
  destruct (fold_checkRequired (requiredFields s b) true b) as (_ & Hs & _).
  destruct (fold_left checkRequired (requiredFields s b) (true, b)) as [v b1].
  simpl in Hs.
  destruct (emailField s b1) as [e|]; simpl; [|exact Hs].
  destruct (Str.truthy (valueOf b1 e)); simpl; [|exact Hs].
  destruct (Regex.test emailRegex (valueOf b1 e)); simpl; [exact Hs|].
  eapply same_but_flags_trans; [exact Hs | apply same_but_flags_setBorderColor].
Qed.

(** The flags after [validateForm]. *)
Lemma validateForm_flags s b i :
  i < length (nodes b) ->
  borderColorOf (snd (validateForm s b)) i =
  if email_rejected s b i then errorColor
  else if bool_decide (i ∈ requiredFields s b)
       then (if nonblank b i then EmptyString else errorColor)
       else borderColorOf b i.
Proof.
  intros Hlt. unfold validateForm, email_rejected.
  destruct (fold_checkRequired (requiredFields s b) true b) as (_ & Hs & Hin & Hout).
  destruct (fold_left checkRequired (requiredFields s b) (true, b)) as [v b1].
  simpl in Hs, Hin, Hout.
  assert (Hb1 : borderColorOf b1 i =
                if bool_decide (i ∈ requiredFields s b)
                then (if nonblank b i then EmptyString else errorColor)
                else borderColorOf b i).
  { destruct (bool_decide (i ∈ requiredFields s b)) eqn:E.
    - apply bool_decide_eq_true in E. apply Hin; assumption.
    - apply bool_decide_eq_false in E. apply Hout; assumption. }
  rewrite <- (emailField_same s b b1 Hs).
  destruct (emailField s b) as [e|]; simpl; [|exact Hb1].
  rewrite <- (valueOf_agree b b1 e (same_but_flags_value _ _ Hs)).
  destruct (Str.truthy (valueOf b e)); simpl;
    [|rewrite andb_false_r; exact Hb1].
  destruct (Regex.test emailRegex (valueOf b e)); simpl;
    [rewrite andb_false_r; exact Hb1|].
  rewrite !andb_true_r, borderColorOf_set.
  rewrite <- (agree_length _ _ _ (same_but_flags_value _ _ Hs)).
  destruct (decide (e = i)) as [->|Hne].
  - rewrite bool_decide_eq_true_2 by reflexivity.
    rewrite decide_True by assumption. reflexivity.
  - rewrite bool_decide_eq_false_2 by assumption. exact Hb1.
Qed.

End ValidateFacts.

(** ** The submit flow *)

Section SubmitFacts.
Import Dom Spec Script.ContactForm.

Lemma onSubmit_begin_invalid s b :
  fst (validateForm s b) = false ->
  onSubmit_begin s b = (snd (validateForm s b), false).
Proof.
  unfold onSubmit_begin. destruct (validateForm s b) as [v b1]. simpl.
  intros ->. reflexivity.
Qed.

Lemma onSubmit_begin_honeypot s b :
  honeypot_filled s b = true ->
  onSubmit_begin s b = (snd (validateForm s b), false).
Proof.
  intros H. rewrite (honeypot_filled_same s b _ (validateForm_same s b)) in H.
  unfold onSubmit_begin, honeypot_filled in *.
  destruct (validateForm s b) as [v b1]. simpl in *.
  destruct v; simpl; [|reflexivity]. rewrite H. reflexivity.
Qed.

Lemma onSubmit_begin_send s b :
  fst (validateForm s b) = true -> honeypot_filled s b = false ->
  snd (onSubmit_begin s b) = true /\
  exists url body b1,
    log (fst (onSubmit_begin s b)) = log b ++ [Fetch url body] /\
    fst (onSubmit_begin s b) = emit (Fetch url body) b1 /\
    b1 = match submitButton s with
         | Some btn => setInnerHTML btn sendingLabel
                         (setDisabled btn true (snd (validateForm s b)))
         | None => snd (validateForm s b)
         end.
Proof.
  intros Hv H. rewrite (honeypot_filled_same s b _ (validateForm_same s b)) in H.
  pose proof (validateForm_same s b) as (_ & _ & _ & _ & _ & Hlog & _).
  unfold onSubmit_begin, honeypot_filled in *.
  destruct (validateForm s b) as [v b1]. simpl in *. subst v. simpl.
  rewrite H. simpl. split; [reflexivity|].
  eexists _, _, _. split; [|split; reflexivity].
  rewrite Hlog. destruct (submitButton s); reflexivity.
Qed.

Lemma networkCalls_app l1 l2 :
  networkCalls (l1 ++ l2) = networkCalls l1 + networkCalls l2.
Proof. unfold networkCalls. rewrite List.filter_app, length_app. reflexivity. Qed.

Lemma test_false_not_shape v :
  Regex.test emailRegex v = false -> ~ local_at_domain_tld v.
Proof. intros H Hs. apply emailRegex_shape in Hs. congruence. Qed.

Lemma forallb_nonblank b l :
  forallb (nonblank b) l = true <->
  forall f, f ∈ l -> Str.trim (valueOf b f) <> EmptyString.
Proof.
  rewrite forallb_forall. split.
  - intros H f Hf Ht. apply list_elem_of_In, H in Hf. unfold nonblank in Hf.
    apply trim_empty_blank in Ht. rewrite Ht in Hf. discriminate.
  - intros H f Hf. apply list_elem_of_In, H in Hf. unfold nonblank.
    destruct (Str.blank (valueOf b f)) eqn:E; [|reflexivity].
    apply trim_empty_blank in E. contradiction.
Qed.

Lemma email_ok_iff s b :
  email_ok s b = true <->
  forall e, emailField s b = Some e ->
            valueOf b e = EmptyString \/ local_at_domain_tld (valueOf b e).
Proof.
  unfold email_ok. destruct (emailField s b) as [e|].
  - destruct (Str.truthy (valueOf b e)) eqn:Et.
    + rewrite emailRegex_shape. split.
      * intros H e' [= <-]. right. exact H.
      * intros H. destruct (H e eq_refl) as [He|He]; [|exact He].
        apply truthy_true in Et. contradiction.
    + apply truthy_false in Et. split; [|reflexivity].
      intros _ e' [= <-]. left. exact Et.
  - split; [|reflexivity]. intros _ e' [=].
Qed.

End SubmitFacts.

(** ** The success branch *)

Section SuccessFacts.
Import Dom Spec Script.ContactForm.

Lemma from_option_update {A} (p : Element -> A) d a f b i :
  from_option p d (nodes (update a f b) !! i) =
  if decide (a = i)
  then from_option (fun e => p (f e)) d (nodes b !! i)
  else from_option p d (nodes b !! i).
Proof.
  rewrite update_lookup. destruct (decide (a = i)); [|reflexivity].
  destruct (nodes b !! i); reflexivity.
Qed.

(** *** form.reset() *)

Lemma reset_control_agree {A} (p : Element -> A) b i :
  (forall e v, p (set_value v e) = p e) -> agree p b (reset_control b i).
Proof. intros Hp. apply agree_update. intros e. apply Hp. Qed.

Lemma fold_reset_value l : forall b i,
  valueOf (fold_left reset_control l b) i =
  if bool_decide (i ∈ l) then defaultValueOf b i else valueOf b i.
Proof.
  induction l as [|a l IH]; intros b i; cbn [fold_left].
  - reflexivity.
  - rewrite IH.
    assert (Hd : defaultValueOf (reset_control b a) i = defaultValueOf b i).
    { symmetry. apply agree_from_option, reset_control_agree. reflexivity. }
    assert (Hv : valueOf (reset_control b a) i =
                 if decide (a = i) then defaultValueOf b i else valueOf b i).
    { unfold valueOf, reset_control. rewrite from_option_update. reflexivity. }
    rewrite Hd, Hv.
    destruct (decide (a = i)) as [->|Hne].
    + rewrite (bool_decide_eq_true_2 (i ∈ i :: l)) by left.
      destruct (bool_decide (i ∈ l)); reflexivity.
    + destruct (bool_decide (i ∈ l)) eqn:E.
      * apply bool_decide_eq_true in E.
        rewrite bool_decide_eq_true_2 by (right; exact E). reflexivity.
      * apply bool_decide_eq_false in E.
        rewrite bool_decide_eq_false_2; [reflexivity|].
        intros H. apply elem_of_cons in H as [->|H]; contradiction.
Qed.

Lemma formReset_value f b i :
  valueOf (formReset f b) i =
  if bool_decide (i ∈ controls b f) then defaultValueOf b i else valueOf b i.
Proof. apply fold_reset_value. Qed.

Lemma formReset_agree {A} (p : Element -> A) f b :
  (forall e v, p (set_value v e) = p e) -> agree p b (formReset f b).
Proof. intros Hp. apply agree_fold. intros b' x. apply reset_control_agree, Hp. Qed.

(** *** The cards *)

Lemma resetCard_agree {A} (p : Element -> A) b c :
  (forall e l, p (set_classList l e) = p e) -> agree p b (resetCard b c).
Proof.
  intros Hp. unfold resetCard.
  assert (H1 : agree p b (classList_remove c "active" b)).
  { apply agree_update. intros e. apply Hp. }
  destruct (bool_decide _); [|exact H1].
  eapply agree_trans; [exact H1|]. apply agree_update. intros e. apply Hp.
Qed.

Lemma fold_resetCard_agree {A} (p : Element -> A) l b :
  (forall e l, p (set_classList l e) = p e) -> agree p b (fold_left resetCard l b).
Proof. intros Hp. apply agree_fold. intros b' x. apply resetCard_agree, Hp. Qed.

Lemma active_after_reset l :
  "active" ∈ tokens_add "active" (tokens_remove "active" l).
Proof. apply tokens_add_elem. left. reflexivity. Qed.

Lemma active_after_add l : "active" ∈ tokens_add "active" l.
Proof. apply tokens_add_elem. left. reflexivity. Qed.

Lemma active_after_remove l : "active" ∉ tokens_remove "active" l.
Proof. rewrite tokens_remove_elem. tauto. Qed.

Lemma other_after_remove x l :
  x <> "active" -> (x ∈ tokens_remove "active" l <-> x ∈ l).
Proof. rewrite tokens_remove_elem. tauto. Qed.

Lemma other_after_add x c l : x <> c -> (x ∈ tokens_add c l <-> x ∈ l).
Proof. rewrite tokens_add_elem. tauto. Qed.

(** Whether [j] carries the class "active" after one turn of the loop. *)
Lemma resetCard_active b c j :
  "active" ∈ classesOf (resetCard b c) j <->
  if decide (c = j)
  then j < length (nodes b) /\ getAttribute b j "data-type" = Some "dental"
  else "active" ∈ classesOf b j.
Proof.
  unfold resetCard.
  assert (Hattr : getAttribute (classList_remove c "active" b) c "data-type"
                  = getAttribute b c "data-type").
  { symmetry. apply getAttribute_agree, agree_update. reflexivity. }
  rewrite Hattr. unfold classesOf.
  destruct (bool_decide (getAttribute b c "data-type" = Some "dental")) eqn:E.
  - apply bool_decide_eq_true in E.
    unfold classList_add, classList_remove. rewrite !from_option_update.
    destruct (decide (c = j)) as [->|Hne]; [|reflexivity].
    destruct (nodes b !! j) as [e|] eqn:En; simpl.
    + split; [|intros _; apply active_after_reset].
      intros _. split; [|exact E]. apply lookup_lt_is_Some. eauto.
    + split; [intros H; inversion H|]. intros [Hlt _].
      apply lookup_lt_is_Some in Hlt as [x Hx]. congruence.
  - apply bool_decide_eq_false in E.
    unfold classList_remove. rewrite from_option_update.
    destruct (decide (c = j)) as [->|Hne]; [|reflexivity].
    destruct (nodes b !! j) as [e|] eqn:En; simpl.
    + split; [intros H; apply active_after_remove in H; contradiction|].
      intros [_ H]. contradiction.
    + split; [intros H; inversion H|]. intros [_ H]. contradiction.
Qed.

Lemma resetCard_hasActive b c j :
  hasClass (resetCard b c) j "active" =
  if decide (c = j)
  then bool_decide (j < length (nodes b))
       && bool_decide (getAttribute b j "data-type" = Some "dental")
  else hasClass b j "active".
Proof.
  unfold hasClass. destruct (decide (c = j)) as [->|Hne].
  - rewrite <- bool_decide_and. apply bool_decide_ext.
    rewrite resetCard_active, decide_True by reflexivity. reflexivity.
  - apply bool_decide_ext. rewrite resetCard_active, decide_False by exact Hne.
    reflexivity.
Qed.

Lemma fold_resetCard_hasActive l : forall b j,
  hasClass (fold_left resetCard l b) j "active" =
  if bool_decide (j ∈ l)
  then bool_decide (j < length (nodes b))
       && bool_decide (getAttribute b j "data-type" = Some "dental")
  else hasClass b j "active".
Proof.
  induction l as [|a l IH]; intros b j; cbn [fold_left].
  - reflexivity.
  - rewrite IH.
    assert (Hlen : length (nodes (resetCard b a)) = length (nodes b)).
    { symmetry. apply (agree_length parentNode), resetCard_agree. reflexivity. }
    assert (Hattr : getAttribute (resetCard b a) j "data-type"
                    = getAttribute b j "data-type").
    { symmetry. apply getAttribute_agree, resetCard_agree. reflexivity. }
    rewrite Hlen, Hattr, resetCard_hasActive.
    destruct (decide (a = j)) as [->|Hne].
    + rewrite (bool_decide_eq_true_2 (j ∈ j :: l)) by left.
      destruct (bool_decide (j ∈ l)); reflexivity.
    + destruct (bool_decide (j ∈ l)) eqn:E.
      * apply bool_decide_eq_true in E.
        rewrite (bool_decide_eq_true_2 (j ∈ a :: l)) by (right; exact E).
        reflexivity.
      * apply bool_decide_eq_false in E.
        rewrite (bool_decide_eq_false_2 (j ∈ a :: l)); [reflexivity|].
        intros H. apply elem_of_cons in H as [->|H]; contradiction.
Qed.

Lemma hasClass_alt b j x :
  hasClass b j x = from_option (fun e => bool_decide (x ∈ classList e)) false (nodes b !! j).
Proof.
  unfold hasClass, classesOf. destruct (nodes b !! j); reflexivity.
Qed.

Lemma hasClass_agree x b b' j :
  agree (fun e => bool_decide (x ∈ classList e)) b b' -> hasClass b j x = hasClass b' j x.
Proof. intros H. rewrite !hasClass_alt. apply agree_from_option, H. Qed.

Lemma agree_class_remove x c i b :
  x <> c -> agree (fun e => bool_decide (x ∈ classList e)) b (classList_remove i c b).
Proof.
  intros Hx. apply agree_update. intros e. simpl. apply bool_decide_ext.
  rewrite tokens_remove_elem. tauto.
Qed.

Lemma agree_class_add x c i b :
  x <> c -> agree (fun e => bool_decide (x ∈ classList e)) b (classList_add i c b).
Proof.
  intros Hx. apply agree_update. intros e. simpl. apply bool_decide_ext.
  rewrite tokens_add_elem. tauto.
Qed.

(** Classes other than "active" survive the loop. *)
Lemma fold_resetCard_other x l b :
  x <> "active" ->
  agree (fun e => bool_decide (x ∈ classList e)) b (fold_left resetCard l b).
Proof.
  intros Hx. apply agree_fold. intros b' c. unfold resetCard.
  pose proof (agree_class_remove x "active" c b' Hx) as H1.
  destruct (bool_decide _); [|exact H1].
  eapply agree_trans; [exact H1|]. apply agree_class_add, Hx.
Qed.

End SuccessFacts.

Section SuccessBranch.
Import Dom Spec Script.ContactForm.

Lemma agree_compose {A B} (p : Element -> A) (q : A -> B) b b' :
  agree p b b' -> agree (fun e => q (p e)) b b'.
Proof.
  unfold agree. intros H.
  change (fun e => q (p e)) with (q ∘ p). rewrite !list_fmap_compose, H. reflexivity.
Qed.

Lemma fold_left_keeps {A B} (q : Browser -> A) (g : Browser -> B -> Browser) l b :
  (forall b x, q (g b x) = q b) -> q (fold_left g l b) = q b.
Proof.
  intros Hg. revert b. induction l as [|x l IH]; intros b; simpl; [reflexivity|].
  rewrite IH. apply Hg.
Qed.

Lemma resetCard_log b c : log (resetCard b c) = log b.
Proof. unfold resetCard. destruct (bool_decide _); reflexivity. Qed.

Lemma onSuccess_log s b : log (onSuccess s b) = log b.
Proof.
  unfold onSuccess. rewrite (fold_left_keeps log) by apply resetCard_log.
  destruct (getElementById _ _); simpl;
    unfold formReset; rewrite (fold_left_keeps log) by reflexivity;
    destruct (successMessage s); reflexivity.
Qed.

Lemma onSuccess_unfold s b :
  onSuccess s b =
  fold_left resetCard
    (querySelectorAll (beforeCards s b) (SClass "business-type-card"))
    (beforeCards s b).
Proof. reflexivity. Qed.

Lemma showMessage_agree {A} (p : Element -> A) s b :
  (forall e l, p (set_classList l e) = p e) ->
  agree p b (match successMessage s with
             | Some m => classList_add m "show" b
             | None => b
             end).
Proof.
  intros Hc. destruct (successMessage s); [|apply agree_refl].
  apply agree_update. intros e. apply Hc.
Qed.

Lemma beforeCards_agree {A} (p : Element -> A) s b :
  (forall e v, p (set_value v e) = p e) ->
  (forall e l, p (set_classList l e) = p e) ->
  agree p b (beforeCards s b).
Proof.
  intros Hv Hc. unfold beforeCards.
  eapply agree_trans; [apply (showMessage_agree p s b Hc)|].
  eapply agree_trans; [apply (formReset_agree p (form s)), Hv|].
  destruct (getElementById _ _); [|apply agree_refl].
  apply agree_update. intros e. apply Hv.
Qed.

Lemma onSuccess_agree {A} (p : Element -> A) s b :
  (forall e v, p (set_value v e) = p e) ->
  (forall e l, p (set_classList l e) = p e) ->
  agree p b (onSuccess s b).
Proof.
  intros Hv Hc. rewrite onSuccess_unfold.
  eapply agree_trans; [apply beforeCards_agree; assumption|].
  apply fold_resetCard_agree, Hc.
Qed.

Lemma onSuccess_length s b : length (nodes (onSuccess s b)) = length (nodes b).
Proof. symmetry. apply (agree_length parentNode), onSuccess_agree; reflexivity. Qed.

(** Classes other than "show" and "active" are where they were. *)
Lemma beforeCards_class x s b :
  x <> "show" ->
  agree (fun e => bool_decide (x ∈ classList e)) b (beforeCards s b).
Proof.
  intros Hx. unfold beforeCards.
  set (b1 := match successMessage s with
             | Some m => classList_add m "show" b
             | None => b
             end).
  assert (H1 : agree (fun e => bool_decide (x ∈ classList e)) b b1).
  { unfold b1. destruct (successMessage s); [apply agree_class_add, Hx | apply agree_refl]. }
  eapply agree_trans; [exact H1|].
  eapply agree_trans; [apply formReset_agree; reflexivity|].
  destruct (getElementById _ _); [|apply agree_refl].
  apply agree_update. reflexivity.
Qed.

Lemma cards_beforeCards s b :
  querySelectorAll (beforeCards s b) (SClass "business-type-card")
  = querySelectorAll b (SClass "business-type-card").
Proof.
  symmetry. apply querySelectorAll_agree. simpl.
  apply beforeCards_class. discriminate.
Qed.

(** The values after the success branch. *)
Lemma onSuccess_value s b i :
  valueOf (onSuccess s b) i =
  if bool_decide (getElementById b "business-type" = Some i) then "dental"
  else if bool_decide (i ∈ controls b (form s)) then defaultValueOf b i
       else valueOf b i.
Proof.
  rewrite onSuccess_unfold.
  rewrite <- (valueOf_agree _ _ i (fold_resetCard_agree value _ (beforeCards s b)
                                    ltac:(reflexivity))).
  unfold beforeCards.
  set (b1 := match successMessage s with
             | Some m => classList_add m "show" b
             | None => b
             end).
  assert (H1 : forall A (p : Element -> A),
             (forall e l, p (set_classList l e) = p e) -> agree p b b1).
  { intros A p Hp. apply showMessage_agree, Hp. }
  assert (Hid : getElementById (formReset (form s) b1) "business-type"
                = getElementById b "business-type").
  { symmetry. apply getElementById_agree.
    eapply agree_trans; [apply H1; reflexivity|]. apply formReset_agree. reflexivity. }
  assert (Hreset : valueOf (formReset (form s) b1) i =
                   if bool_decide (i ∈ controls b (form s)) then defaultValueOf b i
                   else valueOf b i).
  { rewrite formReset_value.
    rewrite <- (controls_agree b b1) by (apply H1; reflexivity).
    unfold defaultValueOf, valueOf.
    rewrite <- (agree_from_option defaultValue EmptyString b b1) by (apply H1; reflexivity).
    rewrite <- (agree_from_option value EmptyString b b1) by (apply H1; reflexivity).
    reflexivity. }
  rewrite Hid. destruct (getElementById b "business-type") as [bt|] eqn:Hbt.
  - unfold valueOf at 1. unfold setValue. rewrite from_option_update.
    destruct (decide (bt = i)) as [->|Hne].
    + rewrite bool_decide_eq_true_2 by reflexivity.
      apply getElementById_lt in Hid.
      apply lookup_lt_is_Some in Hid as [e ->]. reflexivity.
    + rewrite bool_decide_eq_false_2 by congruence. exact Hreset.
  - rewrite bool_decide_eq_false_2 by discriminate. exact Hreset.
Qed.

(** The cards after the success branch. *)
Lemma onSuccess_cards s b c :
  c ∈ querySelectorAll b (SClass "business-type-card") ->
  hasClass (onSuccess s b) c "active"
  = bool_decide (getAttribute b c "data-type" = Some "dental").
Proof.
  intros Hc. rewrite onSuccess_unfold, fold_resetCard_hasActive, cards_beforeCards.
  rewrite bool_decide_eq_true_2 by exact Hc.
  apply querySelectorAll_elem in Hc as [Hlt _].
  rewrite <- (agree_length parentNode b (beforeCards s b))
    by (apply beforeCards_agree; reflexivity).
  rewrite bool_decide_eq_true_2 by exact Hlt.
  rewrite <- (getAttribute_agree b (beforeCards s b))
    by (apply beforeCards_agree; reflexivity).
  reflexivity.
Qed.

(** The success message after the success branch. *)
Lemma onSuccess_show s b m :
  successMessage s = Some m -> m < length (nodes b) ->
  hasClass (onSuccess s b) m "show" = true.
Proof.
  intros Hm Hlt. rewrite onSuccess_unfold.
  rewrite <- (hasClass_agree "show" _ _ m
                (fold_resetCard_other "show" _ (beforeCards s b) ltac:(discriminate))).
  unfold beforeCards. rewrite Hm.
  set (b1 := classList_add m "show" b).
  assert (H : hasClass b1 m "show" = true).
  { rewrite hasClass_alt. unfold b1, classList_add. rewrite from_option_update.
    rewrite decide_True by reflexivity.
    apply lookup_lt_is_Some in Hlt as [e ->]. simpl.
    apply bool_decide_eq_true_2, tokens_add_elem. left. reflexivity. }
  transitivity (hasClass b1 m "show"); [|exact H]. symmetry. apply hasClass_agree.
  eapply agree_trans; [apply formReset_agree; reflexivity|].
  destruct (getElementById _ _); [|apply agree_refl].
  apply agree_update. reflexivity.
Qed.

(** The [finally] block. *)
Lemma onSettled_agree {A} (p : Element -> A) s b :
  (forall e v, p (set_disabled v e) = p e) ->
  (forall e v, p (set_innerHTML v e) = p e) ->
  agree p b (onSettled s b).
Proof.
  intros Hd Hi. unfold onSettled. destruct (submitButton s); [|apply agree_refl].
  eapply agree_trans; apply agree_update; intros e; [apply Hd | apply Hi].
Qed.

Lemma onSettled_log s b : log (onSettled s b) = log b.
Proof. unfold onSettled. destruct (submitButton s); reflexivity. Qed.

Lemma onSettled_button s b btn :
  submitButton s = Some btn -> btn < length (nodes b) ->
  disabledOf (onSettled s b) btn = false /\ innerHTMLOf (onSettled s b) btn = idleLabel.
Proof.
  intros Hb Hlt. unfold onSettled. rewrite Hb.
  unfold disabledOf, innerHTMLOf, setInnerHTML, setDisabled.
  rewrite !from_option_update, !decide_True by reflexivity.
  apply lookup_lt_is_Some in Hlt as [e ->]. split; reflexivity.
Qed.

End SuccessBranch.

(** ** The business type selector *)

Section SelectorFacts.
Import Dom Spec Script.BusinessTypeSelector.

Lemma deactivate_all l : forall b j,
  hasClass (fold_left (fun b c => classList_remove c "active" b) l b) j "active"
  = if bool_decide (j ∈ l) then false else hasClass b j "active".
Proof.
  induction l as [|a l IH]; intros b j; cbn [fold_left].
  - reflexivity.
  - rewrite IH.
    assert (Hstep : hasClass (classList_remove a "active" b) j "active"
                    = if decide (a = j) then false else hasClass b j "active").
    { rewrite !hasClass_alt. unfold classList_remove. rewrite from_option_update.
      destruct (decide (a = j)); [|reflexivity].
      destruct (nodes b !! j); simpl; [|reflexivity].
      apply bool_decide_eq_false_2, active_after_remove. }
    rewrite Hstep.
    destruct (decide (a = j)) as [->|Hne].
    + rewrite (bool_decide_eq_true_2 (j ∈ j :: l)) by left.
      destruct (bool_decide (j ∈ l)); reflexivity.
    + destruct (bool_decide (j ∈ l)) eqn:E.
      * apply bool_decide_eq_true in E.
        rewrite (bool_decide_eq_true_2 (j ∈ a :: l)) by (right; exact E).
        reflexivity.
      * apply bool_decide_eq_false in E.
        rewrite (bool_decide_eq_false_2 (j ∈ a :: l)); [reflexivity|].
        intros H. apply elem_of_cons in H as [->|H]; contradiction.
Qed.

Lemma deactivate_all_agree {A} (p : Element -> A) l b :
  (forall e c, p (set_classList c e) = p e) ->
  agree p b (fold_left (fun b c => classList_remove c "active" b) l b).
Proof.
  intros Hp. apply agree_fold. intros b' x. apply agree_update. intros e. apply Hp.
Qed.

Lemma onCardClick_agree {A} (p : Element -> A) s card b :
  (forall e v, p (set_value v e) = p e) ->
  (forall e c, p (set_classList c e) = p e) ->
  agree p b (onCardClick s card b).
Proof.
  intros Hv Hc. unfold onCardClick.
  eapply agree_trans; [apply (deactivate_all_agree p (businessTypeCards s) b Hc)|].
  eapply agree_trans; apply agree_update; intros e; [apply Hc | apply Hv].
Qed.

Lemma selectAll_agree {A} (p : Element -> A) s cards b :
  (forall e v, p (set_value v e) = p e) ->
  (forall e c, p (set_classList c e) = p e) ->
  agree p b (selectAll s cards b).
Proof.
  intros Hv Hc. apply agree_fold. intros b' x. apply onCardClick_agree; assumption.
Qed.

(** One click on a card. *)
Lemma onCardClick_spec s card b :
  card ∈ businessTypeCards s ->
  card < length (nodes b) ->
  businessTypeInput s < length (nodes b) ->
  (forall c, c ∈ businessTypeCards s ->
     hasClass (onCardClick s card b) c "active" = bool_decide (c = card)) /\
  valueOf (onCardClick s card b) (businessTypeInput s)
  = orDental (getAttribute b card "data-type").
Proof.
  intros Hcard Hlt Hin. unfold onCardClick.
  set (b1 := fold_left (fun b c => classList_remove c "active" b) (businessTypeCards s) b).
  assert (Hlen : length (nodes b1) = length (nodes b)).
  { symmetry. apply (agree_length parentNode), deactivate_all_agree. reflexivity. }
  assert (Hattr : getAttribute (classList_add card "active" b1) card "data-type"
                  = getAttribute b card "data-type").
  { symmetry. apply getAttribute_agree.
    eapply agree_trans; [apply deactivate_all_agree; reflexivity|].
    apply agree_update. reflexivity. }
  rewrite Hattr. split.
  - intros c Hc.
    rewrite <- (hasClass_agree "active" (classList_add card "active" b1))
      by (apply agree_update; reflexivity).
    rewrite hasClass_alt. unfold classList_add. rewrite from_option_update.
    destruct (decide (card = c)) as [->|Hne].
    + rewrite bool_decide_eq_true_2 by reflexivity.
      rewrite <- Hlen in Hlt. apply lookup_lt_is_Some in Hlt as [e ->]. simpl.
      apply bool_decide_eq_true_2, active_after_add.
    + rewrite (bool_decide_eq_false_2 (c = card)) by congruence.
      rewrite <- hasClass_alt. unfold b1. rewrite deactivate_all.
      rewrite bool_decide_eq_true_2 by exact Hc. reflexivity.
  - unfold valueOf, setValue. rewrite from_option_update.
    rewrite decide_True by reflexivity.
    assert (Hlt' : businessTypeInput s < length (nodes (classList_add card "active" b1))).
    { unfold classList_add. rewrite update_length, Hlen. exact Hin. }
    apply lookup_lt_is_Some in Hlt' as [e ->]. reflexivity.
Qed.

End SelectorFacts.

(** ** Initialization *)

Section InitFacts.
Import Dom Spec Script.

Lemma initPreloader_ok b :
  Preloader.initPreloader b = Ok (getElementById b "preloader").
Proof. unfold Preloader.initPreloader. destruct (getElementById b "preloader"); reflexivity. Qed.

Lemma initStickyNavbar_ok b :
  StickyNavbar.initStickyNavbar b = Ok (getElementById b "navbar").
Proof. unfold StickyNavbar.initStickyNavbar. destruct (getElementById b "navbar"); reflexivity. Qed.

Lemma initMobileNav_ok b :
  MobileNav.initMobileNav b =
  Ok (match getElementById b "nav-toggle", getElementById b "nav-menu" with
      | Some t, Some m =>
          Some (MobileNav.mkState t m (querySelectorAllIn b m (STag "a")) false)
      | _, _ => None
      end).
Proof.
  unfold MobileNav.initMobileNav.
  destruct (getElementById b "nav-toggle"), (getElementById b "nav-menu"); reflexivity.
Qed.

Lemma initSmoothNavigation_ok b :
  exists s, SmoothNavigation.initSmoothNavigation b = Ok s.
Proof.
  unfold SmoothNavigation.initSmoothNavigation.
  destruct (length _ =? 0)%nat; eauto.
Qed.

Lemma initBusinessTypeSelector_ok b :
  BusinessTypeSelector.initBusinessTypeSelector b =
  Ok (match getElementById b "business-type",
            querySelectorAll b (SClass "business-type-card") with
      | Some i, c :: cards => Some (BusinessTypeSelector.mkState (c :: cards) i)
      | _, _ => None
      end).
Proof.
  unfold BusinessTypeSelector.initBusinessTypeSelector.
  destruct (getElementById b "business-type");
    destruct (querySelectorAll b (SClass "business-type-card")); reflexivity.
Qed.

Lemma initContactForm_ok b :
  ContactForm.initContactForm b =
  Ok (match getElementById b "contact-form" with
      | Some f =>
          Some (ContactForm.mkState f
                  (querySelectorIn b f (SClass "btn-submit"))
                  (getElementById b "form-success")
                  (querySelectorAllIn b f (SOr (STag "input") (STag "textarea"))))
      | None => None
      end).
Proof.
  unfold ContactForm.initContactForm.
  destruct (getElementById b "contact-form"); reflexivity.
Qed.

Lemma initCalendlyModal_ok b :
  CalendlyModal.initCalendlyModal b =
  Ok (match getElementById b "calendly-trigger", getElementById b "calendly-modal" with
      | Some t, Some m =>
          (setAttribute m "aria-hidden" "true" b,
           Some (CalendlyModal.mkState t m (getElementById b "calendly-iframe")
                   (querySelectorAllIn b m (SHas "data-close-modal"))
                   false [] None None false))
      | _, _ => (b, None)
      end).
Proof.
  unfold CalendlyModal.initCalendlyModal.
  destruct (getElementById b "calendly-trigger"), (getElementById b "calendly-modal");
    reflexivity.
Qed.

(** What [init] returns. *)
Lemma init_ok b :
  exists s,
    SmoothNavigation.initSmoothNavigation b = Ok s /\
    init b =
    Ok (mkPage
          (match getElementById b "calendly-trigger", getElementById b "calendly-modal" with
           | Some _, Some m => setAttribute m "aria-hidden" "true" b
           | _, _ => b
           end)
          (getElementById b "preloader")
          (getElementById b "navbar")
          (match getElementById b "nav-toggle", getElementById b "nav-menu" with
           | Some t, Some m =>
               Some (MobileNav.mkState t m (querySelectorAllIn b m (STag "a")) false)
           | _, _ => None
           end)
          s
          (match getElementById b "business-type",
                 querySelectorAll b (SClass "business-type-card") with
           | Some i, c :: cards => Some (BusinessTypeSelector.mkState (c :: cards) i)
           | _, _ => None
           end)
          (match getElementById b "contact-form" with
           | Some f =>
               Some (ContactForm.mkState f
                       (querySelectorIn b f (SClass "btn-submit"))
                       (getElementById b "form-success")
                       (querySelectorAllIn b f (SOr (STag "input") (STag "textarea"))))
           | None => None
           end)
          (match getElementById b "calendly-trigger", getElementById b "calendly-modal" with
           | Some t, Some m =>
               Some (CalendlyModal.mkState t m (getElementById b "calendly-iframe")
                       (querySelectorAllIn b m (SHas "data-close-modal"))
                       false [] None None false)
           | _, _ => None
           end)).
Proof.
  destruct (initSmoothNavigation_ok b) as [s Hs]. exists s. split; [exact Hs|].
  unfold init.
  rewrite initPreloader_ok, initStickyNavbar_ok, initMobileNav_ok, Hs,
    initBusinessTypeSelector_ok, initContactForm_ok, initCalendlyModal_ok.
  simpl.
  destruct (getElementById b "calendly-trigger"), (getElementById b "calendly-modal");
    reflexivity.
Qed.

(** [init] writes one attribute at most: values and classes are those of
    the markup. *)
Lemma init_agree {A} (p : Element -> A) b page :
  (forall e a, p (set_attributes a e) = p e) ->
  init b = Ok page -> agree p b (browser page).
Proof.
  intros Hp. destruct (init_ok b) as (s & _ & ->). intros [= <-]. simpl.
  destruct (getElementById b "calendly-trigger"), (getElementById b "calendly-modal");
    try apply agree_refl.
  apply agree_update. intros e. apply Hp.
Qed.

(** The links captured by the mobile menu lie inside the panel. *)
Lemma initMobileNav_links b s t :
  MobileNav.initMobileNav b = Ok (Some s) ->
  t ∈ MobileNav.navLinks s ->
  contains b (MobileNav.navMenu s) t = true.
Proof.
  rewrite initMobileNav_ok.
  destruct (getElementById b "nav-toggle"), (getElementById b "nav-menu");
    intros [= <-]. simpl. intros Ht.
  apply querySelectorAllIn_elem in Ht as (_ & Hd & _).
  unfold contains. rewrite Hd. apply orb_true_r.
Qed.

(** The modal starts closed, with its latch down. *)
Lemma initCalendlyModal_fresh b b' s :
  CalendlyModal.initCalendlyModal b = Ok (b', Some s) ->
  CalendlyModal.isModalOpen s = false /\
  CalendlyModal.iframeSrcSet s = false /\
  CalendlyModal.iframe s = getElementById b "calendly-iframe" /\
  log b' = log b.
Proof.
  rewrite initCalendlyModal_ok.
  destruct (getElementById b "calendly-trigger"), (getElementById b "calendly-modal");
    intros [= <- <-]. repeat split.
Qed.

End InitFacts.

(** ** The modal *)

Section ModalFacts.
Import Dom Spec Script.CalendlyModal.

Ltac modal_cases :=
  repeat match goal with
         | st : (State * Browser)%type |- _ => destruct st as [? ?]
         | a : Action |- _ => destruct a
         end;
  unfold step, onTriggerClick, onKeydown, openModal, closeModal,
    updateFocusableElements, focus in *; simpl in *;
  repeat case_match;
  unfold set_iframeSrcSet, set_isModalOpen, set_focusable in *;
  simpl in *; simplify_eq; simpl in *; try reflexivity; try congruence.

Lemma srcAssignments_app l1 l2 :
  srcAssignments (l1 ++ l2) = srcAssignments l1 + srcAssignments l2.
Proof. unfold srcAssignments. rewrite List.filter_app, length_app. reflexivity. Qed.

Lemma closeModal_focus st :
  activeElement (snd (closeModal st))
  = if canFocus (snd (closeModal st)) (trigger (fst st))
    then Some (trigger (fst st))
    else activeElement (snd st).
Proof.
  destruct st as [s b]. unfold closeModal. cbn [fst snd].
  rewrite focus_active. reflexivity.
Qed.

Lemma step_trigger st a : trigger (fst (step st a)) = trigger (fst st).
Proof. modal_cases. Qed.

Lemma step_iframe st a : iframe (fst (step st a)) = iframe (fst st).
Proof. modal_cases. Qed.

Lemma step_modal st a : modal (fst (step st a)) = modal (fst st).
Proof. modal_cases. Qed.

Lemma run_trigger acts : forall st, trigger (fst (run acts st)) = trigger (fst st).
Proof.
  induction acts as [|a acts IH]; intros st; [reflexivity|].
  unfold run in *. cbn [fold_left]. rewrite IH. apply step_trigger.
Qed.

Lemma run_iframe acts : forall st, iframe (fst (run acts st)) = iframe (fst st).
Proof.
  induction acts as [|a acts IH]; intros st; [reflexivity|].
  unfold run in *. cbn [fold_left]. rewrite IH. apply step_iframe.
Qed.

Lemma run_app l1 l2 st : run (l1 ++ l2) st = run l2 (run l1 st).
Proof. unfold run. apply fold_left_app. Qed.

Lemma hasFrame_step st a : hasFrame (fst (step st a)) = hasFrame (fst st).
Proof. unfold hasFrame. rewrite step_iframe. reflexivity. Qed.

(** The latch after one step. *)
Lemma step_latch st a :
  iframeSrcSet (fst (step st a))
  = iframeSrcSet (fst st) || (hasFrame (fst st) && is_open a).
Proof.
  destruct st as [s b]. unfold hasFrame. simpl.
  destruct (iframeSrcSet s) eqn:El, (iframe s) eqn:Ef; modal_cases;
    rewrite ?El, ?Ef in *; simpl in *; congruence.
Qed.

(** The source assignments logged by one step. *)
Lemma step_assignments st a :
  srcAssignments (log (snd (step st a)))
  = srcAssignments (log (snd st))
    + (if negb (iframeSrcSet (fst st)) && hasFrame (fst st) && is_open a then 1 else 0).
Proof.
  destruct st as [s b]. unfold hasFrame. simpl.
  destruct (iframeSrcSet s) eqn:El, (iframe s) eqn:Ef; modal_cases;
    rewrite ?El, ?Ef in *; simpl in *; try congruence;
    rewrite ?srcAssignments_app;
    try (change (srcAssignments [LoadFrame n calendlyUrl]) with 1); lia.
Qed.

Lemma run_latch acts : forall st,
  iframeSrcSet (fst (run acts st))
  = iframeSrcSet (fst st) || (hasFrame (fst st) && existsb is_open acts).
Proof.
  induction acts as [|a acts IH]; intros st.
  - simpl. rewrite andb_false_r, orb_false_r. reflexivity.
  - unfold run in *. cbn [fold_left existsb]. rewrite IH, step_latch, hasFrame_step.
    destruct (iframeSrcSet (fst st)), (hasFrame (fst st)), (is_open a),
      (existsb is_open acts); reflexivity.
Qed.

Lemma run_assignments acts : forall st,
  srcAssignments (log (snd (run acts st)))
  = srcAssignments (log (snd st))
    + (if negb (iframeSrcSet (fst st)) && hasFrame (fst st) && existsb is_open acts
       then 1 else 0).
Proof.
  induction acts as [|a acts IH]; intros st.
  - simpl. rewrite andb_false_r. lia.
  - unfold run in *. cbn [fold_left existsb].
    rewrite IH, step_assignments, step_latch, hasFrame_step.
    destruct (iframeSrcSet (fst st)), (hasFrame (fst st)), (is_open a),
      (existsb is_open acts); simpl; lia.
Qed.

(** The first open loads the frame. *)
Lemma openModal_loads s b f :
  iframe s = Some f -> iframeSrcSet s = false ->
  log (snd (openModal (s, b))) = log b ++ [LoadFrame f calendlyUrl].
Proof. intros Hf Hl. modal_cases; rewrite ?Hl in *; simpl in *; congruence. Qed.

(** What [openModal] leaves behind. *)
Lemma openModal_focusable s b :
  let st := openModal (s, b) in
  isModalOpen (fst st) = true /\
  focusableElements (fst st)
  = querySelectorAllIn (snd st) (modal s) focusableSelector /\
  firstFocusableElement (fst st) = head (focusableElements (fst st)) /\
  lastFocusableElement (fst st) = last (focusableElements (fst st)) /\
  activeElement (snd st)
  = match head (focusableElements (fst st)) with
    | Some f => if canFocus (snd st) f then Some f else activeElement b
    | None => activeElement b
    end.
Proof.
  unfold openModal, updateFocusableElements. simpl.
  destruct (iframe s) as [f|]; [destruct (iframeSrcSet s)|]; simpl;
    match goal with
    | |- context [head ?l] => destruct (head l) eqn:E
    end; simpl; rewrite ?E; repeat split; try reflexivity;
    first [ rewrite focus_active; reflexivity
          | apply querySelectorAllIn_agree; apply agree_nodes;
            rewrite ?focus_nodes; reflexivity ].
Qed.

End ModalFacts.

(** ** The mobile menu *)

Section NavFacts.
Import Dom Spec Script.MobileNav.

Lemma closeMenu_isOpen st : isOpen (fst (closeMenu st)) = false.
Proof. destruct st. reflexivity. Qed.

Lemma closeMenu_navToggle st : navToggle (fst (closeMenu st)) = navToggle (fst st).
Proof. destruct st. reflexivity. Qed.

Lemma closeMenu_navMenu st : navMenu (fst (closeMenu st)) = navMenu (fst st).
Proof. destruct st. reflexivity. Qed.

Lemma closeMenu_navLinks st : navLinks (fst (closeMenu st)) = navLinks (fst st).
Proof. destruct st. reflexivity. Qed.

Lemma closeMenu_innerWidth st : innerWidth (snd (closeMenu st)) = innerWidth (snd st).
Proof. destruct st. unfold closeMenu. cbn [snd]. rewrite focus_width. reflexivity. Qed.

Lemma closeMenu_inactive st :
  hasClass (snd (closeMenu st)) (navMenu (fst st)) "active" = false.
Proof.
  destruct st as [s b]. unfold closeMenu. cbn [fst snd].
  change (navMenu (set_isOpen false s)) with (navMenu s).
  change (navToggle (set_isOpen false s)) with (navToggle s).
  set (b1 := setAttribute (navToggle s) "aria-expanded" "false" b).
  transitivity (hasClass (classList_remove (navMenu s) "active" b1) (navMenu s) "active").
  { apply hasClass_agree, agree_nodes. rewrite focus_nodes. reflexivity. }
  rewrite hasClass_alt. unfold classList_remove.
  rewrite from_option_update, decide_True by reflexivity.
  destruct (nodes b1 !! navMenu s); simpl; [|reflexivity].
  apply bool_decide_eq_false_2, active_after_remove.
Qed.

Lemma closeMenu_closed st : closed (closeMenu st).
Proof.
  split; [apply closeMenu_isOpen|]. rewrite closeMenu_navMenu. apply closeMenu_inactive.
Qed.

(** A node of the path that is not the toggle runs the link listener at
    most. *)
Lemma clickAt_not_toggle st node :
  node <> navToggle (fst st) ->
  clickAt st node =
  if bool_decide (node ∈ navLinks (fst st)) then onNavLinkClick st else st.
Proof.
  intros Hne. unfold clickAt.
  rewrite (bool_decide_eq_false_2 (node = navToggle (fst st))) by exact Hne.
  reflexivity.
Qed.

(** At a desktop width the listeners on the path do nothing. *)
Lemma fold_clickAt_desktop path : forall st,
  (767 < innerWidth (snd st))%Z ->
  navToggle (fst st) ∉ path ->
  fold_left clickAt path st = st.
Proof.
  induction path as [|n path IH]; intros st Hw Ht; cbn [fold_left]; [reflexivity|].
  apply not_elem_of_cons in Ht as [Hne Ht].
  assert (Hstep : clickAt st n = st).
  { rewrite clickAt_not_toggle by congruence. unfold onNavLinkClick.
    destruct (bool_decide _); [|reflexivity].
    destruct (innerWidth (snd st) <=? 767)%Z eqn:E; [|reflexivity].
    apply Z.leb_le in E. lia. }
  rewrite Hstep. apply IH; assumption.
Qed.

(** At a mobile width, once the menu is closed the rest of the path keeps
    it closed. *)
Lemma fold_clickAt_closed path : forall st,
  navToggle (fst st) ∉ path -> closed st -> closed (fold_left clickAt path st).
Proof.
  induction path as [|n path IH]; intros st Ht Hc; cbn [fold_left]; [exact Hc|].
  apply not_elem_of_cons in Ht as [Hne Ht].
  rewrite clickAt_not_toggle by congruence. unfold onNavLinkClick.
  destruct (bool_decide _); [|apply IH; assumption].
  destruct (innerWidth (snd st) <=? 767)%Z; [|apply IH; assumption].
  apply IH; [rewrite closeMenu_navToggle; exact Ht | apply closeMenu_closed].
Qed.

Lemma fold_clickAt_navMenu path : forall st,
  navToggle (fst st) ∉ path ->
  navMenu (fst (fold_left clickAt path st)) = navMenu (fst st).
Proof.
  induction path as [|n path IH]; intros st Ht; cbn [fold_left]; [reflexivity|].
  apply not_elem_of_cons in Ht as [Hne Ht].
  rewrite clickAt_not_toggle by congruence. unfold onNavLinkClick.
  destruct (bool_decide _); [|apply IH; assumption].
  destruct (innerWidth (snd st) <=? 767)%Z; [|apply IH; assumption].
  rewrite IH by (rewrite closeMenu_navToggle; exact Ht). apply closeMenu_navMenu.
Qed.

Lemma onDocumentClick_closed target st :
  isOpen (fst st) = false -> onDocumentClick target st = st.
Proof. destruct st as [s b]. simpl. intros ->. reflexivity. Qed.

Lemma onDocumentClick_inside target st :
  contains (snd st) (navMenu (fst st)) target = true ->
  onDocumentClick target st = st.
Proof.
  destruct st as [s b]. simpl. intros ->.
  rewrite andb_false_r. reflexivity.
Qed.

Lemma contains_false b r i :
  contains b r i = false -> r <> i /\ r ∉ ancestors b i.
Proof.
  unfold contains, isDescendant. rewrite orb_false_iff.
  intros [H1 H2]. apply bool_decide_eq_false in H1, H2. tauto.
Qed.

End NavFacts.

(** * The claims *)

(** ** Contact form: validation *)

Section ValidationClaims.
Import Dom Spec Samples Script.ContactForm.

(** C2, as stated, fails: a form whose address field is empty and not
    required passes validation although the empty string is not of the
    shape [local@domain.tld]. *)
Lemma C2_counterexample :
  fst (validateForm contactState (page "Bob" EmptyString EmptyString)) = true /\
  emailField contactState (page "Bob" EmptyString EmptyString) = Some 2 /\
  ~ local_at_domain_tld (valueOf (page "Bob" EmptyString EmptyString) 2).
Proof.
  split; [vm_compute; reflexivity|]. split; [vm_compute; reflexivity|].
  apply test_false_not_shape. vm_compute. reflexivity.
Qed.

(** C2 (amended).  For every form snapshot, validation succeeds iff every
    required field is non-empty after trimming and the address field is
    absent, empty, or of the shape [local@domain.tld]; an address field
    holding "a@b", "a.com" or "a@@b.com" fails validation; a failing submit
    makes no network call; every required field that is blank and an
    address field that is rejected are flagged, and every required field
    that passes has its flag cleared. *)
Theorem C2_validateForm_spec (s : State) (b : Browser) :
  (fst (validateForm s b) = true <->
     (forall f, f ∈ requiredFields s b -> Str.trim (valueOf b f) <> EmptyString) /\
     (forall e, emailField s b = Some e ->
        valueOf b e = EmptyString \/ local_at_domain_tld (valueOf b e))) /\
  (forall e, emailField s b = Some e ->
     valueOf b e ∈ ["a@b"; "a.com"; "a@@b.com"] ->
     fst (validateForm s b) = false) /\
  (forall r, fst (validateForm s b) = false ->
     networkCalls (log (onSubmit s r b)) = networkCalls (log b)) /\
  (forall f, f ∈ requiredFields s b -> Str.trim (valueOf b f) = EmptyString ->
     borderColorOf (snd (validateForm s b)) f = errorColor) /\
  (forall e, emailField s b = Some e -> valueOf b e <> EmptyString ->
     ~ local_at_domain_tld (valueOf b e) ->
     borderColorOf (snd (validateForm s b)) e = errorColor) /\
  (forall f, f ∈ requiredFields s b -> Str.trim (valueOf b f) <> EmptyString ->
     email_rejected s b f = false ->
     borderColorOf (snd (validateForm s b)) f = EmptyString).
Proof.
  split; [|split; [|split; [|split; [|split]]]].
  - rewrite validateForm_verdict, andb_true_iff, forallb_nonblank, email_ok_iff.
    reflexivity.
  - intros e He Hv. rewrite validateForm_verdict. apply andb_false_iff. right.
    unfold email_ok. rewrite He.
    repeat (apply elem_of_cons in Hv as [->|Hv]; [vm_compute; reflexivity|]).
    inversion Hv.
  - intros r Hv. unfold onSubmit. rewrite (onSubmit_begin_invalid _ _ Hv).
    destruct (validateForm_same s b) as (_ & _ & _ & _ & _ & <- & _). reflexivity.
  - intros f Hf Ht. apply querySelectorAllIn_elem in Hf as Hlt. destruct Hlt as [Hlt _].
    rewrite validateForm_flags by exact Hlt.
    destruct (email_rejected s b f); [reflexivity|].
    rewrite bool_decide_eq_true_2 by exact Hf.
    unfold nonblank. apply trim_empty_blank in Ht. rewrite Ht. reflexivity.
  - intros e He Hne Hns. apply querySelectorIn_elem in He as Hlt. destruct Hlt as [Hlt _].
    rewrite validateForm_flags by exact Hlt. unfold email_rejected. rewrite He.
    rewrite bool_decide_eq_true_2 by reflexivity.
    apply truthy_true in Hne. rewrite Hne. simpl.
    destruct (Regex.test emailRegex (valueOf b e)) eqn:Et; [|reflexivity].
    apply emailRegex_shape in Et. contradiction.
  - intros f Hf Ht Hr. apply querySelectorAllIn_elem in Hf as Hlt. destruct Hlt as [Hlt _].
    rewrite validateForm_flags by exact Hlt. rewrite Hr.
    rewrite bool_decide_eq_true_2 by exact Hf. unfold nonblank.
    destruct (Str.blank (valueOf b f)) eqn:E; [|reflexivity].
    apply trim_empty_blank in E. contradiction.
Qed.

(** The amended C2 at work: "a@b" in the address field fails validation. *)
Lemma C2_witness :
  fst (validateForm contactState (page "Bob" "a@b" EmptyString)) = false.
Proof.
  apply (proj1 (proj2 (C2_validateForm_spec contactState (page "Bob" "a@b" EmptyString))) 2).
  - vm_compute. reflexivity.
  - left.
Defined.

(** C10.  When the address field is empty the format check is skipped:
    the verdict of validation is that of the required-field check alone,
    the address check leaves the field's flag alone, and when the required
    fields pass (the honeypot left empty) the submit goes on to its one
    network call. *)
Theorem C10_empty_email_skips_format_check (s : State) (b : Browser) (e : nat) :
  emailField s b = Some e ->
  valueOf b e = EmptyString ->
  fst (validateForm s b) = forallb (nonblank b) (requiredFields s b) /\
  (e ∉ requiredFields s b ->
     borderColorOf (snd (validateForm s b)) e = borderColorOf b e) /\
  (forallb (nonblank b) (requiredFields s b) = true ->
     honeypot_filled s b = false ->
     snd (onSubmit_begin s b) = true /\
     networkCalls (log (fst (onSubmit_begin s b))) = S (networkCalls (log b))).
Proof.
  intros He Hv.
  assert (Hok : email_ok s b = true).
  { unfold email_ok. rewrite He, Hv. reflexivity. }
  assert (Hverdict : fst (validateForm s b) = forallb (nonblank b) (requiredFields s b)).
  { rewrite validateForm_verdict, Hok, andb_true_r. reflexivity. }
  split; [exact Hverdict|]. split.
  - intros Hnr. apply querySelectorIn_elem in He as Hlt. destruct Hlt as [Hlt _].
    rewrite validateForm_flags by exact Hlt.
    unfold email_rejected. rewrite He, Hv. simpl. rewrite andb_false_r.
    rewrite bool_decide_eq_false_2 by exact Hnr. reflexivity.
  - intros Hreq Hh. rewrite <- Hverdict in Hreq.
    destruct (onSubmit_begin_send s b Hreq Hh) as (Hp & url & body & b1 & Hlog & _).
    split; [exact Hp|]. rewrite Hlog, networkCalls_app.
    change (networkCalls [Fetch url body]) with 1. lia.
Qed.

(** C10 at work on the sample page: name given, address left empty. *)
Lemma C10_witness :
  fst (validateForm contactState (page "Bob" EmptyString EmptyString)) = true.
Proof.
  rewrite (proj1 (C10_empty_email_skips_format_check contactState
                    (page "Bob" EmptyString EmptyString) 2 eq_refl eq_refl)).
  vm_compute. reflexivity.
Defined.

(** ** Contact form: the honeypot *)

(** C1, as stated, fails: with the honeypot filled and the required name
    left empty, the submit flags the name field, which the submitter can
    see. *)
Lemma C1_counterexample :
  honeypot_filled contactState (page EmptyString "a@b.c" "bot") = true /\
  ~ no_feedback (page EmptyString "a@b.c" "bot")
      (onSubmit contactState (Response 200) (page EmptyString "a@b.c" "bot")).
Proof.
  split; [vm_compute; reflexivity|]. intros [H _].
  apply (f_equal (fun n => borderColor <$> n !! 1)) in H.
  vm_compute in H. discriminate H.
Qed.

(** C1 (amended).  When the honeypot field is present and non-empty, the
    submit makes no network call whatever the other fields hold, shows no
    notice, and leaves the page as validation alone leaves it: nothing but
    the validation flags of the fields can differ. *)
Theorem C1_honeypot_abandons (s : State) (b : Browser) (r : FetchOutcome) :
  honeypot_filled s b = true ->
  networkCalls (log (onSubmit s r b)) = networkCalls (log b) /\
  log (onSubmit s r b) = log b /\
  onSubmit s r b = snd (validateForm s b) /\
  same_but_flags b (onSubmit s r b).
Proof.
  intros H. unfold onSubmit. rewrite (onSubmit_begin_honeypot _ _ H).
  pose proof (validateForm_same s b) as Hs.
  destruct Hs as (Ha & Hb & Hc & Hd & He & Hlog & Hf).
  rewrite <- Hlog. repeat split; assumption.
Qed.

(** C1 at work: a bot that fills every field, the honeypot included. *)
Lemma C1_witness :
  log (onSubmit contactState (Response 200) (page "Bob" "a@b.c" "bot")) = [].
Proof.
  apply (C1_honeypot_abandons contactState (page "Bob" "a@b.c" "bot") (Response 200)).
  vm_compute. reflexivity.
Defined.

End ValidationClaims.

(** ** Contact form: the outcome of a request *)

Section OutcomeClaims.
Import Dom Spec Samples Script.ContactForm.

Lemma onSubmit_resume_success s b status :
  response_ok status = true ->
  onSubmit_resume s (Response status) b = onSettled s (onSuccess s b).
Proof. intros H. unfold onSubmit_resume. rewrite H. reflexivity. Qed.

Lemma onSubmit_resume_failure s b r :
  r = NetworkFailure \/ (exists status, r = Response status /\ response_ok status = false) ->
  onSubmit_resume s r b = onSettled s (onFailure b).
Proof.
  intros [->|(status & -> & H)]; unfold onSubmit_resume; [|rewrite H]; reflexivity.
Qed.

Lemma onSubmit_resume_length s r b :
  length (nodes (onSubmit_resume s r b)) = length (nodes b).
Proof.
  unfold onSubmit_resume.
  rewrite <- (agree_length parentNode _ _ (onSettled_agree parentNode s _
                ltac:(reflexivity) ltac:(reflexivity))).
  destruct r as [status|]; [destruct (response_ok status)|];
    [apply onSuccess_length | reflexivity | reflexivity].
Qed.

Lemma ancestors_lt b r i : r ∈ ancestors b i -> i < length (nodes b).
Proof.
  unfold ancestors. destruct (length (nodes b)) as [|n] eqn:E; simpl.
  - intros H. inversion H.
  - unfold parentOf. destruct (nodes b !! i) as [e|] eqn:Ei; simpl.
    + intros _. rewrite <- E. apply lookup_lt_is_Some. eauto.
    + intros H. inversion H.
Qed.

Lemma controls_ancestors b f i : i ∈ controls b f <-> f ∈ ancestors b i.
Proof.
  rewrite controls_elem. unfold isDescendant. rewrite bool_decide_eq_true.
  split; [tauto|]. intros H. split; [eapply ancestors_lt; exact H | exact H].
Qed.

(** Outside the cards the success branch leaves the class "active" alone. *)
Lemma onSuccess_noncard s b j :
  j ∉ querySelectorAll b (SClass "business-type-card") ->
  hasClass (onSuccess s b) j "active" = hasClass b j "active".
Proof.
  intros Hj. rewrite onSuccess_unfold, fold_resetCard_hasActive, cards_beforeCards.
  rewrite bool_decide_eq_false_2 by exact Hj.
  symmetry. apply hasClass_agree, beforeCards_class. discriminate.
Qed.

(** C3, as stated, fails on a page that has no card whose data-type is
    "dental": on the third sample page, whose cards are one without a
    data-type and one for "medical", a submit that reaches the request and
    gets a 200 response shows the success message and sets the hidden
    field to "dental", and leaves no card active. *)
Lemma C3_counterexample :
  networkCalls (log (onSubmit noDentalForm (Response 200) noDental)) = 1 /\
  hasClass (onSubmit noDentalForm (Response 200) noDental) 3 "show" = true /\
  valueOf (onSubmit noDentalForm (Response 200) noDental) 4 = "dental" /\
  querySelectorAll (onSubmit noDentalForm (Response 200) noDental)
    (SClass "business-type-card") = [5; 6] /\
  hasClass (onSubmit noDentalForm (Response 200) noDental) 5 "active" = false /\
  hasClass (onSubmit noDentalForm (Response 200) noDental) 6 "active" = false.
Proof. repeat split; vm_compute; reflexivity. Qed.

(** C3 (amended).  Once the request of a submit attempt settles: a status
    from 200 to 299 shows the success message, gives every element inside
    the form its default value back and leaves the values outside the
    form alone, sets the business-type field to "dental", leaves active
    exactly the cards whose data-type is "dental" (none when the page has
    no such card) and leaves the class alone on every other element, with
    no notice; any other status or a transport failure logs the error and
    raises the blocking notice and changes nothing on the page but the
    submit control; and in every case the submit control ends enabled
    with its idle label.  An attempt that passes validation with the
    honeypot unfilled is one that reaches the request. *)
Theorem C3_submit_outcomes (s : State) (b : Browser) (r : FetchOutcome) :
  (forall b0, fst (validateForm s b0) = true -> honeypot_filled s b0 = false ->
     onSubmit s r b0 = onSubmit_resume s r (fst (onSubmit_begin s b0)) /\
     networkCalls (log (fst (onSubmit_begin s b0))) = S (networkCalls (log b0))) /\
  (forall status, response_ok status = true <-> (200 <= status <= 299)%Z) /\
  (forall status, r = Response status -> response_ok status = true ->
     (forall m, successMessage s = Some m -> m < length (nodes b) ->
        hasClass (onSubmit_resume s r b) m "show" = true) /\
     (forall i, form s ∈ ancestors b i ->
        getElementById b "business-type" <> Some i ->
        valueOf (onSubmit_resume s r b) i = defaultValueOf b i) /\
     (forall i, form s ∉ ancestors b i ->
        getElementById b "business-type" <> Some i ->
        valueOf (onSubmit_resume s r b) i = valueOf b i) /\
     (forall i, getElementById b "business-type" = Some i ->
        valueOf (onSubmit_resume s r b) i = "dental") /\
     (forall c, c ∈ querySelectorAll b (SClass "business-type-card") ->
        hasClass (onSubmit_resume s r b) c "active"
        = bool_decide (getAttribute b c "data-type" = Some "dental")) /\
     (forall j, j ∉ querySelectorAll b (SClass "business-type-card") ->
        hasClass (onSubmit_resume s r b) j "active" = hasClass b j "active") /\
     log (onSubmit_resume s r b) = log b) /\
  ((r = NetworkFailure \/
    exists status, r = Response status /\ response_ok status = false) ->
     log (onSubmit_resume s r b)
     = log b ++ [ConsoleError "Form submission error:"; Alert errorNotice] /\
     nodes (onSubmit_resume s r b) = nodes (onSettled s b)) /\
  (forall btn, submitButton s = Some btn -> btn < length (nodes b) ->
     disabledOf (onSubmit_resume s r b) btn = false /\
     innerHTMLOf (onSubmit_resume s r b) btn = idleLabel).
Proof.
  split; [|split; [|split; [|split]]].
  - intros b0 Hv Hh.
    destruct (onSubmit_begin_send s b0 Hv Hh) as (Hp & url & body & b1 & Hlog & _).
    split.
    + unfold onSubmit. destruct (onSubmit_begin s b0) as [b2 p]. simpl in Hp.
      subst p. reflexivity.
    + rewrite Hlog, networkCalls_app.
      change (networkCalls [Fetch url body]) with 1. lia.
  - intros status. unfold response_ok. rewrite andb_true_iff, !Z.leb_le. reflexivity.
  - intros status -> Hok. rewrite (onSubmit_resume_success _ _ _ Hok).
    assert (Hval : forall i, valueOf (onSettled s (onSuccess s b)) i
                             = valueOf (onSuccess s b) i).
    { intros i. symmetry. apply valueOf_agree, onSettled_agree; reflexivity. }
    assert (Hcls : forall i x, hasClass (onSettled s (onSuccess s b)) i x
                               = hasClass (onSuccess s b) i x).
    { intros i x. symmetry. apply hasClass_agree, onSettled_agree; reflexivity. }
    split; [|split; [|split; [|split; [|split; [|split]]]]].
    + intros m Hm Hlt. rewrite Hcls. apply onSuccess_show; assumption.
    + intros i Hi Hne. rewrite Hval, onSuccess_value.
      rewrite bool_decide_eq_false_2 by exact Hne.
      rewrite bool_decide_eq_true_2 by (apply controls_ancestors, Hi). reflexivity.
    + intros i Hi Hne. rewrite Hval, onSuccess_value.
      rewrite bool_decide_eq_false_2 by exact Hne.
      rewrite bool_decide_eq_false_2; [reflexivity|].
      rewrite controls_ancestors. exact Hi.
    + intros i Hi. rewrite Hval, onSuccess_value.
      rewrite bool_decide_eq_true_2 by exact Hi. reflexivity.
    + intros c Hc. rewrite Hcls. apply onSuccess_cards, Hc.
    + intros j Hj. rewrite Hcls. apply onSuccess_noncard, Hj.
    + rewrite onSettled_log. apply onSuccess_log.
  - intros Hr. rewrite (onSubmit_resume_failure _ _ _ Hr). split.
    + rewrite onSettled_log. unfold onFailure. simpl. rewrite <- app_assoc. reflexivity.
    + unfold onSettled. destruct (submitButton s); reflexivity.
  - intros btn Hb Hlt.
    assert (Hlen : length (nodes (onSubmit_resume s r b)) = length (nodes b))
      by apply onSubmit_resume_length.
    unfold onSubmit_resume in *.
    apply onSettled_button; [exact Hb|].
    destruct r as [status|]; [destruct (response_ok status)|];
      [rewrite onSuccess_length; exact Hlt | exact Hlt | exact Hlt].
Qed.

(** C3 at work: a 500 response on the sample page leaves the submit
    control enabled. *)
Lemma C3_witness :
  disabledOf (onSubmit_resume contactState (Response 500)
                (fst (onSubmit_begin contactState (page "Bob" "a@b.c" EmptyString)))) 4
  = false.
Proof.
  apply (proj2 (proj2 (proj2 (proj2 (C3_submit_outcomes contactState
           (fst (onSubmit_begin contactState (page "Bob" "a@b.c" EmptyString)))
           (Response 500))))) 4).
  - reflexivity.
  - vm_compute. lia.
Defined.

End OutcomeClaims.

(** ** The business type selector *)

Section SelectorClaims.
Import Dom Spec Samples Script Script.BusinessTypeSelector.

(** C8, as stated, fails: the script sets no default when the page loads.
    On a page whose markup carries "medical" in the hidden field and marks
    the medical card active, initialization succeeds and, with no select
    made, the hidden field is not "dental" and the dental card is not
    active. *)
Lemma C8_counterexample :
  match init (page "Bob" "a@b.c" EmptyString) with
  | Ok p =>
      businessTypeSelector p = Some selectorState /\
      valueOf (browser p) 6 <> "dental" /\
      getAttribute (browser p) 7 "data-type" = Some "dental" /\
      hasClass (browser p) 7 "active" = false
  | Throw _ => False
  end.
Proof.
  vm_compute. split; [reflexivity|]. split; [discriminate|]. split; reflexivity.
Qed.

(** C8 (amended).  After any non-empty sequence of select operations,
    exactly one business-type card is active, the one selected last, and
    the hidden field holds that card's data-type, or "dental" when the
    card has none or an empty one.  With no select made the script leaves
    the active card and the hidden field as the markup has them.  After a
    successful submit the hidden field holds "dental" and the active cards
    are exactly those whose data-type is "dental". *)
Theorem C8_selector (s : State) (b : Browser) :
  (forall cards card,
     card ∈ businessTypeCards s -> card < length (nodes b) ->
     businessTypeInput s < length (nodes b) ->
     (forall c, c ∈ businessTypeCards s ->
        hasClass (selectAll s (cards ++ [card]) b) c "active" = bool_decide (c = card)) /\
     valueOf (selectAll s (cards ++ [card]) b) (businessTypeInput s)
     = orDental (getAttribute b card "data-type")) /\
  (selectAll s [] b = b /\
   forall p, init b = Ok p ->
     agree value b (browser p) /\ agree classList b (browser p)) /\
  (forall f,
     (forall i, getElementById b "business-type" = Some i ->
        valueOf (ContactForm.onSuccess f b) i = "dental") /\
     (forall c, c ∈ querySelectorAll b (SClass "business-type-card") ->
        hasClass (ContactForm.onSuccess f b) c "active"
        = bool_decide (getAttribute b c "data-type" = Some "dental"))).
Proof.
  split; [|split].
  - intros cards card Hcard Hlt Hin. unfold selectAll. rewrite fold_left_app.
    cbn [fold_left]. fold (selectAll s cards b).
    assert (Hlen : length (nodes (selectAll s cards b)) = length (nodes b)).
    { symmetry. apply (agree_length parentNode), selectAll_agree; reflexivity. }
    rewrite (getAttribute_agree b (selectAll s cards b))
      by (apply selectAll_agree; reflexivity).
    apply onCardClick_spec; [exact Hcard | rewrite Hlen; exact Hlt | rewrite Hlen; exact Hin].
  - split; [reflexivity|]. intros p Hp. split; apply (init_agree _ b p); auto.
  - intros f. split.
    + intros i Hi. rewrite onSuccess_value.
      rewrite bool_decide_eq_true_2 by exact Hi. reflexivity.
    + intros c Hc. apply onSuccess_cards, Hc.
Qed.

(** C8 at work: on the sample page, a click on the dental card after one
    on the medical card leaves "dental" in the hidden field. *)
Lemma C8_witness :
  valueOf (selectAll selectorState ([8] ++ [7]) (page "Bob" "a@b.c" EmptyString)) 6
  = "dental".
Proof.
  apply (proj1 (C8_selector selectorState (page "Bob" "a@b.c" EmptyString)) [8] 7).
  - left.
  - vm_compute. lia.
  - vm_compute. lia.
Defined.

End SelectorClaims.

(** ** Initialization *)

Section InitClaims.
Import Dom Spec Samples Script.

(** C9.  For every document, initialization returns without raising; each
    component is installed exactly when its own mount points are present
    (the preloader and the navbar listeners capture their element; the
    mobile menu needs the toggle and the menu, the selector the hidden
    field and at least one card, the form controller the form, the modal
    the trigger and the container), and when the modal is not installed
    the document is left as it was. *)
Theorem C9_init_never_throws (b : Browser) :
  exists p, init b = Ok p /\
    preloader p = getElementById b "preloader" /\
    stickyNavbar p = getElementById b "navbar" /\
    (is_Some (mobileNav p) <->
       is_Some (getElementById b "nav-toggle") /\ is_Some (getElementById b "nav-menu")) /\
    (is_Some (businessTypeSelector p) <->
       is_Some (getElementById b "business-type") /\
       querySelectorAll b (SClass "business-type-card") <> []) /\
    (is_Some (contactForm p) <-> is_Some (getElementById b "contact-form")) /\
    (is_Some (calendlyModal p) <->
       is_Some (getElementById b "calendly-trigger") /\
       is_Some (getElementById b "calendly-modal")) /\
    (calendlyModal p = None -> browser p = b).
Proof.
  destruct (init_ok b) as (s & _ & Hinit). eexists. split; [exact Hinit|]. simpl.
  split; [reflexivity|]. split; [reflexivity|].
  split; [|split; [|split; [|split]]].
  - destruct (getElementById b "nav-toggle"), (getElementById b "nav-menu");
      split; try (intros [[x Hx] [y Hy]]); try (intros [x Hx]);
      try discriminate; eauto.
  - destruct (getElementById b "business-type"),
      (querySelectorAll b (SClass "business-type-card"));
      split; try (intros [[x Hx] Hy]); try (intros [x Hx]);
      try discriminate; try congruence; eauto.
  - destruct (getElementById b "contact-form");
      split; try (intros [x Hx]); try discriminate; eauto.
  - destruct (getElementById b "calendly-trigger"), (getElementById b "calendly-modal");
      split; try (intros [[x Hx] [y Hy]]); try (intros [x Hx]);
      try discriminate; eauto.
  - destruct (getElementById b "calendly-trigger"), (getElementById b "calendly-modal");
      try reflexivity. discriminate.
Qed.

(** C9 at work: a document with no element at all. *)
Lemma C9_witness :
  exists p, init (mkBrowser [] [] None 1024 0 []) = Ok p /\ contactForm p = None.
Proof.
  destruct (C9_init_never_throws (mkBrowser [] [] None 1024 0 []))
    as (p & Hp & _ & _ & _ & _ & Hf & _).
  exists p. split; [exact Hp|].
  destruct (contactForm p) eqn:E; [|reflexivity].
  exfalso. destruct (proj1 Hf) as [x Hx]; [eauto|]. vm_compute in Hx. discriminate.
Defined.

End InitClaims.

(** ** The modal *)

Section ModalClaims.
Import Dom Spec Samples Script.CalendlyModal.

(** C4, as stated, fails: the script keeps no record of the element that
    had focus before an open.  With focus on the menu toggle (element 9 of
    the sample page) when the modal opens, the close that follows puts
    focus on the trigger, not back on the toggle. *)
Lemma C4_counterexample :
  activeElement (snd (run [MoveFocus (Some 9)]
                        (modalState, page "Bob" "a@b.c" EmptyString))) = Some 9 /\
  activeElement (snd (run [MoveFocus (Some 9); Open; Close]
                        (modalState, page "Bob" "a@b.c" EmptyString))) <> Some 9.
Proof. split; [reflexivity|]. vm_compute. discriminate. Qed.

(** C4 (amended).  After any sequence of operations, a close calls
    [focus] on the trigger element, and so does Escape while the modal is
    open: keyboard focus ends on the trigger when the trigger can take
    focus in the page as the close leaves it, and stays where it was
    otherwise.  Hence a close restores the focus of before an open whenever
    that open was made with focus on the trigger and the trigger can take
    focus at the close. *)
Theorem C4_close_focuses_trigger (acts : list Action) (st : State * Browser) :
  activeElement (snd (run (acts ++ [Close]) st))
  = (if canFocus (snd (run (acts ++ [Close]) st)) (trigger (fst st))
     then Some (trigger (fst st))
     else activeElement (snd (run acts st))) /\
  (forall shiftKey, isModalOpen (fst (run acts st)) = true ->
     activeElement (snd (run (acts ++ [Key "Escape" shiftKey]) st))
     = if canFocus (snd (run (acts ++ [Key "Escape" shiftKey]) st)) (trigger (fst st))
       then Some (trigger (fst st))
       else activeElement (snd (run acts st))) /\
  (forall mid, activeElement (snd (run acts st)) = Some (trigger (fst st)) ->
     canFocus (snd (run (acts ++ Open :: mid ++ [Close]) st)) (trigger (fst st)) = true ->
     activeElement (snd (run (acts ++ Open :: mid ++ [Close]) st))
     = activeElement (snd (run acts st))).
Proof.
  assert (Hclose : forall l,
            activeElement (snd (run (l ++ [Close]) st))
            = if canFocus (snd (run (l ++ [Close]) st)) (trigger (fst st))
              then Some (trigger (fst st))
              else activeElement (snd (run l st))).
  { intros l. rewrite run_app. unfold run at 1 3. cbn [fold_left step].
    rewrite closeModal_focus, run_trigger. reflexivity. }
  split; [apply Hclose|]. split.
  - intros shiftKey Hopen. rewrite run_app. unfold run at 1 3. cbn [fold_left step].
    rewrite <- (run_trigger acts st).
    assert (Hk : fst (onKeydown "Escape" shiftKey (run acts st))
                 = closeModal (run acts st)).
    { destruct (run acts st) as [s b]. simpl in Hopen.
      unfold onKeydown. cbn [fst]. rewrite Hopen. simpl.
      destruct (closeModal (s, b)). reflexivity. }
    rewrite Hk. apply closeModal_focus.
  - intros mid Ha Hc.
    change (acts ++ Open :: mid ++ [Close]) with (acts ++ (Open :: mid) ++ [Close]) in *.
    rewrite app_assoc in *. rewrite Hclose, Hc, Ha. reflexivity.
Qed.

(** C4 at work: opened with focus on the trigger (element 12), the modal
    gives focus back to it on close. *)
Lemma C4_witness :
  activeElement (snd (run ([MoveFocus (Some 12)] ++ Open :: [] ++ [Close])
                        (modalState, page "Bob" "a@b.c" EmptyString))) = Some 12.
Proof.
  rewrite (proj2 (proj2 (C4_close_focuses_trigger [MoveFocus (Some 12)]
                           (modalState, page "Bob" "a@b.c" EmptyString))) []).
  - reflexivity.
  - reflexivity.
  - vm_compute. reflexivity.
Defined.




(** C6.  With the frame present and the latch down, as initialization
    leaves them: over any sequence of operations the source of the frame
    is assigned once if the sequence has an open and never otherwise; the
    assignment is made by the first open and by no operation before or
    after it.  The latch never goes back down. *)
Theorem C6_src_assigned_once (s : State) (b : Browser) (f : nat) :
  iframe s = Some f -> iframeSrcSet s = false ->
  (forall acts,
     srcAssignments (log (snd (run acts (s, b))))
     = srcAssignments (log b) + (if existsb is_open acts then 1 else 0)) /\
  (forall pre post, existsb is_open pre = false ->
     srcAssignments (log (snd (run pre (s, b)))) = srcAssignments (log b) /\
     log (snd (run (pre ++ [Open]) (s, b)))
     = log (snd (run pre (s, b))) ++ [LoadFrame f calendlyUrl] /\
     srcAssignments (log (snd (run (pre ++ Open :: post) (s, b))))
     = srcAssignments (log b) + 1) /\
  (forall acts st, iframeSrcSet (fst st) = true ->
     iframeSrcSet (fst (run acts st)) = true).
Proof.
  intros Hf Hl.
  assert (Hcount : forall acts,
            srcAssignments (log (snd (run acts (s, b))))
            = srcAssignments (log b) + (if existsb is_open acts then 1 else 0)).
  { intros acts. rewrite run_assignments. unfold hasFrame. simpl.
    rewrite Hl, Hf. reflexivity. }
  split; [exact Hcount|]. split.
  - intros pre post Hpre. split; [|split].
    + rewrite Hcount, Hpre. lia.
    + rewrite run_app. unfold run at 1. cbn [fold_left step]. unfold onTriggerClick.
      pose proof (run_latch pre (s, b)) as Hlatch.
      pose proof (run_iframe pre (s, b)) as Hframe.
      simpl in Hlatch, Hframe. rewrite Hl, Hpre, andb_false_r in Hlatch.
      rewrite Hf in Hframe.
      destruct (run pre (s, b)) as [s1 b1]. simpl in *.
      apply openModal_loads; assumption.
    + rewrite Hcount, existsb_app. simpl. rewrite orb_true_r. reflexivity.
  - intros acts st Hst. rewrite run_latch, Hst. reflexivity.
Qed.

(** C6 at work on the sample page: two open and close cycles assign the
    source once. *)
Lemma C6_witness :
  srcAssignments (log (snd (run [Open; Close; Open; Close]
                              (modalState, page "Bob" "a@b.c" EmptyString)))) = 1.
Proof.
  rewrite (proj1 (C6_src_assigned_once modalState (page "Bob" "a@b.c" EmptyString) 15
                    eq_refl eq_refl)).
  reflexivity.
Defined.

End ModalClaims.

(** ** The mobile menu *)

Section NavClaims.
Import Dom Spec Samples Script.MobileNav.

(** C7, as stated, fails at the threshold itself: at a viewport width of
    exactly 767, which is not below 767, a click on a link of the open
    menu closes the menu. *)
Lemma C7_counterexample :
  isOpen (fst (click 11 (navState true, resized 767 (page "Bob" "a@b.c" EmptyString))))
  = false /\
  ~ (innerWidth (resized 767 (page "Bob" "a@b.c" EmptyString)) < 767)%Z.
Proof. split; [vm_compute; reflexivity|]. simpl. lia. Qed.

(** C7 (amended).  While the menu is open, a click on a navigation link
    inside the panel (and outside the toggle) closes the menu iff the
    viewport width is at most 767; above that width the click changes
    nothing. *)
Theorem C7_nav_link_click (s : State) (b : Browser) (target : nat) :
  isOpen s = true ->
  target ∈ navLinks s ->
  contains b (navMenu s) target = true ->
  contains b (navToggle s) target = false ->
  (isOpen (fst (click target (s, b))) = false <-> (innerWidth b <= 767)%Z) /\
  ((innerWidth b <= 767)%Z -> closed (click target (s, b))) /\
  ((767 < innerWidth b)%Z -> click target (s, b) = (s, b)).
Proof.
  intros Hopen Hlink Hin Hout.
  apply contains_false in Hout as [Hne Hanc].
  assert (Hpath : navToggle s ∉ target :: ancestors b target).
  { apply not_elem_of_cons. split; assumption. }
  assert (Hwide : (767 < innerWidth b)%Z -> click target (s, b) = (s, b)).
  { intros Hw. unfold click. cbn [snd].
    rewrite fold_clickAt_desktop by assumption.
    apply onDocumentClick_inside. exact Hin. }
  assert (Hnarrow : (innerWidth b <= 767)%Z -> closed (click target (s, b))).
  { intros Hw. unfold click. cbn [snd fold_left].
    assert (Hfirst : clickAt (s, b) target = closeMenu (s, b)).
    { rewrite clickAt_not_toggle by (simpl; congruence). cbn [fst].
      rewrite bool_decide_eq_true_2 by exact Hlink. unfold onNavLinkClick.
      cbn [snd]. apply Z.leb_le in Hw. rewrite Hw. reflexivity. }
    rewrite Hfirst.
    assert (Hc : closed (fold_left clickAt (ancestors b target) (closeMenu (s, b)))).
    { apply fold_clickAt_closed; [exact Hanc | apply closeMenu_closed]. }
    rewrite onDocumentClick_closed by apply Hc. exact Hc. }
  split; [|split; assumption]. split.
  - intros Hclosed. destruct (Z_le_gt_dec (innerWidth b) 767) as [Hw|Hw]; [exact Hw|].
    rewrite Hwide in Hclosed by lia. simpl in Hclosed. congruence.
  - intros Hw. apply Hnarrow, Hw.
Qed.

(** C7 at work on the sample page at a width of 1024: the click on the
    link (element 11) leaves the menu open. *)
Lemma C7_witness :
  isOpen (fst (click 11 (navState true, page "Bob" "a@b.c" EmptyString))) = true.
Proof.
  rewrite (proj2 (proj2 (C7_nav_link_click (navState true)
                           (page "Bob" "a@b.c" EmptyString) 11
                           eq_refl ltac:(left) eq_refl eq_refl))).
  - reflexivity.
  - reflexivity.
Defined.

End NavClaims.

(** * Further properties of the script *)

(** ** The rate limiters *)

Section ThrottleFacts.
Import Throttle.

Lemma throttle_run_cons {A : Type} e evs (s : State A) : run (e :: evs) s = run evs (step s e).
Proof. reflexivity. Qed.

Lemma throttle_step_armed {A : Type} (s : State A) e : armed s -> armed (step s e).
Proof.
  unfold armed. destruct s as [f n l], e as [a|]; simpl; unfold call, elapse; simpl.
  - destruct f; simpl; intros ->; reflexivity.
  - destruct f; simpl; intros ->; reflexivity.
Qed.

Lemma throttle_run_armed {A : Type} evs : forall s : State A, armed s -> armed (run evs s).
Proof.
  induction evs as [|e evs IH]; intros s Hs; [exact Hs|].
  apply IH, throttle_step_armed, Hs.
Qed.

Lemma throttle_run_applied {A : Type} evs : forall s : State A,
  armed s ->
  exists extra,
    applied (run evs s) = applied s ++ extra /\
    sublist extra (callArgs evs) /\
    length extra
    <= (if inThrottle s then 0 else 1) + length (List.filter is_elapse evs).
Proof.
  induction evs as [|e evs IH]; intros s Hs.
  - exists []. simpl. rewrite app_nil_r. repeat split; [constructor | lia].
  - rewrite throttle_run_cons. destruct e as [a|]; cbn [step].
    + unfold call. destruct (inThrottle s) eqn:E; cbn [negb].
      * destruct (IH s Hs) as (extra & Ha & Hsub & Hlen). rewrite E in Hlen.
        exists extra. split; [exact Ha|]. split; [|simpl; lia].
        simpl. apply sublist_cons, Hsub.
      * destruct (IH (mkState true (S (timers s)) (applied s ++ [a])))
          as (extra & Ha & Hsub & Hlen).
        { unfold armed in *. simpl. rewrite Hs, E. reflexivity. }
        simpl in Ha, Hlen. exists (a :: extra).
        split; [rewrite Ha, <- app_assoc; reflexivity|]. split.
        -- simpl. apply sublist_skip, Hsub.
        -- simpl. lia.
    + unfold elapse. unfold armed in Hs. destruct (inThrottle s) eqn:E.
      * rewrite Hs.
        destruct (IH (mkState false 0 (applied s))) as (extra & Ha & Hsub & Hlen);
          [reflexivity|].
        simpl in Ha, Hlen. exists extra. split; [exact Ha|]. split; [exact Hsub|].
        simpl. lia.
      * rewrite Hs. destruct (IH s) as (extra & Ha & Hsub & Hlen).
        { unfold armed. rewrite E. exact Hs. }
        rewrite E in Hlen. exists extra. split; [exact Ha|]. split; [exact Hsub|].
        simpl. lia.
Qed.

Lemma throttle_calls_dropped {A : Type} (l : list A) : forall s : State A,
  inThrottle s = true -> run (Call <$> l) s = s.
Proof.
  induction l as [|a l IH]; intros s Hs; [reflexivity|].
  cbn [fmap list_fmap]. rewrite throttle_run_cons. cbn [step]. unfold call.
  rewrite Hs. simpl. apply IH, Hs.
Qed.

(** X1.  A throttled function, over any sequence of calls and timer
    firings from the start: at most one timer is pending, and one is
    pending exactly while calls are being dropped; the wrapped function is
    applied to a selection of the calls' arguments, in order, at most once
    more than timers have fired; the first call goes through at once and
    the calls that follow it before a timer fires are dropped. *)
Theorem X1_throttle {A : Type} (evs : list (Event A)) :
  timers (run evs initial) = (if inThrottle (run evs initial) then 1 else 0) /\
  sublist (applied (run evs initial)) (callArgs evs) /\
  length (applied (run evs initial)) <= S (length (List.filter is_elapse evs)) /\
  (forall (a : A) (l : list A),
     applied (run (Call a :: (Call <$> l)) initial) = [a]).
Proof.
  assert (Hinit : armed (@initial A)) by reflexivity.
  split; [apply (throttle_run_armed evs initial Hinit)|].
  destruct (throttle_run_applied evs initial Hinit) as (extra & Ha & Hsub & Hlen).
  simpl in Ha, Hlen. rewrite Ha.
  split; [exact Hsub|]. split; [exact Hlen|].
  intros a l. rewrite throttle_run_cons. cbn [step].
  rewrite throttle_calls_dropped; reflexivity.
Qed.

End ThrottleFacts.

Section DebounceFacts.
Import Debounce.

Lemma debounce_run_cons {A : Type} e evs (s : State A) : run (e :: evs) s = run evs (step s e).
Proof. reflexivity. Qed.

Lemma clear_single {A : Type} (id : nat) (a : A) :
  clearTimeout (Some id) [(id, a)] = [].
Proof. simpl. rewrite Nat.eqb_refl. reflexivity. Qed.

Lemma debounce_call_single {A : Type} (s : State A) a :
  single s ->
  executedFunction a s
  = mkState (Some (nextId s)) [(nextId s, a)] (S (nextId s)) (applied s).
Proof.
  unfold single, executedFunction. destruct (pending s) as [|[id x] [|? ?]] eqn:E.
  - intros _. destruct (timeout s); reflexivity.
  - intros [-> _]. rewrite clear_single. reflexivity.
  - intros [].
Qed.

Lemma debounce_later_single {A : Type} (s : State A) id :
  single s ->
  later id s =
  match pending s with
  | [(i, a)] =>
      if (i =? id)%nat
      then mkState (timeout s) [] (nextId s) (applied s ++ [a])
      else s
  | _ => s
  end.
Proof.
  unfold single, later, timerArgs. destruct (pending s) as [|[i x] [|? ?]] eqn:E.
  - reflexivity.
  - intros [Ht _]. simpl. destruct (i =? id)%nat eqn:Ei; simpl; [|reflexivity].
    rewrite Ht. reflexivity.
  - intros [].
Qed.

Lemma debounce_step_single {A : Type} (s : State A) e : single s -> single (step s e).
Proof.
  intros Hs. destruct e as [a|id]; simpl.
  - rewrite debounce_call_single by exact Hs. unfold single. simpl. split; [reflexivity|lia].
  - rewrite debounce_later_single by exact Hs.
    destruct (pending s) as [|[i x] [|? ?]] eqn:E; try exact Hs.
    destruct (i =? id)%nat; [|exact Hs]. exact I.
Qed.

Lemma debounce_run_single {A : Type} evs : forall s : State A, single s -> single (run evs s).
Proof.
  induction evs as [|e evs IH]; intros s Hs; [exact Hs|].
  apply IH, debounce_step_single, Hs.
Qed.

Lemma debounce_run_applied {A : Type} evs : forall s : State A,
  single s ->
  exists extra,
    applied (run evs s) = applied s ++ extra /\
    sublist extra ((snd <$> pending s) ++ callArgs evs).
Proof.
  induction evs as [|e evs IH]; intros s Hs.
  - exists []. simpl. rewrite app_nil_r. split; [reflexivity|]. apply sublist_nil_l.
  - rewrite debounce_run_cons. pose proof (debounce_step_single s e Hs) as Hs'.
    destruct e as [a|id]; cbn [step] in *.
    + rewrite debounce_call_single in Hs' |- * by exact Hs.
      destruct (IH _ Hs') as (extra & Ha & Hsub). simpl in Ha, Hsub.
      exists extra. split; [exact Ha|]. apply sublist_inserts_l. exact Hsub.
    + rewrite debounce_later_single in Hs' |- * by exact Hs.
      destruct (pending s) as [|[i x] [|? ?]] eqn:E.
      * destruct (IH s Hs) as (extra & Ha & Hsub). rewrite E in Hsub.
        exists extra. split; [exact Ha | exact Hsub].
      * destruct (i =? id)%nat.
        -- destruct (IH _ Hs') as (extra & Ha & Hsub). simpl in Ha, Hsub.
           exists (x :: extra).
           split; [rewrite Ha, <- app_assoc; reflexivity|].
           simpl. apply sublist_skip, Hsub.
        -- destruct (IH s Hs) as (extra & Ha & Hsub). rewrite E in Hsub.
           exists extra. split; [exact Ha | exact Hsub].
      * unfold single in Hs. rewrite E in Hs. destruct Hs.
Qed.

Lemma debounce_calls {A : Type} (l : list A) : forall s : State A,
  single s ->
  applied (run (Call <$> l) s) = applied s /\
  (l <> [] -> forall a, last l = Some a ->
     exists id, timeout (run (Call <$> l) s) = Some id /\
                pending (run (Call <$> l) s) = [(id, a)]).
Proof.
  induction l as [|x l IH]; intros s Hs.
  - split; [reflexivity|]. intros H. contradiction.
  - cbn [fmap list_fmap]. rewrite debounce_run_cons. cbn [step].
    assert (Hs' : single (executedFunction x s))
      by apply (debounce_step_single s (Call x) Hs).
    destruct (IH _ Hs') as [Happ Hlast].
    split.
    + rewrite Happ, debounce_call_single by exact Hs. reflexivity.
    + intros _ a Ha. destruct l as [|y l'].
      * simpl in Ha. injection Ha as <-.
        rewrite debounce_call_single by exact Hs. simpl. eauto.
      * apply Hlast; [discriminate|]. exact Ha.
Qed.

(** X2.  A debounced function, over any sequence of calls and timer
    firings from the start: at most one timer is pending, the one named by
    [timeout]; the wrapped function is applied to a selection of the
    calls' arguments, in order.  After a burst of calls with no firing in
    between, one timer is pending; when it fires the wrapped function is
    applied once, to the arguments of the last call of the burst, and no
    timer is left. *)
Theorem X2_debounce {A : Type} (evs : list (Event A)) :
  single (run evs initial) /\
  sublist (applied (run evs initial)) (callArgs evs) /\
  (forall (burst : list A) (a : A),
     exists id,
       timeout (run (Call <$> (burst ++ [a])) (run evs initial)) = Some id /\
       applied (run (Call <$> (burst ++ [a])) (run evs initial))
       = applied (run evs initial) /\
       applied (later id (run (Call <$> (burst ++ [a])) (run evs initial)))
       = applied (run evs initial) ++ [a] /\
       pending (later id (run (Call <$> (burst ++ [a])) (run evs initial))) = []).
Proof.
  assert (Hinit : single (@initial A)) by exact I.
  pose proof (debounce_run_single evs initial Hinit) as Hs.
  split; [exact Hs|]. split.
  - destruct (debounce_run_applied evs initial Hinit) as (extra & Ha & Hsub).
    simpl in Ha, Hsub. rewrite Ha. exact Hsub.
  - intros burst a.
    destruct (debounce_calls (burst ++ [a]) (run evs initial) Hs) as [Happ Hlast].
    destruct (Hlast ltac:(destruct burst; discriminate) a (last_snoc _ _))
      as (id & Ht & Hp).
    exists id. split; [exact Ht|]. split; [exact Happ|].
    pose proof (debounce_run_single (Call <$> (burst ++ [a])) _ Hs) as Hs2.
    rewrite debounce_later_single by exact Hs2. rewrite Hp, Nat.eqb_refl. simpl.
    rewrite Happ. split; reflexivity.
Qed.

End DebounceFacts.

(** ** The mobile menu *)

Section NavExtras.
Import Dom Spec Samples Script.MobileNav NavSync.

Lemma getAttribute_set i a v b :
  i < length (nodes b) -> getAttribute (setAttribute i a v b) i a = Some v.
Proof.
  intros Hlt. unfold getAttribute, setAttribute. rewrite update_lookup.
  rewrite decide_True by reflexivity.
  apply lookup_lt_is_Some in Hlt as [e ->]. simpl. apply lookup_insert_eq.
Qed.

Lemma hasClass_add i c b :
  i < length (nodes b) -> hasClass (classList_add i c b) i c = true.
Proof.
  intros Hlt. rewrite hasClass_alt. unfold classList_add.
  rewrite from_option_update, decide_True by reflexivity.
  apply lookup_lt_is_Some in Hlt as [e ->]. simpl.
  apply bool_decide_eq_true_2, tokens_add_elem. left. reflexivity.
Qed.

Lemma openMenu_state s b :
  fst (openMenu (s, b)) = set_isOpen true s.
Proof. reflexivity. Qed.

Lemma closeMenu_state s b :
  fst (closeMenu (s, b)) = set_isOpen false s.
Proof. reflexivity. Qed.

Lemma openMenu_length st : length (nodes (snd (openMenu st))) = length (nodes (snd st)).
Proof.
  destruct st as [s b]. unfold openMenu. cbn [snd].
  unfold body_add, classList_add, setAttribute. simpl.
  rewrite !length_alter. reflexivity.
Qed.

Lemma closeMenu_length st : length (nodes (snd (closeMenu st))) = length (nodes (snd st)).
Proof.
  destruct st as [s b]. unfold closeMenu. cbn [snd].
  rewrite focus_nodes.
  unfold body_remove, classList_remove, setAttribute. simpl.
  rewrite !length_alter. reflexivity.
Qed.

Lemma openMenu_parent st : agree parentNode (snd st) (snd (openMenu st)).
Proof.
  destruct st as [s b]. unfold openMenu. cbn [snd].
  eapply agree_trans; [apply (agree_update parentNode (navToggle (set_isOpen true s))
    (fun e => set_attributes (<["aria-expanded" := "true"]> (attributes e)) e) b);
    reflexivity|].
  eapply agree_trans; [|apply agree_nodes; reflexivity].
  apply agree_update. reflexivity.
Qed.

Lemma closeMenu_parent st : agree parentNode (snd st) (snd (closeMenu st)).
Proof.
  destruct st as [s b]. unfold closeMenu. cbn [snd].
  eapply agree_trans; [|apply agree_focus].
  eapply agree_trans; [apply (agree_update parentNode (navToggle (set_isOpen false s))
    (fun e => set_attributes (<["aria-expanded" := "false"]> (attributes e)) e) b);
    reflexivity|].
  eapply agree_trans; [|apply agree_nodes; reflexivity].
  apply agree_update. reflexivity.
Qed.

Lemma openMenu_settled st : mounted st -> settled (openMenu st).
Proof.
  destruct st as [s b]. intros [Ht Hm]. simpl in Ht, Hm.
  unfold settled, openMenu. cbn [fst snd].
  change (navMenu (set_isOpen true s)) with (navMenu s).
  change (navToggle (set_isOpen true s)) with (navToggle s).
  change (isOpen (set_isOpen true s)) with true.
  set (b1 := setAttribute (navToggle s) "aria-expanded" "true" b).
  assert (Hlen : length (nodes b1) = length (nodes b)) by apply update_length.
  split; [|split].
  - rewrite <- (getAttribute_agree (classList_add (navMenu s) "active" b1))
      by (apply agree_nodes; reflexivity).
    rewrite <- (getAttribute_agree b1) by (apply agree_update; reflexivity).
    apply getAttribute_set, Ht.
  - transitivity (hasClass (classList_add (navMenu s) "active" b1) (navMenu s) "active").
    { apply hasClass_agree, agree_nodes. reflexivity. }
    apply hasClass_add. rewrite Hlen. exact Hm.
  - simpl. apply bool_decide_eq_true_2, tokens_add_elem. left. reflexivity.
Qed.

Lemma closeMenu_settled st : mounted st -> settled (closeMenu st).
Proof.
  intros [Ht Hm]. unfold settled. rewrite closeMenu_isOpen, closeMenu_navMenu,
    closeMenu_navToggle. split; [|split].
  - destruct st as [s b]. unfold closeMenu. cbn [fst snd] in *.
    change (navMenu (set_isOpen false s)) with (navMenu s).
    change (navToggle (set_isOpen false s)) with (navToggle s).
    set (b1 := setAttribute (navToggle s) "aria-expanded" "false" b).
    rewrite <- (getAttribute_agree (classList_remove (navMenu s) "active" b1))
      by (apply agree_nodes; rewrite focus_nodes; reflexivity).
    rewrite <- (getAttribute_agree b1) by (apply agree_update; reflexivity).
    apply getAttribute_set, Ht.
  - apply closeMenu_inactive.
  - destruct st as [s b]. unfold closeMenu. cbn [snd]. rewrite focus_body. simpl.
    apply bool_decide_eq_false_2. rewrite tokens_remove_elem. tauto.
Qed.

Lemma openMenu_mounted st : mounted st -> mounted (openMenu st).
Proof.
  unfold mounted. rewrite openMenu_length. destruct st. exact id.
Qed.

Lemma closeMenu_mounted st : mounted st -> mounted (closeMenu st).
Proof.
  unfold mounted. rewrite closeMenu_length. destruct st. exact id.
Qed.

(** Nodes that carry no listener of the menu leave it alone. *)
Lemma fold_clickAt_inert path : forall st,
  (forall n, n ∈ path -> n <> navToggle (fst st) /\ n ∉ navLinks (fst st)) ->
  fold_left clickAt path st = st.
Proof.
  induction path as [|n path IH]; intros st H; cbn [fold_left]; [reflexivity|].
  assert (Hstep : clickAt st n = st).
  { destruct (H n ltac:(left)) as [Hne Hnl].
    rewrite clickAt_not_toggle by exact Hne.
    rewrite bool_decide_eq_false_2 by exact Hnl. reflexivity. }
  rewrite Hstep. apply IH. intros m Hm. apply H. right. exact Hm.
Qed.

Lemma onToggleClick_fields st :
  navToggle (fst (onToggleClick st)) = navToggle (fst st) /\
  navLinks (fst (onToggleClick st)) = navLinks (fst st) /\
  navMenu (fst (onToggleClick st)) = navMenu (fst st) /\
  isOpen (fst (onToggleClick st)) = negb (isOpen (fst st)) /\
  agree parentNode (snd st) (snd (onToggleClick st)).
Proof.
  unfold onToggleClick. destruct st as [s b]. cbn [fst].
  destruct (isOpen s) eqn:E.
  - repeat split. apply closeMenu_parent.
  - repeat split. apply openMenu_parent.
Qed.

(** X4.  In a tree-shaped document, a click on the toggle or inside it,
    on a path that crosses no link of the menu, does what the toggle's
    listener does and nothing more: it opens a closed menu and closes an
    open one; the listener of the document, which runs after it, does not
    take the fresh opening for a click outside. *)
Theorem X4_toggle_click (s : State) (b : Browser) (target : nat) :
  contains b (navToggle s) target = true ->
  NoDup (target :: ancestors b target) ->
  (forall n, n ∈ target :: ancestors b target -> n ∉ navLinks s) ->
  click target (s, b) = onToggleClick (s, b) /\
  isOpen (fst (click target (s, b))) = negb (isOpen s).
Proof.
  intros Hin Hnd Hlinks.
  assert (Hpath : navToggle s ∈ target :: ancestors b target).
  { unfold contains, isDescendant in Hin. apply orb_true_iff in Hin as [H|H];
      apply bool_decide_eq_true in H; [rewrite H; left | right; exact H]. }
  apply list_elem_of_split in Hpath as (l1 & l2 & Hsplit).
  rewrite Hsplit in Hnd, Hlinks.
  apply NoDup_app in Hnd as (_ & Hl1 & Hnd2). apply NoDup_cons in Hnd2 as [Hl2 _].
  assert (Hfold : fold_left clickAt (target :: ancestors b target) (s, b)
                  = onToggleClick (s, b)).
  { rewrite Hsplit, fold_left_app. cbn [fold_left].
    rewrite (fold_clickAt_inert l1 (s, b)).
    - assert (Hat : clickAt (s, b) (navToggle s) = onToggleClick (s, b)).
      { unfold clickAt. cbn [fst].
        rewrite (bool_decide_eq_true_2 (navToggle s = navToggle s)) by reflexivity.
        destruct (onToggleClick_fields (s, b)) as (_ & Hnl & _). rewrite Hnl.
        cbn [fst]. rewrite bool_decide_eq_false_2; [reflexivity|].
        apply Hlinks. apply elem_of_app. right. left. }
      rewrite Hat. apply fold_clickAt_inert.
      destruct (onToggleClick_fields (s, b)) as (Ht & Hnl & _). rewrite Ht, Hnl.
      cbn [fst]. intros n Hn. split.
      + intros ->. contradiction.
      + apply Hlinks. apply elem_of_app. right. right. exact Hn.
    - cbn [fst]. intros n Hn. split.
      + intros ->. apply (Hl1 (navToggle s)); [exact Hn | left].
      + apply Hlinks. apply elem_of_app. left. exact Hn. }
  assert (Hclick : click target (s, b) = onToggleClick (s, b)).
  { unfold click. cbn [snd]. rewrite Hfold.
    destruct (onToggleClick_fields (s, b)) as (Ht & _ & Hm & Ho & Hp).
    destruct (onToggleClick (s, b)) as [s' b'] eqn:E. cbn [fst snd] in *.
    unfold onDocumentClick.
    rewrite <- (contains_agree b b' (navToggle s') target Hp), Ht, Hin.
    rewrite andb_false_r. reflexivity. }
  split; [exact Hclick|]. rewrite Hclick.
  apply (onToggleClick_fields (s, b)).
Qed.

(** X4 at work on the sample page: a click on the toggle (element 9)
    opens the closed menu. *)
Lemma X4_witness :
  isOpen (fst (click 9 (navState false, page "Bob" "a@b.c" EmptyString))) = true.
Proof.
  assert (Hnd : NoDup (9 :: ancestors (page "Bob" "a@b.c" EmptyString) 9)).
  { vm_compute. apply NoDup_cons. split; [intros H; inversion H | apply NoDup_nil_2]. }
  assert (Hl : forall n, n ∈ 9 :: ancestors (page "Bob" "a@b.c" EmptyString) 9 ->
                         n ∉ navLinks (navState false)).
  { intros n Hn. vm_compute in Hn. apply list_elem_of_singleton in Hn as ->.
    vm_compute. intros H. apply list_elem_of_singleton in H. discriminate. }
  exact (proj2 (X4_toggle_click (navState false) (page "Bob" "a@b.c" EmptyString) 9
                  eq_refl Hnd Hl)).
Defined.

(** X5.  The two ways of dismissing the menu.  A click outside the panel
    and outside the toggle, on a path that crosses no link of the menu,
    and the Escape key each make the menu's listeners run [closeMenu] on
    an open menu; on a closed menu these listeners change nothing at all,
    and neither do they for any other key, open or closed.  [closeMenu]
    leaves the menu closed and calls [focus] on the toggle: focus ends on
    the toggle when the toggle can take focus in the page as [closeMenu]
    leaves it, and stays where it was otherwise. *)
Theorem X5_nav_dismissal (s : State) (b : Browser) :
  (forall target,
     contains b (navMenu s) target = false ->
     contains b (navToggle s) target = false ->
     (forall n, n ∈ target :: ancestors b target -> n ∉ navLinks s) ->
     click target (s, b) = if isOpen s then closeMenu (s, b) else (s, b)) /\
  onDocumentKeydown "Escape" (s, b) = (if isOpen s then closeMenu (s, b) else (s, b)) /\
  (forall key, key <> "Escape" -> onDocumentKeydown key (s, b) = (s, b)) /\
  closed (closeMenu (s, b)) /\
  activeElement (snd (closeMenu (s, b)))
  = (if canFocus (snd (closeMenu (s, b))) (navToggle s)
     then Some (navToggle s)
     else activeElement b).
Proof.
  split; [|split; [|split; [|split]]].
  - intros target Hm Ht Hlinks. unfold click. cbn [snd].
    rewrite fold_clickAt_inert.
    + unfold onDocumentClick. rewrite Hm, Ht. simpl. rewrite !andb_true_r. reflexivity.
    + cbn [fst]. intros n Hn. split; [|apply Hlinks, Hn].
      apply contains_false in Ht as [Hne Hanc].
      intros ->. apply elem_of_cons in Hn as [Hn|Hn]; [congruence | contradiction].
  - unfold onDocumentKeydown. cbn [fst]. simpl. reflexivity.
  - intros key Hk. unfold onDocumentKeydown.
    apply String.eqb_neq in Hk. rewrite Hk. reflexivity.
  - apply closeMenu_closed.
  - unfold closeMenu. cbn [snd]. rewrite focus_active. reflexivity.
Qed.

(** X5 at work on the sample page: a click on the form (element 0) closes
    the open menu. *)
Lemma X5_witness :
  isOpen (fst (click 0 (navState true, page "Bob" "a@b.c" EmptyString))) = false.
Proof.
  rewrite (proj1 (X5_nav_dismissal (navState true) (page "Bob" "a@b.c" EmptyString))
             0 eq_refl eq_refl).
  - reflexivity.
  - intros n Hn. vm_compute in Hn. apply list_elem_of_singleton in Hn as ->.
    vm_compute. intros H. apply list_elem_of_singleton in H. discriminate.
Defined.

End NavExtras.

(** ** The scroll lock, the modal's keys and attribute, initialization *)

Section ModalExtras.
Import Dom Spec Samples Script Script.CalendlyModal ModalEvents.

Lemma openModal_body s b :
  bodyClassList (snd (openModal (s, b))) = tokens_add "modal-open" (bodyClassList b).
Proof.
  unfold openModal, updateFocusableElements. simpl.
  destruct (iframe s); [destruct (iframeSrcSet s)|]; simpl;
    match goal with |- context [head ?l] => destruct (head l) end;
    cbn [snd]; rewrite ?focus_body; reflexivity.
Qed.

Lemma openModal_isModalOpen s b : isModalOpen (fst (openModal (s, b))) = true.
Proof. apply (openModal_focusable s b). Qed.

(** X6.  The scroll lock is one class on the body, written by the menu
    and by the modal alike and not counted: opening either sets it, and
    closing either clears it even while the other is still open. *)
Theorem X6_scroll_lock_shared (ns : MobileNav.State) (ms : State) (b : Browser) :
  "modal-open" ∈ bodyClassList (snd (MobileNav.openMenu (ns, b))) /\
  "modal-open" ∈ bodyClassList (snd (openModal (ms, b))) /\
  (isModalOpen (fst (openModal (ms, b))) = true /\
   "modal-open" ∉ bodyClassList
                    (snd (MobileNav.closeMenu (ns, snd (openModal (ms, b)))))) /\
  (MobileNav.isOpen (fst (MobileNav.openMenu (ns, b))) = true /\
   "modal-open" ∉ bodyClassList
                    (snd (closeModal (ms, snd (MobileNav.openMenu (ns, b)))))).
Proof.
  split; [|split; [|split]].
  - simpl. apply tokens_add_elem. left. reflexivity.
  - rewrite openModal_body. apply tokens_add_elem. left. reflexivity.
  - split; [apply openModal_isModalOpen|].
    unfold MobileNav.closeMenu. cbn [snd]. rewrite focus_body. simpl.
    rewrite tokens_remove_elem. tauto.
  - split; [reflexivity|].
    unfold closeModal. cbn [snd]. rewrite focus_body. simpl.
    rewrite tokens_remove_elem. tauto.
Qed.

Lemma sameNode_None a : sameNode a None = false.
Proof. destruct a; reflexivity. Qed.

(** X7.  The keydown listener of the modal prevents the default action of
    a key in one case only: the modal is open, the key is Tab, and focus
    is on the bound of the trap in the direction of travel (the last
    element for Tab, the first for Shift+Tab).  Whenever it does not, and
    the key is not Escape on an open modal, it changes nothing; so a closed
    modal, a Tab inside the trap and a trap with no focusable element
    leave the key to the browser. *)
Theorem X7_keydown_intercepts (key : string) (shiftKey : bool) (s : State) (b : Browser) :
  (snd (onKeydown key shiftKey (s, b)) = true <->
     isModalOpen s = true /\ key = "Tab" /\
     sameNode (activeElement b) (bound s shiftKey) = true) /\
  (snd (onKeydown key shiftKey (s, b)) = false ->
     isModalOpen s = false \/ key <> "Escape" ->
     fst (onKeydown key shiftKey (s, b)) = (s, b)) /\
  (firstFocusableElement s = None -> lastFocusableElement s = None ->
     snd (onKeydown key shiftKey (s, b)) = false).
Proof.
  unfold onKeydown, bound. cbn [fst].
  destruct (isModalOpen s) eqn:Eo; cbn [negb].
  2:{ split; [|split]; try reflexivity.
      split; [discriminate|]. intros [H _]. discriminate. }
  destruct (String.eqb key "Escape") eqn:Ee.
  - apply String.eqb_eq in Ee as ->. simpl.
    split; [|split]; try reflexivity.
    + split; [discriminate|]. intros (_ & H & _). discriminate.
    + intros _ [H|H]; [discriminate | contradiction].
  - destruct (String.eqb key "Tab") eqn:Et.
    + apply String.eqb_eq in Et as ->.
      destruct shiftKey.
      * destruct (sameNode (activeElement b) (firstFocusableElement s)) eqn:En.
        -- destruct (lastFocusableElement s); simpl;
             (split; [|split]); try discriminate; try tauto;
             intros Hf; rewrite Hf, sameNode_None in En; discriminate.
        -- simpl. split; [|split]; try reflexivity.
           split; [discriminate|]. intros (_ & _ & H). discriminate.
      * destruct (sameNode (activeElement b) (lastFocusableElement s)) eqn:En.
        -- destruct (firstFocusableElement s); simpl;
             (split; [|split]); try discriminate; try tauto;
             intros _ Hl; rewrite Hl, sameNode_None in En; discriminate.
        -- simpl. split; [|split]; try reflexivity.
           split; [discriminate|]. intros (_ & _ & H). discriminate.
    + simpl. split; [|split]; try reflexivity.
      split; [discriminate|]. intros (_ & H & _).
      apply String.eqb_neq in Et. contradiction.
Qed.

(** X7 at work on the sample page: a Tab in the middle of the open modal
    is left to the browser. *)
Lemma X7_witness :
  fst (onKeydown "Tab" false
         (run [Open; MoveFocus (Some 15)] (modalState, page "Bob" "a@b.c" EmptyString)))
  = run [Open; MoveFocus (Some 15)] (modalState, page "Bob" "a@b.c" EmptyString).
Proof.
  rewrite (surjective_pairing
             (run [Open; MoveFocus (Some 15)] (modalState, page "Bob" "a@b.c" EmptyString))).
  apply (proj1 (proj2 (X7_keydown_intercepts "Tab" false _ _))).
  - reflexivity.
  - right. discriminate.
Defined.

End ModalExtras.

Section ModalAttribute.
Import Dom Spec Samples Script Script.CalendlyModal ModalEvents.

Lemma getAttribute_nodes b b' i a :
  nodes b = nodes b' -> getAttribute b i a = getAttribute b' i a.
Proof. unfold getAttribute. intros ->. reflexivity. Qed.

Lemma getAttribute_set_other i a v b j a' :
  a <> a' -> getAttribute (setAttribute i a v b) j a' = getAttribute b j a'.
Proof.
  intros Hne. unfold getAttribute, setAttribute. rewrite update_lookup.
  destruct (decide (i = j)); [|reflexivity].
  destruct (nodes b !! j); simpl; [|reflexivity]. apply lookup_insert_ne, Hne.
Qed.

Lemma getAttribute_class_add i c b j a :
  getAttribute (classList_add i c b) j a = getAttribute b j a.
Proof. symmetry. apply getAttribute_agree, agree_update. reflexivity. Qed.

Lemma getAttribute_class_remove i c b j a :
  getAttribute (classList_remove i c b) j a = getAttribute b j a.
Proof. symmetry. apply getAttribute_agree, agree_update. reflexivity. Qed.

Lemma closeModal_synced st :
  modal (fst st) < length (nodes (snd st)) -> synced (closeModal st).
Proof.
  destruct st as [s b]. cbn [fst snd]. intros Hlt. unfold synced, closeModal.
  cbn [fst snd]. change (modal (set_isModalOpen false s)) with (modal s).
  change (isModalOpen (set_isModalOpen false s)) with false. cbv iota.
  rewrite (getAttribute_nodes _
             (setAttribute (modal s) "aria-hidden" "true"
                (body_remove "modal-open" (classList_remove (modal s) "active" b))))
    by (rewrite focus_nodes; reflexivity).
  apply getAttribute_set.
  unfold body_remove, classList_remove. simpl. rewrite length_alter. exact Hlt.
Qed.

Lemma openModal_modal s b : modal (fst (openModal (s, b))) = modal s.
Proof.
  unfold openModal, updateFocusableElements. simpl.
  destruct (iframe s); [destruct (iframeSrcSet s)|]; simpl;
    match goal with |- context [head ?l] => destruct (head l) end; reflexivity.
Qed.

Lemma openModal_aria s b :
  getAttribute (snd (openModal (s, b))) (modal s) "aria-hidden"
  = getAttribute
      (setAttribute (modal s) "aria-hidden" "false"
         (body_add "modal-open" (classList_add (modal s) "active" b)))
      (modal s) "aria-hidden".
Proof.
  unfold openModal, updateFocusableElements. simpl.
  set (b3 := setAttribute (modal s) "aria-hidden" "false"
               (body_add "modal-open" (classList_add (modal s) "active" b))).
  destruct (iframe s) as [f|]; [destruct (iframeSrcSet s)|]; simpl;
    match goal with |- context [head ?l] => destruct (head l) end; cbn [snd];
    try (apply getAttribute_nodes; rewrite ?focus_nodes; reflexivity).
  - rewrite (getAttribute_nodes _ (setAttribute f "src" calendlyUrl b3))
      by (rewrite ?focus_nodes; reflexivity).
    apply getAttribute_set_other. discriminate.
  - rewrite (getAttribute_nodes _ (setAttribute f "src" calendlyUrl b3))
      by (rewrite ?focus_nodes; reflexivity).
    apply getAttribute_set_other. discriminate.
Qed.

Lemma openModal_length s b :
  length (nodes (snd (openModal (s, b)))) = length (nodes b).
Proof.
  unfold openModal, updateFocusableElements. simpl.
  destruct (iframe s) as [f|]; [destruct (iframeSrcSet s)|]; simpl;
    match goal with |- context [head ?l] => destruct (head l) end; cbn [snd];
    rewrite ?focus_nodes; simpl; rewrite !length_alter; reflexivity.
Qed.

Lemma openModal_synced st :
  modal (fst st) < length (nodes (snd st)) -> synced (openModal st).
Proof.
  destruct st as [s b]. cbn [fst snd]. intros Hlt. unfold synced.
  rewrite openModal_modal, openModal_isModalOpen, openModal_aria.
  apply getAttribute_set.
  unfold body_add, classList_add. simpl. rewrite length_alter. exact Hlt.
Qed.

Lemma closeModal_length st :
  length (nodes (snd (closeModal st))) = length (nodes (snd st)).
Proof.
  destruct st as [s b]. unfold closeModal. cbn [snd]. rewrite focus_nodes. simpl.
  rewrite !length_alter. reflexivity.
Qed.

(** The modal is an element of the store and its attribute is in step. *)
Lemma modal_step_steady st a :
  modal (fst st) < length (nodes (snd st)) /\ synced st ->
  modal (fst (step st a)) < length (nodes (snd (step st a))) /\ synced (step st a).
Proof.
  intros [Hlt Hs]. destruct a as [| |key shiftKey|to]; cbn [step].
  - unfold onTriggerClick. destruct st as [s b]. cbn [fst snd] in *.
    rewrite openModal_modal, openModal_length.
    split; [exact Hlt | apply (openModal_synced (s, b)), Hlt].
  - split; [|apply closeModal_synced, Hlt].
    rewrite closeModal_length. destruct st. exact Hlt.
  - assert (Hmove : forall x s b,
              modal s < length (nodes b) /\ synced (s, b) ->
              modal s < length (nodes (focus x b)) /\ synced (s, focus x b)).
    { intros x s b [H1 H2]. split; [rewrite focus_nodes; exact H1|].
      unfold synced in *. cbn [fst snd] in *. rewrite <- H2.
      apply getAttribute_nodes, focus_nodes. }
    assert (Hclose : modal (fst (closeModal st)) < length (nodes (snd (closeModal st)))
                     /\ synced (closeModal st)).
    { split; [|apply closeModal_synced, Hlt].
      rewrite closeModal_length. destruct st. exact Hlt. }
    unfold onKeydown. destruct (isModalOpen (fst st)); cbn [negb fst];
      [|split; assumption].
    destruct (String.eqb key "Escape").
    + destruct (closeModal st) as [s1 b1] eqn:E.
      destruct (String.eqb key "Tab"); [|exact Hclose].
      destruct shiftKey.
      * destruct (sameNode _ _); [|exact Hclose].
        destruct (lastFocusableElement s1); [apply Hmove|]; exact Hclose.
      * destruct (sameNode _ _); [|exact Hclose].
        destruct (firstFocusableElement s1); [apply Hmove|]; exact Hclose.
    + destruct st as [s1 b1]. cbn [fst snd] in *.
      destruct (String.eqb key "Tab"); [|split; assumption].
      destruct shiftKey.
      * destruct (sameNode _ _); [|split; assumption].
        destruct (lastFocusableElement s1); [apply Hmove|]; split; assumption.
      * destruct (sameNode _ _); [|split; assumption].
        destruct (firstFocusableElement s1); [apply Hmove|]; split; assumption.
  - destruct st as [s b]. split; [exact Hlt | exact Hs].
Qed.

Lemma modal_run_steady acts : forall st,
  modal (fst st) < length (nodes (snd st)) /\ synced st ->
  modal (fst (run acts st)) < length (nodes (snd (run acts st))) /\ synced (run acts st).
Proof.
  induction acts as [|a acts IH]; intros st H; [exact H|].
  apply IH, modal_step_steady, H.
Qed.

(** X8.  From initialization on, over every sequence of opens, closes, key
    presses and focus moves, the modal's aria-hidden attribute is "false"
    exactly while [isModalOpen] holds and "true" otherwise; [isModalOpen]
    is true after an open and false after a close or an Escape. *)
Theorem X8_modal_aria_hidden (b b' : Browser) (s : State) (acts : list Action) :
  initCalendlyModal b = Ok (b', Some s) ->
  synced (run acts (s, b')) /\
  isModalOpen (fst (run (acts ++ [Open]) (s, b'))) = true /\
  isModalOpen (fst (run (acts ++ [Close]) (s, b'))) = false /\
  (forall shiftKey,
     isModalOpen (fst (run (acts ++ [Key "Escape" shiftKey]) (s, b'))) = false).
Proof.
  intros Hinit. rewrite initCalendlyModal_ok in Hinit.
  destruct (getElementById b "calendly-trigger") as [t|] eqn:Et;
    [|discriminate Hinit].
  destruct (getElementById b "calendly-modal") as [m|] eqn:Em;
    [|discriminate Hinit].
  injection Hinit as <- <-.
  apply getElementById_lt in Em.
  split; [|split; [|split]].
  - apply modal_run_steady. cbn [fst snd modal].
    split; [unfold setAttribute; rewrite update_length; exact Em|].
    unfold synced. cbn [fst snd modal isModalOpen]. apply getAttribute_set, Em.
  - rewrite run_app. unfold run at 1. cbn [fold_left step]. unfold onTriggerClick.
    destruct (run acts _) as [s1 b1]. apply openModal_isModalOpen.
  - rewrite run_app. unfold run at 1. cbn [fold_left step].
    destruct (run acts _) as [s1 b1]. reflexivity.
  - intros shiftKey. rewrite run_app. unfold run at 1. cbn [fold_left step].
    destruct (run acts _) as [s1 b1]. unfold onKeydown. cbn [fst].
    destruct (isModalOpen s1) eqn:E; cbn [negb]; [|exact E]. reflexivity.
Qed.

(** X8 at work on the sample page. *)
Lemma X8_witness :
  synced (run [Open; Close; Open]
            (modalState,
             setAttribute 13 "aria-hidden" "true" (page "Bob" "a@b.c" EmptyString))).
Proof.
  assert (H : initCalendlyModal (page "Bob" "a@b.c" EmptyString)
              = Ok (setAttribute 13 "aria-hidden" "true" (page "Bob" "a@b.c" EmptyString),
                    Some modalState)).
  { vm_compute. reflexivity. }
  apply (proj1 (X8_modal_aria_hidden _ _ _ [Open; Close; Open] H)).
Defined.

End ModalAttribute.

Section InitExtras.
Import Dom Spec Samples Script.

(** X9.  Initialization is quiet: it makes no network call and raises no
    notice, moves no focus, leaves the body's classes alone, and changes no
    element's value, classes, flag, state or position in the tree; the one
    thing it may write is the attribute aria-hidden.  The menu and the
    modal start closed, the modal with its frame not yet loaded. *)
Theorem X9_init_quiet (b : Browser) (p : Page) :
  init b = Ok p ->
  log (browser p) = log b /\
  activeElement (browser p) = activeElement b /\
  bodyClassList (browser p) = bodyClassList b /\
  agree value b (browser p) /\
  agree classList b (browser p) /\
  agree borderColor b (browser p) /\
  agree disabled b (browser p) /\
  agree parentNode b (browser p) /\
  (forall i a, a <> "aria-hidden" ->
     getAttribute (browser p) i a = getAttribute b i a) /\
  (forall s, mobileNav p = Some s -> MobileNav.isOpen s = false) /\
  (forall s, calendlyModal p = Some s ->
     CalendlyModal.isModalOpen s = false /\ CalendlyModal.iframeSrcSet s = false).
Proof.
  intros Hinit.
  assert (Hag : forall A (q : Element -> A),
            (forall e a, q (set_attributes a e) = q e) -> agree q b (browser p)).
  { intros A q Hq. apply (init_agree q b p Hq Hinit). }
  destruct (init_ok b) as (sm & _ & Hp). rewrite Hp in Hinit.
  injection Hinit as <-. cbn [browser mobileNav calendlyModal] in *.
  split; [|split; [|split]].
  1-3: destruct (getElementById b "calendly-trigger"),
         (getElementById b "calendly-modal"); reflexivity.
  split; [apply Hag; reflexivity|]. split; [apply Hag; reflexivity|].
  split; [apply Hag; reflexivity|]. split; [apply Hag; reflexivity|].
  split; [apply Hag; reflexivity|]. split; [|split].
  - intros i a Ha.
    destruct (getElementById b "calendly-trigger"),
      (getElementById b "calendly-modal"); try reflexivity.
    apply getAttribute_set_other. congruence.
  - intros s.
    destruct (getElementById b "nav-toggle"), (getElementById b "nav-menu");
      intros [= <-]; reflexivity.
  - intros s.
    destruct (getElementById b "calendly-trigger"),
      (getElementById b "calendly-modal"); intros [= <-]; split; reflexivity.
Qed.

(** X9 at work on the sample page. *)
Lemma X9_witness :
  match init (page "Bob" "a@b.c" EmptyString) with
  | Ok p => log (browser p) = []
  | Throw _ => False
  end.
Proof.
  destruct (init (page "Bob" "a@b.c" EmptyString)) as [p|e] eqn:E.
  - exact (proj1 (X9_init_quiet _ p E)).
  - vm_compute in E. discriminate E.
Defined.

End InitExtras.

(** ** The contact form *)

Section FormExtras.
Import Dom Spec Samples Script.ContactForm.

(** The page when the request has just been made. *)
Lemma onSubmit_begin_sent s b :
  fst (validateForm s b) = true -> honeypot_filled s b = false ->
  onSubmit_begin s b =
  (let b1 := snd (validateForm s b) in
   let b2 := match submitButton s with
             | Some btn => setInnerHTML btn sendingLabel (setDisabled btn true b1)
             | None => b1
             end in
   (emit (Fetch (formAction b2 (form s)) (formData b2 (form s))) b2, true)).
Proof.
  intros Hv H. rewrite (honeypot_filled_same s b _ (validateForm_same s b)) in H.
  unfold onSubmit_begin, honeypot_filled in *.
  destruct (validateForm s b) as [v b1]. simpl in *. subst v. simpl.
  rewrite H. reflexivity.
Qed.

Lemma busy_agree {A} (p : Element -> A) s b :
  (forall e v, p (set_disabled v e) = p e) ->
  (forall e v, p (set_innerHTML v e) = p e) ->
  agree p b (match submitButton s with
             | Some btn => setInnerHTML btn sendingLabel (setDisabled btn true b)
             | None => b
             end).
Proof.
  intros Hd Hi. destruct (submitButton s); [|apply agree_refl].
  eapply agree_trans; apply agree_update; intros e; [apply Hd | apply Hi].
Qed.

Lemma validateForm_agree {A} (p : Element -> A) s b :
  (forall e, p (unflag e) = p e) -> agree p b (snd (validateForm s b)).
Proof. intros Hp. apply (agree_unflag p _ _ Hp), validateForm_same. Qed.

(** X10.  A submit that passes validation with the honeypot unfilled makes
    exactly one request, to the form's action; at that point the submit
    control is disabled and carries the busy label, and the fields hold
    what they held.  A submit that is stopped by validation or by the
    honeypot makes no request and writes nothing else to the log, and
    leaves the control as it was. *)
Theorem X10_pending (s : State) (b : Browser) :
  (fst (validateForm s b) = true -> honeypot_filled s b = false ->
     snd (onSubmit_begin s b) = true /\
     (exists body,
        log (fst (onSubmit_begin s b)) = log b ++ [Fetch (formAction b (form s)) body]) /\
     (forall btn, submitButton s = Some btn -> btn < length (nodes b) ->
        disabledOf (fst (onSubmit_begin s b)) btn = true /\
        innerHTMLOf (fst (onSubmit_begin s b)) btn = sendingLabel) /\
     agree value b (fst (onSubmit_begin s b))) /\
  (fst (validateForm s b) = false \/ honeypot_filled s b = true ->
     snd (onSubmit_begin s b) = false /\
     log (fst (onSubmit_begin s b)) = log b /\
     networkCalls (log (fst (onSubmit_begin s b))) = networkCalls (log b) /\
     agree disabled b (fst (onSubmit_begin s b)) /\
     agree innerHTML b (fst (onSubmit_begin s b))).
Proof.
  split.
  - intros Hv Hh. rewrite (onSubmit_begin_sent s b Hv Hh). cbn [fst snd].
    set (b1 := snd (validateForm s b)).
    set (b2 := match submitButton s with
               | Some btn => setInnerHTML btn sendingLabel (setDisabled btn true b1)
               | None => b1
               end).
    assert (H1 : forall A (p : Element -> A),
               (forall e, p (unflag e) = p e) -> agree p b b1).
    { intros A p Hp. apply validateForm_agree, Hp. }
    assert (H2 : forall A (p : Element -> A),
               (forall e v, p (set_disabled v e) = p e) ->
               (forall e v, p (set_innerHTML v e) = p e) -> agree p b1 b2).
    { intros A p Hd Hi. apply busy_agree; assumption. }
    split; [reflexivity|]. split; [|split].
    + exists (formData b2 (form s)). simpl.
      destruct (validateForm_same s b) as (_ & _ & _ & _ & _ & Hlog & _).
      fold b1 in Hlog.
      assert (Hlog2 : log b2 = log b1).
      { unfold b2. destruct (submitButton s); reflexivity. }
      rewrite Hlog2, <- Hlog. do 3 f_equal. unfold formAction.
      rewrite (getAttribute_agree b b2); [reflexivity|].
      eapply agree_trans; [apply H1 | apply H2]; reflexivity.
    + intros btn Hb Hlt.
      assert (Hlen : btn < length (nodes b1)).
      { rewrite <- (agree_length parentNode b b1) by (apply H1; reflexivity). exact Hlt. }
      unfold disabledOf, innerHTMLOf. cbn [nodes emit]. unfold b2. rewrite Hb.
      unfold setInnerHTML, setDisabled.
      rewrite !from_option_update, !decide_True by reflexivity.
      apply lookup_lt_is_Some in Hlen as [e ->]. split; reflexivity.
    + eapply agree_trans; [apply H1; reflexivity|].
      eapply agree_trans; [apply H2; reflexivity|]. apply agree_nodes. reflexivity.
  - intros H.
    assert (Hb : onSubmit_begin s b = (snd (validateForm s b), false)).
    { destruct H as [H|H];
        [apply onSubmit_begin_invalid | apply onSubmit_begin_honeypot]; exact H. }
    rewrite Hb. cbn [fst snd]. split; [reflexivity|].
    assert (Hlog : log (snd (validateForm s b)) = log b).
    { destruct (validateForm_same s b) as (_ & _ & _ & _ & _ & Hlog & _).
      symmetry. exact Hlog. }
    split; [exact Hlog|]. split; [rewrite Hlog; reflexivity|].
    split; apply validateForm_agree; reflexivity.
Qed.

(** X10 at work on the sample page: the request goes to the form's
    action. *)
Lemma X10_witness :
  exists body,
    log (fst (onSubmit_begin contactState (page "Bob" "a@b.c" EmptyString)))
    = [] ++ [Fetch "/send" body].
Proof.
  assert (Hv : fst (validateForm contactState (page "Bob" "a@b.c" EmptyString)) = true).
  { vm_compute. reflexivity. }
  assert (Hh : honeypot_filled contactState (page "Bob" "a@b.c" EmptyString) = false).
  { vm_compute. reflexivity. }
  exact (proj1 (proj2 (proj1 (X10_pending contactState
                                (page "Bob" "a@b.c" EmptyString)) Hv Hh))).
Defined.

(** The verdicts read the tree, the selectors and the values only. *)
Lemma verdict_agree s b b' :
  agree parentNode b b' -> (forall sel, agree (sel_matches sel) b b') ->
  agree value b b' ->
  fst (validateForm s b') = fst (validateForm s b) /\
  honeypot_filled s b' = honeypot_filled s b.
Proof.
  intros Hp Hs Hv.
  assert (Hreq : requiredFields s b' = requiredFields s b).
  { symmetry. apply querySelectorAllIn_agree; [exact Hp | apply Hs]. }
  assert (Hval : forall i, valueOf b' i = valueOf b i).
  { intros i. symmetry. apply valueOf_agree, Hv. }
  split.
  - rewrite !validateForm_verdict, Hreq. f_equal.
    + apply forallb_pointwise. intros i. unfold nonblank. rewrite Hval. reflexivity.
    + unfold email_ok, emailField.
      rewrite <- (querySelectorIn_agree b b') by (try exact Hp; apply Hs).
      destruct (querySelectorIn b (form s) _); [|reflexivity].
      rewrite Hval. reflexivity.
  - unfold honeypot_filled, honeypot.
    rewrite <- (querySelectorIn_agree b b') by (try exact Hp; apply Hs).
    destruct (querySelectorIn b (form s) _); [|reflexivity].
    rewrite Hval. reflexivity.
Qed.

(** A failed attempt changes no element but the submit control and the
    validation flags. *)
Lemma onSubmit_failure_agree {A} (p : Element -> A) s r b :
  (forall e, p (unflag e) = p e) ->
  (forall e v, p (set_disabled v e) = p e) ->
  (forall e v, p (set_innerHTML v e) = p e) ->
  r = NetworkFailure \/ (exists status, r = Response status /\ response_ok status = false) ->
  agree p b (onSubmit s r b).
Proof.
  intros Hu Hd Hi Hr. unfold onSubmit.
  destruct (fst (validateForm s b)) eqn:Hv.
  - destruct (honeypot_filled s b) eqn:Hh.
    + rewrite (onSubmit_begin_honeypot s b Hh). apply validateForm_agree, Hu.
    + rewrite (onSubmit_begin_sent s b Hv Hh). cbv beta iota zeta.
      rewrite (onSubmit_resume_failure _ _ _ Hr).
      eapply agree_trans; [apply (validateForm_agree p s b Hu)|].
      eapply agree_trans; [apply (busy_agree p s _ Hd Hi)|].
      eapply agree_trans; [|apply onSettled_agree; assumption].
      apply agree_nodes. reflexivity.
  - rewrite (onSubmit_begin_invalid s b Hv). apply validateForm_agree, Hu.
Qed.

(** X11.  No automatic retry, and a manual one works: after an attempt
    that reached the request and failed (a status outside 200..299 or a
    transport failure) the fields hold what the user typed, the submit
    control is enabled again, and a second submit passes validation and
    makes a second request. *)
Theorem X11_retry_after_failure (s : State) (b : Browser) (r : FetchOutcome) :
  fst (validateForm s b) = true -> honeypot_filled s b = false ->
  r = NetworkFailure \/ (exists status, r = Response status /\ response_ok status = false) ->
  agree value b (onSubmit s r b) /\
  networkCalls (log (onSubmit s r b)) = S (networkCalls (log b)) /\
  (forall btn, submitButton s = Some btn -> btn < length (nodes b) ->
     disabledOf (onSubmit s r b) btn = false) /\
  fst (validateForm s (onSubmit s r b)) = true /\
  snd (onSubmit_begin s (onSubmit s r b)) = true /\
  networkCalls (log (fst (onSubmit_begin s (onSubmit s r b))))
  = S (S (networkCalls (log b))).
Proof.
  intros Hv Hh Hr.
  assert (Hag : forall A (p : Element -> A),
            (forall e, p (unflag e) = p e) ->
            (forall e v, p (set_disabled v e) = p e) ->
            (forall e v, p (set_innerHTML v e) = p e) -> agree p b (onSubmit s r b)).
  { intros A p H1 H2 H3. apply onSubmit_failure_agree; assumption. }
  assert (Hverdict : fst (validateForm s (onSubmit s r b)) = true /\
                     honeypot_filled s (onSubmit s r b) = false).
  { rewrite <- Hv, <- Hh. apply verdict_agree.
    - apply Hag; reflexivity.
    - intros sel. apply Hag; intros; apply sel_matches_ext; reflexivity.
    - apply Hag; reflexivity. }
  destruct Hverdict as [Hv' Hh'].
  assert (Hcalls : networkCalls (log (onSubmit s r b)) = S (networkCalls (log b))).
  { unfold onSubmit. rewrite (onSubmit_begin_sent s b Hv Hh). cbv beta iota zeta.
    rewrite (onSubmit_resume_failure _ _ _ Hr), onSettled_log.
    unfold onFailure. cbn [log emit].
    destruct (validateForm_same s b) as (_ & _ & _ & _ & _ & Hlog & _).
    assert (Hlog2 : forall b1, log (match submitButton s with
                                    | Some btn => setInnerHTML btn sendingLabel
                                                    (setDisabled btn true b1)
                                    | None => b1
                                    end) = log b1).
    { intros b1. destruct (submitButton s); reflexivity. }
    rewrite Hlog2, <- Hlog, !networkCalls_app.
    change (networkCalls [Fetch _ _]) with 1.
    change (networkCalls [ConsoleError _]) with 0.
    change (networkCalls [Alert _]) with 0. lia. }
  split; [apply Hag; reflexivity|]. split; [exact Hcalls|]. split; [|split; [|split]].
  - intros btn Hb Hlt. unfold onSubmit.
    rewrite (onSubmit_begin_sent s b Hv Hh). cbv beta iota zeta.
    rewrite (onSubmit_resume_failure _ _ _ Hr).
    apply onSettled_button; [exact Hb|]. unfold onFailure. cbn [nodes emit].
    rewrite <- (agree_length parentNode (snd (validateForm s b)))
      by (apply busy_agree; reflexivity).
    rewrite <- (agree_length parentNode b) by (apply validateForm_agree; reflexivity).
    exact Hlt.
  - exact Hv'.
  - apply (onSubmit_begin_send _ _ Hv' Hh').
  - destruct (onSubmit_begin_send _ _ Hv' Hh') as (_ & url & body & b1 & Hlog & _).
    rewrite Hlog, networkCalls_app, Hcalls.
    change (networkCalls [Fetch url body]) with 1. lia.
Qed.

(** X11 at work on the sample page: after a 500 response the form still
    passes validation. *)
Lemma X11_witness :
  fst (validateForm contactState
         (onSubmit contactState (Response 500) (page "Bob" "a@b.c" EmptyString)))
  = true.
Proof.
  assert (Hv : fst (validateForm contactState (page "Bob" "a@b.c" EmptyString)) = true).
  { vm_compute. reflexivity. }
  assert (Hh : honeypot_filled contactState (page "Bob" "a@b.c" EmptyString) = false).
  { vm_compute. reflexivity. }
  apply (X11_retry_after_failure contactState (page "Bob" "a@b.c" EmptyString)
           (Response 500) Hv Hh).
  right. exists 500%Z. split; reflexivity.
Defined.

End FormExtras.

(** ** What stays: the success message, the selector, the navbar *)

Section KeepExtras.
Import Dom Spec Samples Script Classes.

Lemma keeps_refl c b : keeps c b b.
Proof. intros j H. exact H. Qed.

Lemma keeps_trans c b1 b2 b3 : keeps c b1 b2 -> keeps c b2 b3 -> keeps c b1 b3.
Proof. intros H1 H2 j H. apply H2, H1, H. Qed.

Lemma keeps_agree c b b' : agree (carries c) b b' -> keeps c b b'.
Proof. intros H j Hj. rewrite <- (hasClass_agree c b b' j H). exact Hj. Qed.

Lemma keeps_add c i b : keeps c b (classList_add i c b).
Proof.
  intros j. rewrite !hasClass_alt. unfold classList_add. rewrite from_option_update.
  destruct (decide (i = j)); [|exact id].
  destruct (nodes b !! j); simpl; [|exact id]. intros _.
  apply bool_decide_eq_true_2, tokens_add_elem. left. reflexivity.
Qed.

Lemma onSuccess_keeps_show s b : keeps "show" b (ContactForm.onSuccess s b).
Proof.
  rewrite onSuccess_unfold.
  eapply keeps_trans;
    [|apply keeps_agree, (fold_resetCard_other "show"); discriminate].
  unfold beforeCards.
  eapply keeps_trans.
  { instantiate (1 := match ContactForm.successMessage s with
                      | Some m => classList_add m "show" b
                      | None => b
                      end).
    destruct (ContactForm.successMessage s); [apply keeps_add | apply keeps_refl]. }
  eapply keeps_trans; [apply keeps_agree, formReset_agree; reflexivity|].
  destruct (getElementById _ _); [|apply keeps_refl].
  apply keeps_agree, agree_update. reflexivity.
Qed.

Lemma onSubmit_keeps_show s r b : keeps "show" b (ContactForm.onSubmit s r b).
Proof.
  unfold ContactForm.onSubmit.
  assert (Hval : keeps "show" b (snd (ContactForm.validateForm s b))).
  { apply keeps_agree, validateForm_agree. reflexivity. }
  destruct (fst (ContactForm.validateForm s b)) eqn:Hv.
  - destruct (honeypot_filled s b) eqn:Hh.
    + rewrite (onSubmit_begin_honeypot s b Hh). exact Hval.
    + rewrite (onSubmit_begin_sent s b Hv Hh). cbv beta iota zeta.
      eapply keeps_trans; [exact Hval|].
      eapply keeps_trans; [apply keeps_agree, busy_agree; reflexivity|].
      eapply keeps_trans; [apply keeps_agree, agree_nodes; reflexivity|].
      unfold ContactForm.onSubmit_resume.
      eapply keeps_trans; [|apply keeps_agree, onSettled_agree; reflexivity].
      destruct r as [status|]; [destruct (ContactForm.response_ok status)|].
      * eapply keeps_trans; [|apply onSuccess_keeps_show].
        apply keeps_agree, agree_nodes. reflexivity.
      * apply keeps_agree, agree_nodes. reflexivity.
      * apply keeps_agree, agree_nodes. reflexivity.
  - rewrite (onSubmit_begin_invalid s b Hv). exact Hval.
Qed.

Lemma onCardClick_carries c s card b :
  c <> "active" -> agree (carries c) b (BusinessTypeSelector.onCardClick s card b).
Proof.
  intros Hc. unfold BusinessTypeSelector.onCardClick.
  set (b1 := fold_left (fun b c => classList_remove c "active" b)
               (BusinessTypeSelector.businessTypeCards s) b).
  assert (H1 : agree (carries c) b b1).
  { apply agree_fold. intros b' x. apply agree_class_remove. exact Hc. }
  eapply agree_trans; [exact H1|].
  eapply agree_trans; [apply agree_class_add; exact Hc|].
  apply agree_update. reflexivity.
Qed.

(** X12.  Nothing in the script takes the success message down again: an
    element that carries the class "show" still carries it after any
    further submit attempt, whatever its outcome, after input in any
    field, and after a click on any business-type card. *)
Theorem X12_success_message_stays (b : Browser) (j : nat) :
  hasClass b j "show" = true ->
  (forall s r, hasClass (ContactForm.onSubmit s r b) j "show" = true) /\
  (forall i, hasClass (ContactForm.onInput i b) j "show" = true) /\
  (forall t card,
     hasClass (BusinessTypeSelector.onCardClick t card b) j "show" = true).
Proof.
  intros H. split; [|split].
  - intros s r. apply onSubmit_keeps_show, H.
  - intros i. rewrite <- (hasClass_agree "show" b); [exact H|].
    apply agree_update. reflexivity.
  - intros t card. rewrite <- (hasClass_agree "show" b); [exact H|].
    apply onCardClick_carries. discriminate.
Qed.

(** X12 at work on the sample page: the message shown by a first, successful
    submit is still shown after a second submit that fails validation. *)
Lemma X12_witness :
  hasClass
    (ContactForm.onSubmit contactState (ContactForm.Response 200)
       (ContactForm.onSubmit contactState (ContactForm.Response 200)
          (page "Bob" "a@b.c" EmptyString)))
    5 "show"
  = true.
Proof.
  assert (H : hasClass (ContactForm.onSubmit contactState (ContactForm.Response 200)
                          (page "Bob" "a@b.c" EmptyString)) 5 "show" = true).
  { vm_compute. reflexivity. }
  apply (proj1 (X12_success_message_stays _ 5 H)).
Defined.

(** X13.  A click on a card never leaves the hidden field empty, and it
    writes nothing else: no other value, no attribute, no class other than
    "active", no element's place in the tree, nothing to the log, and it
    moves no focus. *)
Theorem X13_card_click_frame (s : BusinessTypeSelector.State) (card : nat) (b : Browser) :
  (BusinessTypeSelector.businessTypeInput s < length (nodes b) ->
     Str.truthy (valueOf (BusinessTypeSelector.onCardClick s card b)
                   (BusinessTypeSelector.businessTypeInput s)) = true) /\
  (forall j, j <> BusinessTypeSelector.businessTypeInput s ->
     valueOf (BusinessTypeSelector.onCardClick s card b) j = valueOf b j) /\
  agree attributes b (BusinessTypeSelector.onCardClick s card b) /\
  agree parentNode b (BusinessTypeSelector.onCardClick s card b) /\
  (forall c, c <> "active" ->
     agree (carries c) b (BusinessTypeSelector.onCardClick s card b)) /\
  log (BusinessTypeSelector.onCardClick s card b) = log b /\
  activeElement (BusinessTypeSelector.onCardClick s card b) = activeElement b.
Proof.
  split; [|split; [|split; [|split; [|split; [|split]]]]].
  - intros Hlt. unfold BusinessTypeSelector.onCardClick.
    match goal with
    | |- context [setValue ?i ?v ?x] => set (v0 := v); set (b2 := x)
    end.
    assert (Hlen : BusinessTypeSelector.businessTypeInput s < length (nodes b2)).
    { unfold b2, classList_add. rewrite update_length.
      rewrite <- (agree_length parentNode b) by (apply deactivate_all_agree; reflexivity).
      exact Hlt. }
    unfold valueOf, setValue. rewrite from_option_update, decide_True by reflexivity.
    apply lookup_lt_is_Some in Hlen as [e ->]. simpl. unfold v0.
    unfold BusinessTypeSelector.orDental.
    destruct (getAttribute _ _ _) as [v|]; [|reflexivity].
    destruct (Str.truthy v) eqn:E; [exact E | reflexivity].
  - intros j Hne. unfold BusinessTypeSelector.onCardClick.
    unfold valueOf at 1. unfold setValue. rewrite from_option_update.
    rewrite decide_False by congruence.
    symmetry. apply agree_from_option.
    eapply agree_trans; [apply deactivate_all_agree; reflexivity|].
    apply agree_update. reflexivity.
  - apply onCardClick_agree; reflexivity.
  - apply onCardClick_agree; reflexivity.
  - intros c Hc. apply onCardClick_carries, Hc.
  - unfold BusinessTypeSelector.onCardClick. simpl.
    apply (fold_left_keeps log). reflexivity.
  - unfold BusinessTypeSelector.onCardClick. simpl.
    apply (fold_left_keeps activeElement). reflexivity.
Qed.

(** X13 at work on the sample page. *)
Lemma X13_witness :
  Str.truthy (valueOf (BusinessTypeSelector.onCardClick selectorState 8
                         (page "Bob" "a@b.c" EmptyString)) 6) = true.
Proof.
  apply (proj1 (X13_card_click_frame selectorState 8 (page "Bob" "a@b.c" EmptyString))).
  vm_compute. lia.
Defined.

(** X14.  The scroll listener of the navbar leaves the class "scrolled"
    on the navbar exactly when the page is scrolled by more than 50; at 50
    and below the class is off.  It touches no other class and no other
    part of an element, and running it again changes nothing. *)
Theorem X14_sticky_navbar (navbar : nat) (b : Browser) :
  (navbar < length (nodes b) ->
     hasClass (StickyNavbar.handleScroll navbar b) navbar "scrolled"
     = (50 <? scrollY b)%Z) /\
  (forall c, c <> "scrolled" ->
     agree (carries c) b (StickyNavbar.handleScroll navbar b)) /\
  agree attributes b (StickyNavbar.handleScroll navbar b) /\
  agree value b (StickyNavbar.handleScroll navbar b) /\
  (forall j, j <> navbar ->
     classesOf (StickyNavbar.handleScroll navbar b) j = classesOf b j) /\
  (forall j c,
     hasClass (StickyNavbar.handleScroll navbar (StickyNavbar.handleScroll navbar b)) j c
     = hasClass (StickyNavbar.handleScroll navbar b) j c).
Proof.
  assert (Hhas : forall b0 j c,
            hasClass (StickyNavbar.handleScroll navbar b0) j c =
            if decide (navbar = j)
            then (if bool_decide (c = "scrolled")
                  then bool_decide (j < length (nodes b0)) && (50 <? scrollY b0)%Z
                  else hasClass b0 j c)
            else hasClass b0 j c).
  { intros b0 j c. unfold StickyNavbar.handleScroll.
    destruct (50 <? scrollY b0)%Z; rewrite !hasClass_alt;
      unfold classList_add, classList_remove; rewrite from_option_update;
      (destruct (decide (navbar = j)) as [->|]; [|reflexivity]);
      (destruct (nodes b0 !! j) as [e|] eqn:En; simpl).
    - rewrite (bool_decide_eq_true_2 (j < length (nodes b0)))
        by (apply lookup_lt_is_Some; eauto).
      destruct (bool_decide (c = "scrolled")) eqn:Ec.
      + apply bool_decide_eq_true in Ec as ->.
        apply bool_decide_eq_true_2, tokens_add_elem. left. reflexivity.
      + apply bool_decide_eq_false in Ec. apply bool_decide_ext.
        rewrite tokens_add_elem. tauto.
    - rewrite (bool_decide_eq_false_2 (j < length (nodes b0)))
        by (intros H; apply lookup_lt_is_Some in H as [x Hx]; congruence).
      destruct (bool_decide (c = "scrolled")); reflexivity.
    - rewrite andb_false_r.
      destruct (bool_decide (c = "scrolled")) eqn:Ec.
      + apply bool_decide_eq_true in Ec as ->.
        apply bool_decide_eq_false_2. rewrite tokens_remove_elem. tauto.
      + apply bool_decide_eq_false in Ec. apply bool_decide_ext.
        rewrite tokens_remove_elem. tauto.
    - rewrite andb_false_r. destruct (bool_decide (c = "scrolled")); reflexivity. }
  assert (Hscroll : scrollY (StickyNavbar.handleScroll navbar b) = scrollY b).
  { unfold StickyNavbar.handleScroll. destruct (50 <? scrollY b)%Z; reflexivity. }
  assert (Hlen : length (nodes (StickyNavbar.handleScroll navbar b)) = length (nodes b)).
  { unfold StickyNavbar.handleScroll.
    destruct (50 <? scrollY b)%Z; apply update_length. }
  split; [|split; [|split; [|split; [|split]]]].
  - intros Hlt. rewrite Hhas, decide_True by reflexivity.
    rewrite (bool_decide_eq_true_2 ("scrolled" = "scrolled")) by reflexivity.
    rewrite bool_decide_eq_true_2 by exact Hlt. reflexivity.
  - intros c Hc. unfold StickyNavbar.handleScroll.
    destruct (50 <? scrollY b)%Z;
      [apply agree_class_add | apply agree_class_remove]; exact Hc.
  - unfold StickyNavbar.handleScroll.
    destruct (50 <? scrollY b)%Z; apply agree_update; reflexivity.
  - unfold StickyNavbar.handleScroll.
    destruct (50 <? scrollY b)%Z; apply agree_update; reflexivity.
  - intros j Hne. unfold classesOf, StickyNavbar.handleScroll.
    destruct (50 <? scrollY b)%Z; unfold classList_add, classList_remove;
      rewrite from_option_update, decide_False by congruence; reflexivity.
  - intros j c. rewrite (Hhas (StickyNavbar.handleScroll navbar b)), Hscroll, Hlen.
    rewrite (Hhas b).
    destruct (decide (navbar = j)); [|reflexivity].
    destruct (bool_decide (c = "scrolled")); reflexivity.
Qed.

(** X14 at work: a page scrolled to exactly 50 has no "scrolled" class on
    its navbar (here element 9 stands for the navbar). *)
Lemma X14_witness :
  hasClass (StickyNavbar.handleScroll 9
              (mkBrowser (nodes (page "Bob" "a@b.c" EmptyString)) [] None 1024 50 []))
    9 "scrolled"
  = false.
Proof.
  rewrite (proj1 (X14_sticky_navbar 9
             (mkBrowser (nodes (page "Bob" "a@b.c" EmptyString)) [] None 1024 50 []))).
  - reflexivity.
  - vm_compute. lia.
Defined.

End KeepExtras.

(** ** The section highlighter *)

Section SpyExtras.
Import Dom Spec Samples Script ScrollSpy Classes.

Lemma clearActive_agree {A} (p : Element -> A) b :
  (forall e l, p (set_classList l e) = p e) -> agree p b (clearActive b).
Proof. intros Hp. apply agree_fold. intros b' x. apply agree_update. intros e. apply Hp. Qed.

Lemma clearActive_carries c b : c <> "active" -> agree (carries c) b (clearActive b).
Proof. intros Hc. apply agree_fold. intros b' x. apply agree_class_remove, Hc. Qed.

Lemma clearActive_inactive b l :
  l ∈ querySelectorAll b (SClass "nav-link") -> hasClass (clearActive b) l "active" = false.
Proof.
  intros Hl. unfold clearActive. rewrite deactivate_all.
  rewrite bool_decide_eq_true_2 by exact Hl. reflexivity.
Qed.

Lemma navLinkSelector_form id sel :
  navLinkSelector id = Some sel ->
  exists v, sel = SAnd (SClass "nav-link") (SAttr "href" v).
Proof.
  unfold navLinkSelector. destruct (plain _); [|discriminate].
  intros [= <-]. eauto.
Qed.

Lemma navLink_query_agree b b' sel :
  (exists v, sel = SAnd (SClass "nav-link") (SAttr "href" v)) ->
  agree attributes b b' -> agree (carries "nav-link") b b' ->
  querySelector b sel = querySelector b' sel.
Proof.
  intros [v ->] Ha Hc. unfold querySelector. f_equal.
  apply querySelectorAll_agree.
  unfold agree. apply list_eq. intros i. rewrite !list_lookup_fmap.
  pose proof (agree_lookup attributes b b' i Ha) as H1.
  pose proof (agree_lookup (carries "nav-link") b b' i Hc) as H2.
  destruct (nodes b !! i) as [e|], (nodes b' !! i) as [e'|]; simpl in *;
    try congruence.
  injection H1 as H1. injection H2 as H2. unfold carries in H2.
  rewrite H1, H2. reflexivity.
Qed.

Lemma observeEntry_stable b e b' :
  observeEntry b e = Some b' ->
  agree attributes b b' /\ agree (carries "nav-link") b b'.
Proof.
  unfold observeEntry. destruct (navLinkSelector _) as [sel|]; [|discriminate].
  simpl. destruct (isIntersecting e).
  - assert (H1 : agree attributes b (clearActive b))
      by (apply clearActive_agree; reflexivity).
    assert (H2 : agree (carries "nav-link") b (clearActive b))
      by (apply clearActive_carries; discriminate).
    destruct (querySelector b sel) as [l|]; intros [= <-].
    + split.
      * eapply agree_trans; [exact H1|]. apply agree_update. reflexivity.
      * eapply agree_trans; [exact H2|]. apply agree_class_add. discriminate.
    + split; assumption.
  - intros [= <-]. split; apply agree_refl.
Qed.

Lemma observerCallback_stable es : forall b b',
  observerCallback es b = Some b' ->
  agree attributes b b' /\ agree (carries "nav-link") b b'.
Proof.
  induction es as [|e es IH]; intros b b'; simpl.
  - intros [= <-]. split; apply agree_refl.
  - destruct (observeEntry b e) as [b1|] eqn:E; [|discriminate]. simpl. intros H.
    destruct (observeEntry_stable _ _ _ E) as [H1 H2].
    destruct (IH _ _ H) as [H3 H4].
    split; eapply agree_trans; eassumption.
Qed.

Lemma observerCallback_app es1 es2 b :
  observerCallback (es1 ++ es2) b
  = b1 ← observerCallback es1 b; observerCallback es2 b1.
Proof.
  revert b. induction es1 as [|e es1 IH]; intros b; simpl; [reflexivity|].
  destruct (observeEntry b e); simpl; [apply IH | reflexivity].
Qed.

Lemma lastIntersecting_snoc es e :
  lastIntersecting (es ++ [e])
  = if isIntersecting e then Some e else lastIntersecting es.
Proof.
  unfold lastIntersecting. rewrite List.filter_app. simpl.
  destruct (isIntersecting e); [apply last_snoc | rewrite app_nil_r; reflexivity].
Qed.

(** X15.  The callback of the observer, whenever it runs to its end.  A
    batch with no intersecting entry changes nothing.  Otherwise the last
    intersecting entry of the batch wins: among the navigation links, the
    one active afterwards is the first link whose href is "#" followed by
    that section's id, and no other; when there is no such link, none is
    active. *)
Theorem X15_scroll_spy (entries : list Entry) (b b' : Browser) :
  observerCallback entries b = Some b' ->
  (lastIntersecting entries = None -> b' = b) /\
  (forall e, lastIntersecting entries = Some e ->
     exists sel,
       navLinkSelector (getAttribute b (target e) "id") = Some sel /\
       forall l, l ∈ querySelectorAll b (SClass "nav-link") ->
         hasClass b' l "active" = bool_decide (querySelector b sel = Some l)).
Proof.
  revert b'. induction entries as [|e entries IH] using rev_ind; intros b' H.
  - simpl in H. injection H as <-. split; [reflexivity|]. intros e He. discriminate.
  - rewrite observerCallback_app in H.
    destruct (observerCallback entries b) as [b1|] eqn:E1; [|discriminate].
    simpl in H.
    destruct (observeEntry b1 e) as [b2|] eqn:E2; [|discriminate].
    simpl in H. injection H as <-.
    destruct (observerCallback_stable _ _ _ E1) as [Hattr Hcls].
    destruct (IH b1 eq_refl) as [IHnone IHsome].
    rewrite lastIntersecting_snoc.
    unfold observeEntry in E2.
    rewrite <- (getAttribute_agree b b1 _ _ Hattr) in E2.
    destruct (navLinkSelector (getAttribute b (target e) "id")) as [sel|] eqn:Es;
      [|discriminate].
    simpl in E2. destruct (isIntersecting e) eqn:Ei.
    + split; [discriminate|]. intros e0 [= <-]. exists sel. split; [exact Es|].
      intros l Hl.
      assert (Hq : querySelector b1 sel = querySelector b sel).
      { symmetry. apply navLink_query_agree;
          [eapply navLinkSelector_form; exact Es | exact Hattr | exact Hcls]. }
      assert (Hl1 : l ∈ querySelectorAll b1 (SClass "nav-link")).
      { rewrite <- (querySelectorAll_agree b b1); [exact Hl | exact Hcls]. }
      rewrite Hq in E2.
      destruct (querySelector b sel) as [l0|] eqn:El0; injection E2 as <-.
      * destruct (decide (l0 = l)) as [->|Hne].
        -- rewrite bool_decide_eq_true_2 by reflexivity.
           apply hasClass_add.
           rewrite <- (agree_length attributes b1 (clearActive b1))
             by (apply clearActive_agree; reflexivity).
           apply querySelectorAll_elem in Hl1. tauto.
        -- rewrite bool_decide_eq_false_2 by congruence.
           rewrite hasClass_alt. unfold classList_add.
           rewrite from_option_update, decide_False by exact Hne.
           rewrite <- hasClass_alt. apply clearActive_inactive, Hl1.
      * rewrite bool_decide_eq_false_2 by discriminate.
        apply clearActive_inactive, Hl1.
    + injection E2 as <-. split; [exact IHnone | exact IHsome].
Qed.

(** X15 at work on the sample page, whose one navigation link (element 11)
    points to "#contact": an entry for a section without an id, not
    intersecting, leaves the page as it is. *)
Lemma X15_witness :
  observerCallback [mkEntry 0 false] (page "Bob" "a@b.c" EmptyString)
  = Some (page "Bob" "a@b.c" EmptyString).
Proof.
  assert (H : exists b', observerCallback [mkEntry 0 false] (page "Bob" "a@b.c" EmptyString)
                         = Some b').
  { eexists. vm_compute. reflexivity. }
  destruct H as [b' H]. rewrite H. f_equal.
  apply (proj1 (X15_scroll_spy _ _ _ H)). reflexivity.
Defined.

End SpyExtras.

(** ** The address pattern and validation again *)

Section PatternExtras.
Import Dom Spec Samples Script.ContactForm.

Lemma plain_no_at l : Forall plain l -> count_occ ascii_dec l "@"%char = 0.
Proof.
  intros H. apply count_occ_not_In. intros Hin.
  rewrite Forall_forall in H. apply list_elem_of_In in Hin.
  destruct (H _ Hin) as [_ Hne]. congruence.
Qed.

Lemma plain_no_space l : Forall plain l -> Forall (fun c => Str.is_space c = false) l.
Proof. intros H. eapply Forall_impl; [exact H|]. intros c [Hc _]. exact Hc. Qed.

(** X16.  The address pattern of the form accepts exactly the strings of
    the shape [local@domain.tld].  So an accepted address has at least five
    characters, exactly one at sign and no white space; the empty string is
    not accepted. *)
Theorem X16_email_pattern (v : string) :
  (Regex.test emailRegex v = true <-> local_at_domain_tld v) /\
  (Regex.test emailRegex v = true ->
     5 <= length (Str.chars v) /\
     count_occ ascii_dec (Str.chars v) "@"%char = 1 /\
     Forall (fun c => Str.is_space c = false) (Str.chars v)) /\
  Regex.test emailRegex EmptyString = false.
Proof.
  split; [apply emailRegex_shape|]. split; [|reflexivity].
  intros H. apply emailRegex_shape in H.
  destruct H as (l & d & t & -> & Hl & Hd & Ht & Al & Ad & At).
  split; [|split].
  - rewrite length_app. simpl. rewrite length_app. simpl.
    destruct l; [congruence|]. destruct d; [congruence|]. destruct t; [congruence|].
    simpl. lia.
  - rewrite count_occ_app. simpl.
    destruct (ascii_dec "@" "@") as [_|Hn]; [|congruence].
    rewrite count_occ_app. simpl.
    destruct (ascii_dec "." "@") as [Hn|_]; [discriminate|].
    rewrite !plain_no_at by assumption. reflexivity.
  - apply Forall_app. split; [apply plain_no_space, Al|].
    apply Forall_cons. split; [reflexivity|].
    apply Forall_app. split; [apply plain_no_space, Ad|].
    apply Forall_cons. split; [reflexivity|]. apply plain_no_space, At.
Qed.

(** X16 at work. *)
Lemma X16_witness :
  count_occ ascii_dec (Str.chars "bob@example.org") "@"%char = 1.
Proof.
  apply (proj2 (X16_email_pattern "bob@example.org")). vm_compute. reflexivity.
Defined.

Lemma email_rejected_same s b b' i :
  same_but_flags b b' -> email_rejected s b i = email_rejected s b' i.
Proof.
  intros H. unfold email_rejected. rewrite <- (emailField_same s b b' H).
  destruct (emailField s b) as [e|]; [|reflexivity].
  rewrite <- (valueOf_agree b b' e (same_but_flags_value _ _ H)). reflexivity.
Qed.

(** X17.  Validation can be repeated: run again on the page it has just
    flagged, it returns the same verdict and leaves every flag as it is;
    and it never writes to the log. *)
Theorem X17_validate_again (s : State) (b : Browser) :
  fst (validateForm s (snd (validateForm s b))) = fst (validateForm s b) /\
  (forall i, i < length (nodes b) ->
     borderColorOf (snd (validateForm s (snd (validateForm s b)))) i
     = borderColorOf (snd (validateForm s b)) i) /\
  log (snd (validateForm s b)) = log b.
Proof.
  pose proof (validateForm_same s b) as Hs.
  set (b1 := snd (validateForm s b)) in *.
  split; [|split].
  - rewrite !validateForm_verdict.
    rewrite <- (requiredFields_same s b b1 Hs), <- (email_ok_same s b b1 Hs).
    f_equal. apply forallb_pointwise. intros i. symmetry.
    apply same_but_flags_nonblank, Hs.
  - intros i Hlt.
    assert (Hlt1 : i < length (nodes b1)).
    { rewrite <- (agree_length value b b1) by (apply same_but_flags_value, Hs). exact Hlt. }
    rewrite (validateForm_flags s b1 i Hlt1).
    rewrite <- (email_rejected_same s b b1 i Hs), <- (requiredFields_same s b b1 Hs).
    rewrite <- (same_but_flags_nonblank b b1 i Hs).
    assert (Hb1 : borderColorOf b1 i =
                  if email_rejected s b i then errorColor
                  else if bool_decide (i ∈ requiredFields s b)
                       then (if nonblank b i then EmptyString else errorColor)
                       else borderColorOf b i).
    { unfold b1. apply validateForm_flags, Hlt. }
    destruct (email_rejected s b i) eqn:E2;
      [rewrite ?E2 in Hb1; rewrite Hb1; reflexivity|].
    destruct (bool_decide (i ∈ requiredFields s b)) eqn:E; [|reflexivity].
    rewrite ?E2, ?E in Hb1. rewrite Hb1. reflexivity.
  - symmetry. apply Hs.
Qed.

(** X17 at work on the sample page with the name left empty. *)
Lemma X17_witness :
  borderColorOf
    (snd (validateForm contactState
            (snd (validateForm contactState (page EmptyString "a@b.c" EmptyString))))) 1
  = borderColorOf (snd (validateForm contactState (page EmptyString "a@b.c" EmptyString))) 1.
Proof.
  apply (proj1 (proj2 (X17_validate_again contactState
                         (page EmptyString "a@b.c" EmptyString)))).
  vm_compute. lia.
Defined.

End PatternExtras.

(** ** The menu among the other listeners of the page *)

Section PageExtras.
Import Dom Spec Samples Script Classes NavSync PageEvents.

Lemma quiet_refl m b : quiet m b b.
Proof. unfold quiet. repeat split; apply agree_refl. Qed.

Lemma quiet_trans m b1 b2 b3 : quiet m b1 b2 -> quiet m b2 b3 -> quiet m b1 b3.
Proof.
  intros (?&?&?&?) (?&?&?&?).
  repeat split; first [congruence | eapply agree_trans; eassumption].
Qed.

Lemma quiet_nodes m b b' : nodes b = nodes b' -> quiet m b b'.
Proof.
  intros H. unfold quiet. repeat split; try (apply agree_nodes, H).
  rewrite !hasClass_alt, H. reflexivity.
Qed.

Lemma quiet_length m b b' : quiet m b b' -> length (nodes b') = length (nodes b).
Proof. intros (H & _). symmetry. eapply agree_length, H. Qed.

Lemma quiet_getAttribute m b b' i :
  quiet m b b' -> getAttribute b' i "aria-expanded" = getAttribute b i "aria-expanded".
Proof.
  intros (H & _). apply (agree_lookup _ _ _ i) in H. unfold getAttribute.
  destruct (nodes b !! i), (nodes b' !! i); simpl in *; congruence.
Qed.

Lemma quiet_hasClass m b b' j :
  quiet m b b' ->
  hasClass b' j "nav-link" = hasClass b j "nav-link" /\
  hasClass b' j "business-type-card" = hasClass b j "business-type-card".
Proof.
  intros (_ & H1 & H2 & _). split; symmetry; apply hasClass_agree; assumption.
Qed.

(** An update that touches neither the attribute nor the classes. *)
Lemma quiet_update m i f b :
  (forall e, attributes (f e) !! "aria-expanded" = attributes e !! "aria-expanded") ->
  (forall e, classList (f e) = classList e) ->
  quiet m b (update i f b).
Proof.
  intros Ha Hc. unfold quiet, carries. repeat split.
  - apply agree_update, Ha.
  - apply agree_update. intros e. rewrite Hc. reflexivity.
  - apply agree_update. intros e. rewrite Hc. reflexivity.
  - symmetry. apply hasClass_agree, agree_update. intros e. rewrite Hc. reflexivity.
Qed.

Lemma hasClass_update_other i f b j c :
  i <> j -> hasClass (update i f b) j c = hasClass b j c.
Proof.
  intros Hne. rewrite !hasClass_alt, from_option_update.
  rewrite decide_False by exact Hne. reflexivity.
Qed.

Lemma quiet_class_add m i c b :
  c <> "nav-link" -> c <> "business-type-card" -> (c = "active" -> i <> m) ->
  quiet m b (classList_add i c b).
Proof.
  intros H1 H2 H3. unfold quiet, carries. repeat split.
  - apply agree_update. reflexivity.
  - apply agree_class_add. congruence.
  - apply agree_class_add. congruence.
  - destruct (decide (c = "active")) as [Hc|Hc].
    + apply hasClass_update_other, H3, Hc.
    + symmetry. apply hasClass_agree, agree_class_add. congruence.
Qed.

Lemma quiet_class_remove m i c b :
  c <> "nav-link" -> c <> "business-type-card" -> (c = "active" -> i <> m) ->
  quiet m b (classList_remove i c b).
Proof.
  intros H1 H2 H3. unfold quiet, carries. repeat split.
  - apply agree_update. reflexivity.
  - apply agree_class_remove. congruence.
  - apply agree_class_remove. congruence.
  - destruct (decide (c = "active")) as [Hc|Hc].
    + apply hasClass_update_other, H3, Hc.
    + symmetry. apply hasClass_agree, agree_class_remove. congruence.
Qed.

Lemma quiet_setAttribute m i a v b :
  a <> "aria-expanded" -> quiet m b (setAttribute i a v b).
Proof.
  intros Ha. apply quiet_update; [|reflexivity].
  intros e. simpl. apply lookup_insert_ne, Ha.
Qed.

Lemma quiet_fold {B} m (g : Browser -> B -> Browser) l : forall b,
  (forall b x, x ∈ l -> quiet m b (g b x)) -> quiet m b (fold_left g l b).
Proof.
  induction l as [|a l IH]; intros b H; cbn [fold_left]; [apply quiet_refl|].
  eapply quiet_trans; [apply H; left|]. apply IH. intros b' x Hx. apply H. right. exact Hx.
Qed.

(** The last write of a listener, peeled off. *)

Lemma quiet_after_nodes m b b1 b2 : nodes b1 = nodes b2 -> quiet m b b1 -> quiet m b b2.
Proof. intros H Hq. eapply quiet_trans; [exact Hq | apply quiet_nodes, H]. Qed.

Lemma quiet_after_focus m b b' i : quiet m b b' -> quiet m b (focus i b').
Proof. apply quiet_after_nodes. symmetry. apply focus_nodes. Qed.

Lemma quiet_after_emit m b b' e : quiet m b b' -> quiet m b (emit e b').
Proof. apply quiet_after_nodes. reflexivity. Qed.

Lemma quiet_after_body_add m b b' c : quiet m b b' -> quiet m b (body_add c b').
Proof. apply quiet_after_nodes. reflexivity. Qed.

Lemma quiet_after_body_remove m b b' c : quiet m b b' -> quiet m b (body_remove c b').
Proof. apply quiet_after_nodes. reflexivity. Qed.

Lemma quiet_after_setAttribute m b b' i a v :
  a <> "aria-expanded" -> quiet m b b' -> quiet m b (setAttribute i a v b').
Proof. intros Ha Hq. eapply quiet_trans; [exact Hq | apply quiet_setAttribute, Ha]. Qed.

Lemma quiet_after_update m b b' i f :
  (forall e, attributes (f e) = attributes e) ->
  (forall e, classList (f e) = classList e) ->
  quiet m b b' -> quiet m b (update i f b').
Proof.
  intros Ha Hc Hq. eapply quiet_trans; [exact Hq|].
  apply quiet_update; [|exact Hc]. intros e. rewrite Ha. reflexivity.
Qed.

Lemma quiet_after_class_add m b b' i c :
  c <> "nav-link" -> c <> "business-type-card" -> (c = "active" -> i <> m) ->
  quiet m b b' -> quiet m b (classList_add i c b').
Proof.
  intros H1 H2 H3 Hq. eapply quiet_trans; [exact Hq|]. apply quiet_class_add; assumption.
Qed.

Lemma quiet_after_class_remove m b b' i c :
  c <> "nav-link" -> c <> "business-type-card" -> (c = "active" -> i <> m) ->
  quiet m b b' -> quiet m b (classList_remove i c b').
Proof.
  intros H1 H2 H3 Hq. eapply quiet_trans; [exact Hq|]. apply quiet_class_remove; assumption.
Qed.

Ltac quiet_side :=
  first [ discriminate
        | let H := fresh in intros H; discriminate H
        | intros _; eassumption ].

Ltac quiet_tac :=
  repeat first
    [ assumption
    | apply quiet_refl
    | apply quiet_after_focus
    | apply quiet_after_emit
    | apply quiet_after_body_add
    | apply quiet_after_body_remove
    | apply quiet_after_class_add; [quiet_side | quiet_side | quiet_side |]
    | apply quiet_after_class_remove; [quiet_side | quiet_side | quiet_side |]
    | apply quiet_after_setAttribute; [discriminate|]
    | apply quiet_after_update; [reflexivity | reflexivity |] ].

(** *** The listeners of the other parts *)

Lemma modal_step_quiet m st a :
  CalendlyModal.modal (fst st) <> m ->
  quiet m (snd st) (snd (CalendlyModal.step st a)).
Proof.
  destruct st as [s b]. cbn [fst snd]. intros Hne.
  assert (Hclose : quiet m b (snd (CalendlyModal.closeModal (s, b)))).
  { unfold CalendlyModal.closeModal. cbn [snd]. quiet_tac. }
  destruct a as [| |key shiftKey|to]; cbn [CalendlyModal.step].
  - unfold CalendlyModal.onTriggerClick, CalendlyModal.openModal,
      CalendlyModal.updateFocusableElements. simpl.
    destruct (CalendlyModal.iframe s) as [f|];
      [destruct (CalendlyModal.iframeSrcSet s)|]; simpl;
      match goal with |- context [head ?l] => destruct (head l) end; cbn [snd];
      quiet_tac.
  - exact Hclose.
  - unfold CalendlyModal.onKeydown. cbn [fst].
    destruct (CalendlyModal.isModalOpen s); cbn [negb]; [|apply quiet_refl].
    destruct (String.eqb key "Escape").
    + destruct (CalendlyModal.closeModal (s, b)) as [s1 b1]. cbn [snd] in Hclose.
      repeat case_match; simplify_eq; cbn [fst snd]; quiet_tac.
    + repeat case_match; simplify_eq; cbn [fst snd]; quiet_tac.
  - cbn [snd]. apply quiet_nodes. reflexivity.
Qed.

Lemma not_card b m :
  hasClass b m "business-type-card" = false ->
  m ∉ querySelectorAll b (SClass "business-type-card").
Proof.
  intros H Hin. apply querySelectorAll_elem in Hin as [_ Hm].
  unfold matchesAt in Hm. rewrite hasClass_alt in H. simpl in Hm. congruence.
Qed.

Lemma not_navLink b m :
  hasClass b m "nav-link" = false -> m ∉ querySelectorAll b (SClass "nav-link").
Proof.
  intros H Hin. apply querySelectorAll_elem in Hin as [_ Hm].
  unfold matchesAt in Hm. rewrite hasClass_alt in H. simpl in Hm. congruence.
Qed.

Lemma resetCard_quiet m b c : c <> m -> quiet m b (ContactForm.resetCard b c).
Proof.
  intros Hne. unfold ContactForm.resetCard.
  assert (H : quiet m b (classList_remove c "active" b)).
  { apply quiet_class_remove; [discriminate|discriminate|]. intros _. exact Hne. }
  destruct (bool_decide _); [|exact H].
  eapply quiet_trans; [exact H|].
  apply quiet_class_add; [discriminate|discriminate|]. intros _. exact Hne.
Qed.

Lemma onSubmit_begin_quiet m f b : quiet m b (fst (ContactForm.onSubmit_begin f b)).
Proof.
  assert (Hv : quiet m b (snd (ContactForm.validateForm f b))).
  { unfold quiet, carries. repeat split;
      try (apply validateForm_agree; reflexivity).
    symmetry. apply hasClass_agree, validateForm_agree. reflexivity. }
  unfold ContactForm.onSubmit_begin.
  destruct (ContactForm.validateForm f b) as [v b1]. cbn [snd] in Hv.
  destruct v; cbn [negb fst]; [|exact Hv].
  destruct (match ContactForm.honeypot f b1 with
            | Some h => Str.truthy (valueOf b1 h)
            | None => false
            end); cbn [fst]; [exact Hv|].
  destruct (ContactForm.submitButton f); unfold setInnerHTML, setDisabled; quiet_tac.
Qed.

Lemma onSubmit_resume_quiet m f r b :
  hasClass b m "business-type-card" = false ->
  quiet m b (ContactForm.onSubmit_resume f r b).
Proof.
  intros Hm.
  assert (Hfail : quiet m b (ContactForm.onFailure b)).
  { apply quiet_nodes. reflexivity. }
  assert (Hsettle : forall b', quiet m b b' -> quiet m b (ContactForm.onSettled f b')).
  { intros b' H. unfold ContactForm.onSettled.
    destruct (ContactForm.submitButton f); unfold setInnerHTML, setDisabled; quiet_tac. }
  assert (Hsucc : quiet m b (ContactForm.onSuccess f b)).
  { rewrite onSuccess_unfold.
    assert (Hb : quiet m b (beforeCards f b)).
    { unfold beforeCards.
      assert (H1 : quiet m b (match ContactForm.successMessage f with
                              | Some x => classList_add x "show" b
                              | None => b
                              end)).
      { destruct (ContactForm.successMessage f); [|apply quiet_refl].
        apply quiet_class_add; discriminate. }
      assert (H2 : forall b', quiet m b b' -> quiet m b (formReset (ContactForm.form f) b')).
      { intros b' H. eapply quiet_trans; [exact H|]. unfold formReset.
        apply quiet_fold. intros b2 x _. unfold reset_control.
        apply quiet_update; reflexivity. }
      apply H2 in H1.
      destruct (getElementById _ "business-type"); unfold setValue; quiet_tac. }
    eapply quiet_trans; [exact Hb|].
    apply quiet_fold. intros b' x Hx. apply resetCard_quiet.
    intros ->. revert Hx. apply not_card.
    rewrite (proj2 (quiet_hasClass _ _ _ m Hb)). exact Hm. }
  unfold ContactForm.onSubmit_resume. apply Hsettle.
  destruct r as [status|]; [destruct (ContactForm.response_ok status)|]; assumption.
Qed.

Lemma onCardClick_quiet m t card b :
  m ∉ BusinessTypeSelector.businessTypeCards t -> card <> m ->
  quiet m b (BusinessTypeSelector.onCardClick t card b).
Proof.
  intros Hm Hne. unfold BusinessTypeSelector.onCardClick, setValue.
  apply quiet_after_update; [reflexivity|reflexivity|].
  apply quiet_after_class_add; [discriminate|discriminate|intros _; exact Hne|].
  apply quiet_fold. intros b' x Hx.
  apply quiet_class_remove; [discriminate|discriminate|].
  intros _ ->. contradiction.
Qed.

Lemma observeEntry_quiet m b e b' :
  hasClass b m "nav-link" = false ->
  ScrollSpy.observeEntry b e = Some b' -> quiet m b b'.
Proof.
  intros Hm. unfold ScrollSpy.observeEntry.
  destruct (ScrollSpy.navLinkSelector _) as [sel|] eqn:Es; simpl; [|discriminate].
  assert (Hclear : quiet m b (ScrollSpy.clearActive b)).
  { unfold ScrollSpy.clearActive. apply quiet_fold. intros b1 x Hx.
    apply quiet_class_remove; [discriminate|discriminate|].
    intros _ ->. revert Hx. apply not_navLink, Hm. }
  destruct (ScrollSpy.isIntersecting e); [|intros [= <-]; apply quiet_refl].
  destruct (querySelector b sel) as [l|] eqn:El; intros [= <-]; [|exact Hclear].
  eapply quiet_trans; [exact Hclear|].
  apply quiet_class_add; [discriminate|discriminate|]. intros _ ->.
  apply navLinkSelector_form in Es as [v ->].
  apply head_elem, querySelectorAll_elem in El as [_ El].
  unfold matchesAt in El. rewrite hasClass_alt in Hm.
  destruct (nodes b !! m); simpl in *; [|discriminate].
  apply andb_true_iff in El as [El _]. congruence.
Qed.

(** *** The menu's own listeners *)

Lemma openMenu_carries c st :
  c <> "active" -> agree (carries c) (snd st) (snd (MobileNav.openMenu st)).
Proof.
  intros Hc. destruct st as [s b]. unfold MobileNav.openMenu. cbn [snd].
  eapply agree_trans; [|apply agree_nodes; reflexivity].
  eapply agree_trans; [|apply agree_class_add, Hc].
  apply agree_update. reflexivity.
Qed.

Lemma closeMenu_carries c st :
  c <> "active" -> agree (carries c) (snd st) (snd (MobileNav.closeMenu st)).
Proof.
  intros Hc. destruct st as [s b]. unfold MobileNav.closeMenu. cbn [snd].
  eapply agree_trans; [|apply agree_focus].
  eapply agree_trans; [|apply agree_nodes; reflexivity].
  eapply agree_trans; [|apply agree_class_remove, Hc].
  apply agree_update. reflexivity.
Qed.

Lemma quiet_keeps p b' :
  (forall s, mobileNav p = Some s -> apart p ->
     quiet (MobileNav.navMenu s) (browser p) b') ->
  apart p /\ synced p -> apart (set_browser b' p) /\ synced (set_browser b' p).
Proof.
  intros Hq [Ha Hs]. specialize (fun s H => Hq s H Ha). revert Ha Hs Hq.
  unfold apart, synced.
  cbn [set_browser mobileNav browser businessTypeSelector calendlyModal].
  destruct (mobileNav p) as [s|]; [|tauto].
  intros (Ht & Hm & Hc & Hn & Hcards & Hmodal) [Hattr Hact] Hq.
  specialize (Hq s eq_refl).
  pose proof (quiet_length _ _ _ Hq) as Hlen.
  destruct (quiet_hasClass _ _ _ (MobileNav.navMenu s) Hq) as [Hq1 Hq2].
  rewrite Hlen, Hq1, Hq2, (quiet_getAttribute _ _ _ _ Hq).
  destruct Hq as (_ & _ & _ & ->). tauto.
Qed.

Lemma nav_keeps f p :
  (forall st, f st = st \/ f st = MobileNav.openMenu st \/ f st = MobileNav.closeMenu st) ->
  apart p /\ synced p -> apart (withNav f p) /\ synced (withNav f p).
Proof.
  intros Hf [Ha Hs]. unfold withNav. destruct (mobileNav p) as [s|] eqn:Es;
    [|split; assumption].
  unfold apart, synced in *.
  cbn [set_browser set_mobileNav mobileNav browser businessTypeSelector calendlyModal].
  rewrite Es in Ha, Hs.
  destruct Ha as (Ht & Hm & Hc & Hn & Hcards & Hmodal).
  assert (Hmount : mounted (s, browser p)) by (split; assumption).
  destruct (Hf (s, browser p)) as [-> | [-> | ->]].
  - cbn [fst snd]. tauto.
  - destruct (openMenu_settled _ Hmount) as (H1 & H2 & _).
    rewrite openMenu_length.
    rewrite <- (hasClass_agree "business-type-card" _ _ _
                  (openMenu_carries "business-type-card" (s, browser p) ltac:(discriminate))).
    rewrite <- (hasClass_agree "nav-link" _ _ _
                  (openMenu_carries "nav-link" (s, browser p) ltac:(discriminate))).
    cbn [fst snd] in *. tauto.
  - destruct (closeMenu_settled _ Hmount) as (H1 & H2 & _).
    rewrite closeMenu_length.
    rewrite <- (hasClass_agree "business-type-card" _ _ _
                  (closeMenu_carries "business-type-card" (s, browser p) ltac:(discriminate))).
    rewrite <- (hasClass_agree "nav-link" _ _ _
                  (closeMenu_carries "nav-link" (s, browser p) ltac:(discriminate))).
    cbn [fst snd] in *. tauto.
Qed.

Lemma modal_keeps a p :
  apart p /\ synced p ->
  apart (withModal (fun st => CalendlyModal.step st a) p) /\
  synced (withModal (fun st => CalendlyModal.step st a) p).
Proof.
  intros [Ha Hs]. unfold withModal. destruct (calendlyModal p) as [ms|] eqn:Em;
    [|split; assumption].
  assert (Hq : forall s, mobileNav p = Some s ->
                 quiet (MobileNav.navMenu s) (browser p)
                       (snd (CalendlyModal.step (ms, browser p) a))).
  { intros s Es. apply (modal_step_quiet _ (ms, browser p)). cbn [fst].
    unfold apart in Ha. rewrite Es in Ha. apply Ha, Em. }
  destruct (quiet_keeps p (snd (CalendlyModal.step (ms, browser p) a))
              (fun s H _ => Hq s H) (conj Ha Hs)) as [Ha' Hs'].
  revert Ha' Hs'. unfold apart, synced.
  cbn [set_browser set_calendlyModal mobileNav browser businessTypeSelector calendlyModal].
  destruct (mobileNav p) as [s|]; [|tauto].
  intros (Ht & Hm & Hc & Hn & Hcards & Hmodal) Hs'. split; [|exact Hs'].
  repeat split; try assumption.
  intros m' [= <-]. rewrite step_modal. cbn [fst]. apply Hmodal, Em.
Qed.

Lemma step_keeps p e : apart p /\ synced p -> apart (step p e) /\ synced (step p e).
Proof.
  intros H.
  assert (Hfrom : forall s, mobileNav p = Some s -> apart p ->
            MobileNav.navToggle s < length (nodes (browser p)) /\
            MobileNav.navMenu s < length (nodes (browser p)) /\
            hasClass (browser p) (MobileNav.navMenu s) "business-type-card" = false /\
            hasClass (browser p) (MobileNav.navMenu s) "nav-link" = false /\
            (forall t, businessTypeSelector p = Some t ->
               MobileNav.navMenu s ∉ BusinessTypeSelector.businessTypeCards t) /\
            (forall m, calendlyModal p = Some m ->
               CalendlyModal.modal m <> MobileNav.navMenu s)).
  { intros s Es Ha. unfold apart in Ha. rewrite Es in Ha. exact Ha. }
  destruct e; cbn [step]; unfold onBrowser.
  - destruct (preloader p); [|exact H]. apply quiet_keeps; [|exact H].
    intros s _ _. apply quiet_class_add; discriminate.
  - destruct (stickyNavbar p); [|exact H]. apply quiet_keeps; [|exact H].
    intros s _ _. unfold StickyNavbar.handleScroll.
    destruct (50 <? scrollY (browser p))%Z;
      [apply quiet_class_add | apply quiet_class_remove]; discriminate.
  - apply nav_keeps; [|exact H]. intros st. unfold MobileNav.onToggleClick.
    destruct (MobileNav.isOpen (fst st)); tauto.
  - destruct (mobileNav p) as [s|] eqn:Es; [|exact H].
    destruct (MobileNav.navLinks s); [exact H|].
    apply nav_keeps; [|exact H]. intros st. unfold MobileNav.onNavLinkClick.
    destruct (innerWidth (snd st) <=? 767)%Z; tauto.
  - apply nav_keeps; [|exact H]. intros [s b]. unfold MobileNav.onDocumentClick.
    destruct (_ && _); tauto.
  - apply nav_keeps; [|exact H]. intros st. unfold MobileNav.onDocumentKeydown.
    destruct (_ && _); tauto.
  - destruct (businessTypeSelector p) as [t|] eqn:Et; [|exact H].
    destruct (bool_decide _) eqn:Ec; [|exact H]. apply bool_decide_eq_true in Ec.
    apply quiet_keeps; [|exact H]. intros s Es Ha.
    destruct (Hfrom s Es Ha) as (_ & _ & _ & _ & Hcards & _).
    apply onCardClick_quiet; [apply (Hcards t eq_refl)|].
    intros ->. apply (Hcards t eq_refl), Ec.
  - destruct (contactForm p) as [cf|]; [|exact H]. apply quiet_keeps; [|exact H].
    intros s _ _. apply onSubmit_begin_quiet.
  - destruct (contactForm p) as [cf|]; [|exact H]. apply quiet_keeps; [|exact H].
    intros s Es Ha. apply onSubmit_resume_quiet. apply (Hfrom s Es Ha).
  - destruct (contactForm p) as [cf|]; [|exact H]. destruct (bool_decide _); [|exact H].
    apply quiet_keeps; [|exact H]. intros s _ _.
    unfold ContactForm.onInput. apply quiet_update; reflexivity.
  - apply (modal_keeps CalendlyModal.Open), H.
  - destruct (calendlyModal p) as [ms|]; [|exact H].
    destruct (CalendlyModal.closeButtons ms); [exact H|].
    apply (modal_keeps CalendlyModal.Close), H.
  - apply (modal_keeps (CalendlyModal.Key key shiftKey)), H.
  - destruct (bool_decide _); [|exact H].
    destruct (ScrollSpy.observeEntry (browser p) e) as [b'|] eqn:Eo; [|exact H].
    apply quiet_keeps; [|exact H]. intros s Es Ha.
    eapply observeEntry_quiet; [|exact Eo]. apply (Hfrom s Es Ha).
  - apply quiet_keeps; [|exact H]. intros s _ _. apply quiet_nodes. reflexivity.
  - apply quiet_keeps; [|exact H]. intros s _ _. apply quiet_nodes. reflexivity.
  - apply quiet_keeps; [|exact H]. intros s _ _. apply quiet_nodes. reflexivity.
  - apply quiet_keeps; [|exact H]. intros s _ _. apply quiet_update; reflexivity.
Qed.

Lemma page_run_keeps evs : forall p,
  apart p /\ synced p -> apart (run evs p) /\ synced (run evs p).
Proof.
  induction evs as [|e evs IH]; intros p H; [exact H|].
  apply IH, step_keeps, H.
Qed.

Lemma getElementById_id b id i :
  getElementById b id = Some i -> getAttribute b i "id" = Some id.
Proof.
  intros H. apply head_elem, querySelectorAll_elem in H as [_ H].
  unfold matchesAt in H. unfold getAttribute.
  destruct (nodes b !! i); simpl in *; [|discriminate].
  apply bool_decide_eq_true in H. exact H.
Qed.

(** What initialization leaves is a page on which the panel stands
    apart, as soon as the markup gives the panel neither of the two
    classes. *)
Lemma init_apart b p s :
  init b = Ok p -> mobileNav p = Some s ->
  hasClass b (MobileNav.navMenu s) "business-type-card" = false ->
  hasClass b (MobileNav.navMenu s) "nav-link" = false ->
  apart p.
Proof.
  intros Hinit Es Hc Hn.
  pose proof (init_agree classList b p ltac:(reflexivity) Hinit) as Hcls.
  pose proof (init_agree (carries "business-type-card") b p ltac:(reflexivity) Hinit)
    as Hcard.
  pose proof (init_agree (carries "nav-link") b p ltac:(reflexivity) Hinit) as Hlink.
  destruct (init_ok b) as (sm & _ & Hp). rewrite Hp in Hinit.
  injection Hinit as <-. cbn [mobileNav] in Es.
  unfold apart. cbn [mobileNav browser businessTypeSelector calendlyModal] in *.
  destruct (getElementById b "nav-toggle") as [t|] eqn:Et; [|discriminate].
  destruct (getElementById b "nav-menu") as [m|] eqn:Em; [|discriminate].
  injection Es as <-. cbn [MobileNav.navToggle MobileNav.navMenu] in *.
  rewrite <- (agree_length _ _ _ Hcls).
  rewrite <- (hasClass_agree _ _ _ _ Hcard), <- (hasClass_agree _ _ _ _ Hlink).
  split; [eapply getElementById_lt, Et|].
  split; [eapply getElementById_lt, Em|].
  split; [exact Hc|]. split; [exact Hn|]. split.
  - intros t0 Ht0.
    destruct (getElementById b "business-type"); [|discriminate].
    destruct (querySelectorAll b (SClass "business-type-card")) as [|c cards] eqn:Eq;
      [discriminate|].
    injection Ht0 as <-. cbn [BusinessTypeSelector.businessTypeCards].
    rewrite <- Eq. apply not_card, Hc.
  - intros m0 Hm0.
    destruct (getElementById b "calendly-trigger"); [|discriminate].
    destruct (getElementById b "calendly-modal") as [m1|] eqn:E1; [|discriminate].
    injection Hm0 as <-. cbn [CalendlyModal.modal]. intros ->.
    apply getElementById_id in E1, Em. rewrite E1 in Em. discriminate.
Qed.

(** X3.  The menu's panel standing apart (it is neither a business-type
    card nor a navigation link nor the modal, which initialization
    guarantees as soon as the markup gives the panel neither class):
    opening and closing the menu each leave the toggle's aria-expanded
    attribute, the panel's active class and the body's scroll lock in
    step with [isOpen]; and once the attribute and the class are in step
    with [isOpen], every run of any listener of the script and every
    action of the user keeps them so, in every order.  The scroll lock is
    left out of the second part: the modal writes it too. *)
Theorem X3_nav_in_sync (p : Page) (s : MobileNav.State) :
  mobileNav p = Some s ->
  (forall b, init b = Ok p ->
     hasClass b (MobileNav.navMenu s) "business-type-card" = false ->
     hasClass b (MobileNav.navMenu s) "nav-link" = false ->
     apart p) /\
  (apart p ->
     settled (MobileNav.openMenu (s, browser p)) /\
     settled (MobileNav.closeMenu (s, browser p)) /\
     (forall evs, synced p -> synced (run evs p) /\ apart (run evs p))).
Proof.
  intros Es. split.
  - intros b Hinit Hc Hn. eapply init_apart; eassumption.
  - intros Ha.
    assert (Hm : mounted (s, browser p)).
    { unfold apart in Ha. rewrite Es in Ha. split; apply Ha. }
    split; [apply openMenu_settled, Hm|].
    split; [apply closeMenu_settled, Hm|].
    intros evs Hs. destruct (page_run_keeps evs p (conj Ha Hs)). split; assumption.
Qed.

(** X3 at work on the sample page: the menu opened by its toggle, then
    the modal opened, a card clicked, the form sent with success and the
    menu closed by Escape. *)
Lemma X3_witness :
  init (page "Bob" "a@b.c" EmptyString) = Ok initialized /\
  synced (run [TriggerClick; CardClick 7; SubmitBegin;
               SubmitSettle (ContactForm.Response 200); MenuKeydown "Escape"]
            (step initialized ToggleClick)).
Proof.
  split; [vm_compute; reflexivity|].
  assert (Hnav : mobileNav (step initialized ToggleClick) = Some (navState true)).
  { vm_compute. reflexivity. }
  assert (Ha : apart (step initialized ToggleClick)).
  { unfold apart. rewrite Hnav.
    split; [vm_compute; lia|]. split; [vm_compute; lia|].
    split; [vm_compute; reflexivity|]. split; [vm_compute; reflexivity|]. split.
    - intros t Ht. vm_compute in Ht. injection Ht as <-. intros Hin.
      vm_compute in Hin. inversion Hin as [|? ? ? Hin2]; subst.
      inversion Hin2 as [|? ? ? Hin3]; subst. inversion Hin3.
    - intros m Hm. vm_compute in Hm. injection Hm as <-. vm_compute. discriminate. }
  assert (Hs : synced (step initialized ToggleClick)).
  { unfold synced. rewrite Hnav. split; vm_compute; reflexivity. }
  exact (proj1 (proj2 (proj2 (proj2 (X3_nav_in_sync _ _ Hnav) Ha)) _ Hs)).
Defined.

End PageExtras.
